(** * BNCC retrieval refinement: validators, relevance filter, skill extractor

    A shallow embedding of the TypeScript/JavaScript sources

    - [utils/validators]  (level, area and grade classification and checks),
    - [utils/filters]     (relevance scoring, skill extraction, page dedup),
    - [services/rag.service] (multi-query aggregation),
    - [controllers/context.controller] (request handler, final
      re-validation),

    followed by the properties established about them.

    JavaScript strings are sequences of UTF-16 code units; they are modelled
    as [list N].  JavaScript integers are modelled as [Z], the retriever's
    similarity score (a double) as a rational: a final score is the exact
    sum where JavaScript rounds it. *)

From Stdlib Require Import ZArith NArith QArith Lia Bool String Ascii Sorted.
From stdpp Require Import base list gmap.

Local Open Scope N_scope.

(** ** Strings *)

Abbreviation jsstring := (list N).

(** Source literals are written as Rocq strings (UTF-8 bytes) and decoded
    to code units; only the Basic Multilingual Plane occurs in the sources. *)
Fixpoint utf8 (bs : list N) : jsstring :=
  match bs with
  | [] => []
  | b :: rest =>
      if b <? 128 then b :: utf8 rest
      else if b <? 224 then
        match rest with
        | c :: rest' => ((b - 192) * 64 + (c - 128)) :: utf8 rest'
        | [] => [b]
        end
      else
        match rest with
        | c :: d :: rest' =>
            ((b - 224) * 4096 + (c - 128) * 64 + (d - 128)) :: utf8 rest'
        | _ => [b]
        end
  end.

Definition js (s : string) : jsstring :=
  utf8 (List.map N_of_ascii (list_ascii_of_string s)).

Module Str.

(** [p] is a prefix of [s]: [s.startsWith(p)]. *)
Fixpoint startsWith (s p : jsstring) {struct p} : bool :=
  match p, s with
  | [], _ => true
  | _ :: _, [] => false
  | a :: p', b :: s' => (a =? b) && startsWith s' p'
  end.

(** [s.includes(sub)]. *)
Fixpoint includes (s sub : jsstring) : bool :=
  startsWith s sub ||
  match s with
  | [] => false
  | _ :: s' => includes s' sub
  end.

(** [s.indexOf(c, from)] for a one-unit needle; [None] stands for -1. *)
Fixpoint indexOfAux (c : N) (i : nat) (s : jsstring) : option nat :=
  match s with
  | [] => None
  | x :: s' => if x =? c then Some i else indexOfAux c (S i) s'
  end.

Definition indexOf (s : jsstring) (c : N) (from : nat) : option nat :=
  indexOfAux c from (drop from s).

(** [s.substring(a, b)]: arguments are clamped and swapped when [a > b]. *)
Definition substring (s : jsstring) (a b : nat) : jsstring :=
  let lo := Nat.min a b in
  let hi := Nat.max a b in
  take (hi - lo) (drop lo s).

(** White space and line terminators of ECMAScript ([\s], [trim]). *)
Definition isWhite (c : N) : bool :=
  ((9 <=? c) && (c <=? 13)) || (c =? 32) || (c =? 160) || (c =? 5760)
  || ((8192 <=? c) && (c <=? 8202)) || (c =? 8232) || (c =? 8233)
  || (c =? 8239) || (c =? 8287) || (c =? 12288) || (c =? 65279).

Fixpoint trimStart (s : jsstring) : jsstring :=
  match s with
  | c :: s' => if isWhite c then trimStart s' else s
  | [] => []
  end.

Definition trimEnd (s : jsstring) : jsstring :=
  rev (trimStart (rev s)).

Definition trim (s : jsstring) : jsstring := trimEnd (trimStart s).

(** [s.split(sep)] for a one-unit separator: the list is never empty. *)
Fixpoint split (sep : N) (s : jsstring) : list jsstring :=
  match s with
  | [] => [[]]
  | c :: s' =>
      match split sep s' with
      | w :: ws => if c =? sep then [] :: w :: ws else (c :: w) :: ws
      | [] => [[c]]
      end
  end.

(** [arr.join(sep)]. *)
Fixpoint join (sep : jsstring) (l : list jsstring) : jsstring :=
  match l with
  | [] => []
  | [x] => x
  | x :: l' => x ++ sep ++ join sep l'
  end.

(** Case conversion.  The tables are exact on U+0000..U+00FF and on every
    code point outside that block whose image meets it; any other code
    unit is returned unchanged, so every comparison against the Latin
    literals and patterns of this program is decided as in JavaScript.  A
    comparison between two inputs (the theme or the subject against a
    passage) can differ when both hold cased letters outside the tables;
    such comparisons bear on boosts only. *)
Definition toUpperUnit (c : N) : jsstring :=
  if (97 <=? c) && (c <=? 122) then [c - 32]
  else if c =? 181 then [924]
  else if c =? 223 then [83; 83]
  else if (224 <=? c) && (c <=? 254) && negb (c =? 247) then [c - 32]
  else if c =? 255 then [376]
  else if c =? 305 then [73]
  else if c =? 329 then [700; 78]
  else if c =? 383 then [83]
  else if c =? 496 then [74; 780]
  else if c =? 7830 then [72; 817]
  else if c =? 7831 then [84; 776]
  else if c =? 7832 then [87; 778]
  else if c =? 7833 then [89; 778]
  else if c =? 7834 then [65; 702]
  else if c =? 64256 then [70; 70]
  else if c =? 64257 then [70; 73]
  else if c =? 64258 then [70; 76]
  else if c =? 64259 then [70; 70; 73]
  else if c =? 64260 then [70; 70; 76]
  else if c =? 64261 then [83; 84]
  else if c =? 64262 then [83; 84]
  else [c].

Definition toLowerUnit (c : N) : jsstring :=
  if (65 <=? c) && (c <=? 90) then [c + 32]
  else if (192 <=? c) && (c <=? 222) && negb (c =? 215) then [c + 32]
  else if c =? 304 then [105; 775]
  else if c =? 376 then [255]
  else if c =? 7838 then [223]
  else if c =? 8490 then [107]
  else if c =? 8491 then [229]
  else [c].

Definition toUpperCase (s : jsstring) : jsstring := flat_map toUpperUnit s.
Definition toLowerCase (s : jsstring) : jsstring := flat_map toLowerUnit s.

Definition isDigit (c : N) : bool := (48 <=? c) && (c <=? 57).

(** [parseInt(s, 10)] on the strings this program passes to it: an optional
    run of white space, then decimal digits.  [None] stands for NaN.  The
    value is exact (a double rounds beyond 2^53). *)
Fixpoint digitsValue (acc : Z) (seen : bool) (s : jsstring) : option Z :=
  match s with
  | c :: s' =>
      if isDigit c then digitsValue (acc * 10 + Z.of_N (c - 48))%Z true s'
      else if seen then Some acc else None
  | [] => if seen then Some acc else None
  end.

Definition parseInt (s : jsstring) : option Z :=
  match trimStart s with
  | 45 :: s' => option_map Z.opp (digitsValue 0 false s')
  | 43 :: s' => digitsValue 0 false s'
  | s' => digitsValue 0 false s'
  end.

(** [n.toString()] for a non-negative integer. *)
Fixpoint digitsOf (fuel : nat) (n : N) (acc : jsstring) : jsstring :=
  match fuel with
  | O => acc
  | S fuel' =>
      let acc' := (48 + n mod 10) :: acc in
      if n <? 10 then acc' else digitsOf fuel' (n / 10) acc'
  end.

Definition toString (z : Z) : jsstring :=
  match z with
  | Zneg p => 45 :: digitsOf (S (N.to_nat (N.log2 (Npos p)))) (Npos p) []
  | _ => digitsOf (S (N.to_nat (N.log2 (Z.to_N z)))) (Z.to_N z) []
  end.

(** [s.padStart(n, "0")]. *)
Definition padStart (s : jsstring) (n : nat) (c : N) : jsstring :=
  replicate (n - length s) c ++ s.

End Str.


(** ** Regular expressions

    A backtracking matcher in continuation-passing style, following the
    ECMAScript pattern semantics for the constructs the sources use:
    greedy quantifiers, ordered alternation, capture groups and the two
    anchors (no multiline flag).  [\d{2}] is written [Seq d d], [r{2,3}] as
    [Seq r (Seq r (Opt r))], [r+] as [Seq r (Star r)]. *)
Module Re.

Inductive regex : Type :=
| Eps : regex
| Chr : (N -> bool) -> regex
| Seq : regex -> regex -> regex
| Alt : regex -> regex -> regex
| Star : regex -> regex
| Group : nat -> regex -> regex
| Bol : regex
| Eol : regex.

Definition Opt (r : regex) : regex := Alt r Eps.
Definition Plus (r : regex) : regex := Seq r (Star r).

(** Captures: group number and captured text, most recent first. *)
Definition caps : Type := list (nat * jsstring).
Definition mres : Type := option (nat * caps).
Definition cont : Type := nat -> jsstring -> caps -> mres.

(** The greedy loop of [r*]: one more iteration of [m1] if it consumes
    input (ECMAScript rejects an empty iteration), otherwise go on with
    [k].  An iteration consumes at least one unit, so [length s]
    iterations exhaust the input. *)
Fixpoint star (m1 : nat -> jsstring -> caps -> cont -> mres) (k : cont)
  (fuel : nat) (i : nat) (s : jsstring) (c : caps) {struct fuel} : mres :=
  match fuel with
  | O => k i s c
  | S fuel' =>
      match m1 i s c
              (fun i' s' c' =>
                 if (i <? i')%nat then star m1 k fuel' i' s' c' else None)
      with
      | Some x => Some x
      | None => k i s c
      end
  end.

(** [rmatch r i s c k]: match [r] at index [i], where [s] is the input
    from [i] on; on success continue with [k]. *)
Fixpoint rmatch (r : regex) (i : nat) (s : jsstring) (c : caps) (k : cont)
  {struct r} : mres :=
  match r with
  | Eps => k i s c
  | Chr p =>
      match s with
      | x :: s' => if p x then k (S i) s' c else None
      | [] => None
      end
  | Seq r1 r2 => rmatch r1 i s c (fun i' s' c' => rmatch r2 i' s' c' k)
  | Alt r1 r2 =>
      match rmatch r1 i s c k with
      | Some x => Some x
      | None => rmatch r2 i s c k
      end
  | Star r1 => star (rmatch r1) k (length s) i s c
  | Group g r1 =>
      rmatch r1 i s c (fun i' s' c' => k i' s' ((g, take (i' - i) s) :: c'))
  | Bol => if (i =? 0)%nat then k i s c else None
  | Eol => match s with [] => k i s c | _ :: _ => None end
  end.

Definition accept : cont := fun e _ c => Some (e, c).

(** The result of a successful [exec]: [index], end of the match, captures. *)
Record found : Type := Found { index : nat; stop : nat; groups : caps }.

Fixpoint scan (r : regex) (i : nat) (s : jsstring) : option found :=
  match rmatch r i s [] accept with
  | Some (e, c) => Some (Found i e c)
  | None =>
      match s with
      | [] => None
      | _ :: s' => scan r (S i) s'
      end
  end.

(** [regex.exec(s)] with [lastIndex = from]: leftmost match at or after
    [from]. *)
Definition exec (r : regex) (s : jsstring) (from : nat) : option found :=
  if (length s <? from)%nat then None else scan r from (drop from s).

(** [match[g]]; an unset group is [None] ([undefined]). *)
Fixpoint group (g : nat) (c : caps) : option jsstring :=
  match c with
  | [] => None
  | (g', t) :: c' => if (g =? g')%nat then Some t else group g c'
  end.

(** [match[0]]. *)
Definition matched (s : jsstring) (f : found) : jsstring :=
  Str.substring s (index f) (stop f).

(** [s.match(r)] for a non-global [r]. *)
Definition match1 (r : regex) (s : jsstring) : option found := exec r s 0.

(** [s.search(r)]; [None] stands for -1. *)
Definition search (r : regex) (s : jsstring) : option nat :=
  option_map index (exec r s 0).

(** [s.match(r)] for a global [r]: every match, left to right.  An empty
    match advances [lastIndex] by one. *)
Fixpoint matchAllFrom (fuel : nat) (r : regex) (s : jsstring) (from : nat)
  : list jsstring :=
  match fuel with
  | O => []
  | S fuel' =>
      match exec r s from with
      | None => []
      | Some f =>
          matched s f ::
          matchAllFrom fuel' r s
            (if (stop f =? index f)%nat then S (stop f) else stop f)
      end
  end.

Definition matchAll (r : regex) (s : jsstring) : list jsstring :=
  matchAllFrom (S (length s)) r s 0.

(** [s.replace(r, '')] for a non-global [r]. *)
Definition remove1 (r : regex) (s : jsstring) : jsstring :=
  match exec r s 0 with
  | Some f => take (index f) s ++ drop (stop f) s
  | None => s
  end.

(** Character matchers.  With the [i] flag two code units match when their
    canonical forms agree; the canonical form is the upper-case image
    unless that has several units or maps a non-ASCII unit into ASCII. *)
Definition canonicalize (c : N) : N :=
  match Str.toUpperUnit c with
  | [u] => if (128 <=? c) && (u <? 128) then c else u
  | _ => c
  end.

Definition lit (c : N) : N -> bool := fun x => x =? c.
Definition liti (c : N) : N -> bool :=
  fun x => canonicalize x =? canonicalize c.
Definition range (a b : N) : N -> bool := fun x => (a <=? x) && (x <=? b).
(** A class whose members are their own canonical forms, under [i]. *)
Definition classi (p : N -> bool) : N -> bool := fun x => p (canonicalize x).

(** A literal word, case-sensitively or not. *)
Fixpoint word (ci : bool) (w : jsstring) : regex :=
  match w with
  | [] => Eps
  | c :: w' => Seq (Chr (if ci then liti c else lit c)) (word ci w')
  end.

Definition digit : regex := Chr Str.isDigit.
Definition space : regex := Chr Str.isWhite.
Definition upper (ci : bool) : regex :=
  Chr (if ci then classi (range 65 90) else range 65 90).

(** What a successful match consumes: [steps r i s i' s'] when [r] can
    take the matcher from index [i] with input [s] to index [i'] with
    input [s']. *)
Inductive steps : regex -> nat -> jsstring -> nat -> jsstring -> Prop :=
| steps_eps i s : steps Eps i s i s
| steps_chr p x i s : p x = true -> steps (Chr p) i (x :: s) (S i) s
| steps_seq r1 r2 i s i1 s1 i2 s2 :
    steps r1 i s i1 s1 -> steps r2 i1 s1 i2 s2 ->
    steps (Seq r1 r2) i s i2 s2
| steps_alt_l r1 r2 i s i' s' : steps r1 i s i' s' -> steps (Alt r1 r2) i s i' s'
| steps_alt_r r1 r2 i s i' s' : steps r2 i s i' s' -> steps (Alt r1 r2) i s i' s'
| steps_star_done r i s : steps (Star r) i s i s
| steps_star_more r i s i1 s1 i2 s2 :
    steps r i s i1 s1 -> steps (Star r) i1 s1 i2 s2 ->
    steps (Star r) i s i2 s2
| steps_group g r i s i' s' : steps r i s i' s' -> steps (Group g r) i s i' s'
| steps_bol s : steps Bol 0 s 0 s
| steps_eol i : steps Eol i [] i [].

(** Two continuations that agree on every state the matcher can reach
    from index [i] with input [s]. *)
Definition agree (i : nat) (s : jsstring) (k1 k2 : cont) : Prop :=
  forall i' s' c', (i <= i')%nat -> (length s' + (i' - i))%nat = length s ->
                   k1 i' s' c' = k2 i' s' c'.

End Re.

Local Open Scope Z_scope.

(** ** Validators ([utils/validators]) *)

Inductive NivelEscolar : Type := fundamental | medio.

#[global] Instance NivelEscolar_eq_dec : EqDecision NivelEscolar.
Proof. solve_decision. Defined.

Definition table (l : list (string * string)) : list (jsstring * jsstring) :=
  List.map (fun kv => (js (fst kv), js (snd kv))) l.

(** [obj[key]] on a literal object, by own keys.  A key that names a
    property inherited from [Object.prototype] ([constructor], [__proto__])
    finds that property in JavaScript, a function or an object and not a
    string: such keys are outside this model. *)
Fixpoint lookup_key (t : list (jsstring * jsstring)) (key : jsstring)
  : option jsstring :=
  match t with
  | [] => None
  | (k, v) :: t' => if bool_decide (k = key) then Some v else lookup_key t' key
  end.

Definition MAPEAMENTO_MEDIO : list (jsstring * jsstring) := table
  [ ("história", "CHS"); ("historia", "CHS"); ("geografia", "CHS");
    ("filosofia", "CHS"); ("sociologia", "CHS"); ("ciências humanas", "CHS");
    ("ciencias humanas", "CHS"); ("ciências humanas e sociais", "CHS");
    ("ciencias humanas e sociais", "CHS");
    ("português", "LGG"); ("portugues", "LGG"); ("língua portuguesa", "LGG");
    ("lingua portuguesa", "LGG"); ("artes", "LGG"); ("educação física", "LGG");
    ("educacao fisica", "LGG"); ("inglês", "LGG"); ("ingles", "LGG");
    ("língua inglesa", "LGG"); ("lingua inglesa", "LGG"); ("espanhol", "LGG");
    ("linguagens", "LGG"); ("produção textual", "LGG");
    ("producao textual", "LGG"); ("redação", "LGG"); ("redacao", "LGG");
    ("matemática", "MAT"); ("matematica", "MAT");
    ("biologia", "CNT"); ("química", "CNT"); ("quimica", "CNT");
    ("física", "CNT"); ("fisica", "CNT"); ("ciências", "CNT");
    ("ciencias", "CNT"); ("ciências da natureza", "CNT");
    ("ciencias da natureza", "CNT") ]%string.

Definition MAPEAMENTO_FUNDAMENTAL : list (jsstring * jsstring) := table
  [ ("história", "HI"); ("historia", "HI"); ("geografia", "GE");
    ("português", "LP"); ("portugues", "LP"); ("língua portuguesa", "LP");
    ("lingua portuguesa", "LP"); ("artes", "AR"); ("educação física", "EF");
    ("educacao fisica", "EF"); ("lingua inglêsa", "LI");
    ("lingua inglesa", "LI"); ("língua inglesa", "LI"); ("inglês", "LI");
    ("espanhol", "LI");
    ("matemática", "MA"); ("matematica", "MA");
    ("ciências", "CI"); ("ciencias", "CI"); ("ciências naturais", "CI");
    ("ciencias naturais", "CI") ]%string.

Definition disciplinasEspecificasMedio : list jsstring :=
  List.map js
    ["biologia"; "química"; "quimica"; "física"; "fisica"; "filosofia";
     "sociologia"]%string.

(** [arr.includes(x)] on a list of strings. *)
Definition inList (l : list jsstring) (x : jsstring) : bool :=
  existsb (fun y => bool_decide (y = x)) l.

(** [detectarAreaBNCC(disciplina, nivelEscolar?)]. *)
Definition detectarAreaBNCC (disciplina : jsstring)
  (nivelEscolar : option NivelEscolar) : option jsstring :=
  let disciplinaLower := Str.trim (Str.toLowerCase disciplina) in
  match nivelEscolar with
  | None =>
      if inList disciplinasEspecificasMedio disciplinaLower
      then lookup_key MAPEAMENTO_MEDIO disciplinaLower
      else lookup_key MAPEAMENTO_FUNDAMENTAL disciplinaLower
  | Some medio => lookup_key MAPEAMENTO_MEDIO disciplinaLower
  | Some fundamental => lookup_key MAPEAMENTO_FUNDAMENTAL disciplinaLower
  end.

(** [/(\d+)[ºª°]?\s*(ano|série|serie)/i] *)
Definition reAnoSerie : Re.regex :=
  Re.Seq (Re.Group 1 (Re.Plus Re.digit))
    (Re.Seq (Re.Opt (Re.Chr (Re.classi
               (fun c => (c =? 186)%N || (c =? 170)%N || (c =? 176)%N))))
       (Re.Seq (Re.Star Re.space)
          (Re.Group 2
             (Re.Alt (Re.word true (js "ano"))
                (Re.Alt (Re.word true (js "série"))
                   (Re.word true (js "serie"))))))).

(** [/\d+/] and [/(\d+)/] *)
Definition reNumero : Re.regex := Re.Group 1 (Re.Plus Re.digit).

(** [match[g]] of a successful match, as a string. *)
Definition grp (g : nat) (f : Re.found) : jsstring :=
  default [] (Re.group g (Re.groups f)).

(** [extrairNumeroAno(serie)]; [None] is [null].  Group 1 is a non-empty run
    of digits, so [parseInt] never yields NaN here. *)
Definition extrairNumeroAno (serie : jsstring) : option Z :=
  match Re.match1 reAnoSerie serie with
  | Some m => Str.parseInt (grp 1 m)
  | None =>
      match Re.match1 reNumero serie with
      | Some numeroMatch =>
          match Str.parseInt (Re.matched serie numeroMatch) with
          | Some num => if (1 <=? num) && (num <=? 9) then Some num else None
          | None => None
          end
      | None => None
      end
  end.

(** [detectarNivelEscolar(serie)]. *)
Definition detectarNivelEscolar (serie : jsstring) : NivelEscolar :=
  let serieUpper := Str.toUpperCase serie in
  if Str.includes serieUpper (js "SÉRIE") || Str.includes serieUpper (js "SERIE")
  then medio
  else fundamental.

(** [validarHabilidadeNivel(codigo, nivelEscolar)]. *)
Definition validarHabilidadeNivel (codigo : jsstring)
  (nivelEscolar : NivelEscolar) : bool :=
  match nivelEscolar with
  | medio => Str.startsWith codigo (js "EM")
  | fundamental => Str.startsWith codigo (js "EF")
  end.

(** [/^EF(\d{2})/] *)
Definition reEFAno : Re.regex :=
  Re.Seq Re.Bol
    (Re.Seq (Re.word false (js "EF"))
       (Re.Group 1 (Re.Seq Re.digit Re.digit))).

(** [s[i]] as a one-unit string (empty when out of range). *)
Definition charAt (s : jsstring) (i : nat) : jsstring := take 1 (drop i s).

(** [validarHabilidadeAno(codigo, anoEsperado)].  The digits are numbers or
    NaN ([None]); every comparison with NaN is false. *)
Definition validarHabilidadeAno (codigo : jsstring) (anoEsperado : option Z)
  : bool :=
  match anoEsperado with
  | None => true
  | Some ano =>
      if Str.startsWith codigo (js "EM") then true
      else
        match Re.match1 reEFAno codigo with
        | None => true
        | Some m =>
            let digitos := grp 1 m in
            let d1 := Str.parseInt (charAt digitos 0) in
            let d2 := Str.parseInt (charAt digitos 1) in
            if bool_decide (d1 = Some 0) then
              match d2 with
              | Some d2 => Z.abs (d2 - ano) <=? 1
              | None => false
              end
            else
              match d1, d2 with
              | Some d1, Some d2 =>
                  if (d1 <=? ano) && (ano <=? d2) then true else false
              | _, _ => false
              end
        end
  end.

(** [/^(EF|EM)\d{2}([A-Z]{2,3})\d{2,3}$/] *)
Definition reCodigoArea : Re.regex :=
  Re.Seq Re.Bol
    (Re.Seq (Re.Group 1 (Re.Alt (Re.word false (js "EF"))
                                (Re.word false (js "EM"))))
       (Re.Seq (Re.Seq Re.digit Re.digit)
          (Re.Seq (Re.Group 2 (Re.Seq (Re.upper false)
                                 (Re.Seq (Re.upper false)
                                    (Re.Opt (Re.upper false)))))
             (Re.Seq (Re.Seq Re.digit (Re.Seq Re.digit (Re.Opt Re.digit)))
                Re.Eol)))).

Definition mapeamentoFundamentalParaArea : list (jsstring * jsstring) := table
  [ ("HI", "CHS"); ("GE", "CHS"); ("LP", "LGG"); ("AR", "LGG"); ("EF", "LGG");
    ("LI", "LGG"); ("MA", "MAT"); ("CI", "CNT") ]%string.

(** [!s] for a string or [null]: absent or empty. *)
Definition falsy (s : option jsstring) : bool :=
  match s with
  | None | Some [] => true
  | Some (_ :: _) => false
  end.

(** [validarHabilidadeArea(codigo, areaEsperada)]. *)
Definition validarHabilidadeArea (codigo : jsstring)
  (areaEsperada : option jsstring) : bool :=
  match areaEsperada with
  | None | Some [] => true
  | Some areaEsperada =>
      match Re.match1 reCodigoArea codigo with
      | None => false
      | Some m =>
          let codigoDisciplina := grp 2 m in
          if (length areaEsperada =? 2)%nat then
            bool_decide (codigoDisciplina = areaEsperada)
          else if (length areaEsperada =? 3)%nat
                  && Str.startsWith codigo (js "EM") then
            bool_decide (codigoDisciplina = areaEsperada)
          else
            let areaGeralFundamental :=
              lookup_key mapeamentoFundamentalParaArea codigoDisciplina in
            bool_decide (areaGeralFundamental = Some areaEsperada)
      end
  end.

(** The TypeScript revision of the grade check (the validators kept next to
    the controller source): the grade is always the first of the two digits. *)
Module TsRevision.

Definition extrairAnoDaHabilidade (codigo : jsstring) : option Z :=
  if negb (Str.startsWith codigo (js "EF")) then None
  else
    match Re.match1 reEFAno codigo with
    | None => None
    | Some m =>
        let digitos := grp 1 m in
        let primeiroDigito := Str.parseInt (charAt digitos 0) in
        if bool_decide (charAt digitos 0 = charAt digitos 1)
        then primeiroDigito
        else primeiroDigito
    end.

Definition validarHabilidadeAno (codigo : jsstring) (anoEsperado : option Z)
  : bool :=
  match anoEsperado with
  | None => true
  | Some ano =>
      if Str.startsWith codigo (js "EM") then true
      else
        match extrairAnoDaHabilidade codigo with
        | None => true
        | Some anoHabilidade => Z.abs (anoHabilidade - ano) <=? 1
        end
  end.

End TsRevision.

(** ** Retrieved passages ([types]) *)

Record Metadata : Type := { page_number : option Z }.
Record NodeData : Type := { text : option jsstring; metadata : option Metadata }.
Record RAGNode : Type := { node : option NodeData; score : option Q }.

(** A node after scoring: the fields of the node and the four added ones. *)
Record EnrichedNode : Type := {
  raw : RAGNode;
  matchCount : Z;
  penalizacaoNivel : Z;
  boostedScore : Q;
  nivelCorreto : bool
}.

Record Habilidade : Type := { codigo : jsstring; descricao : jsstring }.

(** [node.node?.text] and [node.node?.metadata?.page_number]. *)
Definition nodeText (n : RAGNode) : option jsstring :=
  match node n with
  | Some d => text d
  | None => None
  end.

Definition nodePage (n : RAGNode) : option Z :=
  match node n with
  | Some d =>
      match metadata d with
      | Some md => page_number md
      | None => None
      end
  | None => None
  end.

(** ** Relevance filter ([utils/filters]) *)

Module PONTUACAO.
Definition BOOST_HABILIDADE_NIVEL_CORRETO : Z := 5.
Definition BOOST_HABILIDADE_AREA_CORRETA : Z := 10.
Definition BOOST_HABILIDADE_ANO_CORRETO : Z := 8.
Definition BOOST_MENCIONOU_NIVEL_CORRETO : Z := 4.
Definition BOOST_DISCIPLINA : Z := 3.
Definition BOOST_SERIE : Z := 2.
Definition BOOST_TEMA_EXATO : Z := 80.
Definition BOOST_TEMA_PARCIAL : Z := 10.
Definition PENALIDADE_HABILIDADE_NIVEL_ERRADO : Z := -50.
Definition PENALIDADE_HABILIDADE_AREA_ERRADA : Z := -40.
Definition PENALIDADE_HABILIDADE_ANO_ERRADO : Z := -35.
Definition PENALIDADE_MENCIONOU_NIVEL_ERRADO : Z := -20.
End PONTUACAO.

(** [/(EF\d{2}[A-Z]{2}\d{2}|EM\d{2}[A-Z]{3}\d{2,3})/g], with the [i] flag
    when [ci] is set. *)
Definition regexHabilidades (ci : bool) : Re.regex :=
  Re.Group 1
    (Re.Alt
       (Re.Seq (Re.word ci (js "EF"))
          (Re.Seq (Re.Seq Re.digit Re.digit)
             (Re.Seq (Re.Seq (Re.upper ci) (Re.upper ci))
                (Re.Seq Re.digit Re.digit))))
       (Re.Seq (Re.word ci (js "EM"))
          (Re.Seq (Re.Seq Re.digit Re.digit)
             (Re.Seq (Re.Seq (Re.upper ci) (Re.Seq (Re.upper ci) (Re.upper ci)))
                (Re.Seq Re.digit (Re.Seq Re.digit (Re.Opt Re.digit))))))).

(** The two running totals of the scoring loop. *)
Record Scores : Type := { boostScore : Z; penaltyScore : Z }.

Definition boost (b : Z) (sc : Scores) : Scores :=
  {| boostScore := boostScore sc + b; penaltyScore := penaltyScore sc |}.
Definition penalize (p : Z) (sc : Scores) : Scores :=
  {| boostScore := boostScore sc; penaltyScore := penaltyScore sc + p |}.

(** The terms that name the expected level and the other one. *)
Definition palavraNivelCorreto (nivelEscolar : NivelEscolar) : jsstring :=
  match nivelEscolar with
  | medio => js "ensino médio"
  | fundamental => js "ensino fundamental"
  end.

Definition palavrasNivelErrado (nivelEscolar : NivelEscolar) : list jsstring :=
  match nivelEscolar with
  | medio =>
      List.map js ["ensino fundamental"; "anos iniciais"; "anos finais";
                   "fundamental ii"]%string
  | fundamental => List.map js ["ensino médio"; "ensino medio"]%string
  end.

Definition palavrasExcecao : list jsstring :=
  List.map js ["to"; "be"; "fé"; "up"; "on"; "in"; "at"; "by"; "of"]%string.

(** Step 4 of the scoring loop, for one code found in the text. *)
Definition pontuarCodigo (nivelEscolar : NivelEscolar) (anoEsperado : option Z)
  (areaBNCC : option jsstring) (sc : Scores) (codigo : jsstring) : Scores :=
  let codigoUpper := Str.toUpperCase codigo in
  if validarHabilidadeNivel codigoUpper nivelEscolar then
    let sc := boost PONTUACAO.BOOST_HABILIDADE_NIVEL_CORRETO sc in
    let sc :=
      if bool_decide (anoEsperado <> None)
         && bool_decide (nivelEscolar = fundamental) then
        if validarHabilidadeAno codigoUpper anoEsperado
        then boost PONTUACAO.BOOST_HABILIDADE_ANO_CORRETO sc
        else penalize PONTUACAO.PENALIDADE_HABILIDADE_ANO_ERRADO sc
      else sc in
    if negb (falsy areaBNCC) then
      if validarHabilidadeArea codigoUpper areaBNCC
      then boost PONTUACAO.BOOST_HABILIDADE_AREA_CORRETA sc
      else penalize PONTUACAO.PENALIDADE_HABILIDADE_AREA_ERRADA sc
    else sc
  else penalize PONTUACAO.PENALIDADE_HABILIDADE_NIVEL_ERRADO sc.

(** [node.node?.text?.toLowerCase() || ''] *)
Definition textoMinusculo (n : RAGNode) : jsstring :=
  Str.toLowerCase (default [] (nodeText n)).

(** [texto.match(regexHabilidades) || []] on the lower-cased text. *)
Definition codigosEncontrados (texto : jsstring) : list jsstring :=
  Re.matchAll (regexHabilidades true) texto.

(** The body of [nodes.map(...)]: the scores of one node. *)
Definition pontuar (tema disciplina serie : jsstring)
  (areaBNCC : option jsstring) (n : RAGNode) : Scores :=
  let nivelEscolar := detectarNivelEscolar serie in
  let anoEsperado := extrairNumeroAno serie in
  let texto := textoMinusculo n in
  let temaLower := Str.trim (Str.toLowerCase tema) in
  let sc := {| boostScore := 0; penaltyScore := 0 |} in
  let sc :=
    if Str.includes texto temaLower
    then boost PONTUACAO.BOOST_TEMA_EXATO sc else sc in
  let palavrasChaveTema :=
    List.filter
      (fun p => (2 <? length p)%nat || inList palavrasExcecao p)
      (Str.split 32 temaLower) in
  let sc :=
    fold_left
      (fun sc palavra =>
         if Str.includes texto palavra
         then boost PONTUACAO.BOOST_TEMA_PARCIAL sc else sc)
      palavrasChaveTema sc in
  let sc :=
    if Str.includes texto (Str.toLowerCase disciplina)
    then boost PONTUACAO.BOOST_DISCIPLINA sc else sc in
  let sc :=
    match Re.match1 reNumero serie with
    | Some anoMatch =>
        if Str.includes texto (grp 1 anoMatch)
        then boost PONTUACAO.BOOST_SERIE sc else sc
    | None => sc
    end in
  let sc :=
    fold_left (pontuarCodigo nivelEscolar anoEsperado areaBNCC)
      (codigosEncontrados texto) sc in
  let sc :=
    if Str.includes texto (palavraNivelCorreto nivelEscolar)
    then boost PONTUACAO.BOOST_MENCIONOU_NIVEL_CORRETO sc else sc in
  fold_left
    (fun sc palavraErrada =>
       if Str.includes texto palavraErrada
       then penalize PONTUACAO.PENALIDADE_MENCIONOU_NIVEL_ERRADO sc else sc)
    (palavrasNivelErrado nivelEscolar) sc.

Definition enriquecer (tema disciplina serie : jsstring)
  (areaBNCC : option jsstring) (n : RAGNode) : EnrichedNode :=
  let sc := pontuar tema disciplina serie areaBNCC n in
  let texto := textoMinusculo n in
  {| raw := n;
     matchCount := boostScore sc;
     penalizacaoNivel := penaltyScore sc;
     boostedScore :=
       (default 0 (score n) * 100 + inject_Z (boostScore sc)
        + inject_Z (penaltyScore sc))%Q;
     nivelCorreto :=
       (0 <=? penaltyScore sc)
       || (length (codigosEncontrados texto) =? 0)%nat |}.

(** The predicate of [enrichedNodes.filter(...)]. *)
Definition manter (n : EnrichedNode) : bool :=
  if penalizacaoNivel n <? -30 then false
  else (0 <? matchCount n) || nivelCorreto n.

(** [arr.sort(cmp)]: a stable sort; [x] goes before [y] unless
    [cmp x y > 0]. *)
Fixpoint inserir {A : Type} (cmp : A -> A -> Q) (x : A) (l : list A) : list A :=
  match l with
  | [] => [x]
  | y :: l' =>
      if Qlt_le_dec 0 (cmp x y) then y :: inserir cmp x l' else x :: y :: l'
  end.

Definition ordenar {A : Type} (cmp : A -> A -> Q) (l : list A) : list A :=
  List.fold_right (inserir cmp) [] l.

(** [filtrarNodesPorRelevancia(nodes, tema, disciplina, serie, areaBNCC)]. *)
Definition filtrarNodesPorRelevancia (nodes : list RAGNode)
  (tema disciplina serie : jsstring) (areaBNCC : option jsstring)
  : list EnrichedNode :=
  let enrichedNodes := List.map (enriquecer tema disciplina serie areaBNCC) nodes in
  let nosFiltrados := List.filter manter enrichedNodes in
  ordenar (fun a b => (boostedScore b - boostedScore a)%Q) nosFiltrados.

(** ** Skill extraction ([utils/filters]) *)

(** A JavaScript [Map] from code to description: entries in insertion order,
    one entry per key; [set] on a present key replaces the value in place. *)
Abbreviation mapa := (list (jsstring * jsstring)).

Fixpoint mapGet (h : mapa) (k : jsstring) : option jsstring :=
  match h with
  | [] => None
  | (k', v) :: h' => if bool_decide (k' = k) then Some v else mapGet h' k
  end.

Definition mapHas (h : mapa) (k : jsstring) : bool :=
  match mapGet h k with
  | Some _ => true
  | None => false
  end.

Fixpoint mapSet (h : mapa) (k v : jsstring) : mapa :=
  match h with
  | [] => [(k, v)]
  | (k', v') :: h' =>
      if bool_decide (k' = k) then (k, v) :: h' else (k', v') :: mapSet h' k v
  end.

(** [/^\s*[-–—):\s]+/] *)
Definition reMarcador : Re.regex :=
  Re.Seq Re.Bol
    (Re.Seq (Re.Star Re.space)
       (Re.Plus
          (Re.Chr (fun c =>
             (c =? 45)%N || (c =? 8211)%N || (c =? 8212)%N || (c =? 41)%N
             || (c =? 58)%N || Str.isWhite c)))).

(** The body of the [while] loop up to the size limit: the code matched and
    the description that follows it. *)
Definition capturar (texto : jsstring) (m : Re.found) : jsstring * jsstring :=
  let codigo := Re.matched texto m in
  let inicioDescricao := (Re.index m + length codigo)%nat in
  let fimDescricao :=
    match Str.indexOf texto 10 inicioDescricao with
    | Some i => i
    | None => length texto
    end in
  let textoAteFimLinha := Str.substring texto inicioDescricao fimDescricao in
  let fimDescricao :=
    match Re.search (regexHabilidades false) textoAteFimLinha with
    | Some proximoCodigoMatch => (inicioDescricao + proximoCodigoMatch)%nat
    | None => fimDescricao
    end in
  let descricao :=
    Str.trim
      (Re.remove1 reMarcador
         (Str.substring texto inicioDescricao fimDescricao)) in
  let descricao :=
    if (200 <? length descricao)%nat
    then Str.substring descricao 0 200 ++ js "..."
    else descricao in
  (codigo, descricao).

(** The end of the loop body: the update of the map. *)
Definition registrar (habilidades : mapa) (cd : jsstring * jsstring) : mapa :=
  let '(codigo, descricao) := cd in
  if (10 <? length descricao)%nat then
    if negb (mapHas habilidades codigo)
       || (length (default [] (mapGet habilidades codigo))
           <? length descricao)%nat
    then mapSet habilidades codigo descricao
    else habilidades
  else habilidades.

(** [while ((match = regex.exec(texto)) !== null) { ... }]: the global
    regex resumes at [lastIndex], the end of the previous match.  [fuel]
    bounds the number of iterations. *)
Fixpoint percorrer (fuel : nat) (texto : jsstring) (lastIndex : nat)
  (habilidades : mapa) : mapa :=
  match fuel with
  | O => habilidades
  | S fuel' =>
      match Re.exec (regexHabilidades false) texto lastIndex with
      | None => habilidades
      | Some m =>
          percorrer fuel' texto (Re.stop m)
            (registrar habilidades (capturar texto m))
      end
  end.

(** The predicate of [todasHabilidades.filter(...)]. *)
Definition habilidadeValida (nivelEscolar : NivelEscolar)
  (areaBNCC : option jsstring) (anoEsperado : option Z)
  (entrada : jsstring * jsstring) : bool :=
  let codigo := fst entrada in
  let nivelValido := validarHabilidadeNivel codigo nivelEscolar in
  let areaValida := falsy areaBNCC || validarHabilidadeArea codigo areaBNCC in
  let anoValido :=
    bool_decide (anoEsperado = None) || bool_decide (anoEsperado = Some 0)
    || validarHabilidadeAno codigo anoEsperado in
  nivelValido && areaValida && anoValido.

(** The map built by the loop over all nodes. *)
Definition coletar (nodes : list EnrichedNode) : mapa :=
  fold_left
    (fun habilidades n =>
       let texto := default [] (nodeText (raw n)) in
       percorrer (S (length texto)) texto 0 habilidades)
    nodes [].

(** [extrairHabilidadesBNCC(nodes, nivelEscolar, areaBNCC, anoEsperado)]. *)
Definition extrairHabilidadesBNCC (nodes : list EnrichedNode)
  (nivelEscolar : NivelEscolar) (areaBNCC : option jsstring)
  (anoEsperado : option Z) : list Habilidade :=
  let todasHabilidades := coletar nodes in
  let habilidadesFiltradas :=
    List.filter (habilidadeValida nivelEscolar areaBNCC anoEsperado)
      todasHabilidades in
  List.map (fun e => {| codigo := fst e; descricao := snd e |})
    (take 15 habilidadesFiltradas).

(** ** Page deduplication ([utils/filters]) *)

(** The state of the loop: the nodes kept so far and the pages seen. *)
Record Unicos : Type := { uniqueNodes : list EnrichedNode; seenPages : gset Z }.

(** One iteration; a page that is [undefined] or [0] is falsy. *)
Definition visitar (maxNodes : Z) (st : Unicos) (n : EnrichedNode) : Unicos :=
  match nodePage (raw n) with
  | Some page =>
      if negb (page =? 0)
         && negb (bool_decide (page ∈ seenPages st))
         && (Z.of_nat (length (uniqueNodes st)) <? maxNodes)
      then {| uniqueNodes := uniqueNodes st ++ [n];
              seenPages := {[ page ]} ∪ seenPages st |}
      else st
  | None => st
  end.

(** [removerNodesDuplicados(nodes, maxNodes)]. *)
Definition removerNodesDuplicados (nodes : list EnrichedNode) (maxNodes : Z)
  : list EnrichedNode :=
  uniqueNodes
    (fold_left (visitar maxNodes) nodes
       {| uniqueNodes := []; seenPages := ∅ |}).

(** ** Multi-query aggregation ([services/rag.service]) *)

(** A call either returns or throws. *)
Inductive outcome (A : Type) : Type :=
| Returned : A -> outcome A
| Thrown : outcome A.
Arguments Returned {A} _.
Arguments Thrown {A}.

Record RAGQueryResult : Type := {
  qr_response : jsstring;
  qr_sourceNodes : option (list RAGNode)
}.

(** The query engine: what the [i]-th call of [engine.query] does. *)
Definition Engine : Type := nat -> jsstring -> outcome RAGQueryResult.

Record QueryRun : Type := {
  run_query : jsstring;
  run_response : jsstring;
  run_nodes : list RAGNode
}.

Record MultiQueryResult : Type := {
  response : jsstring;
  sourceNodes : list EnrichedNode;
  queries : list jsstring;
  habilidades : list Habilidade
}.

(** Template strings: the parts joined by single spaces. *)
Definition frase (partes : list jsstring) : jsstring := Str.join [32%N] partes.

(** The planned queries. *)
Definition planejarQueries (tema disciplina serie anoSerie : jsstring)
  (nivelEscolar : NivelEscolar) (areaBNCC : option jsstring)
  (anoEsperado : option Z) : list jsstring :=
  match nivelEscolar, falsy areaBNCC, anoEsperado with
  | medio, false, _ =>
      let area := default [] areaBNCC in
      [ frase [anoSerie; serie; area; disciplina; tema;
               js "habilidades competências"];
        frase [js "Ensino Médio"; area; tema; js "objetos conhecimento"];
        frase [js "EM13" ++ area; disciplina; tema] ]
  | fundamental, false, Some ano =>
      let area := default [] areaBNCC in
      let codigoAno := Str.padStart (Str.toString ano) 2 48 in
      [ frase [serie; disciplina; tema;
               js "habilidades EF" ++ codigoAno ++ area];
        frase [js "EF" ++ codigoAno ++ area; disciplina; tema];
        frase [Str.toString ano ++ js "º ano"; disciplina; tema;
               js "objetos conhecimento"];
        frase [tema; js "EF" ++ codigoAno ++ area];
        if Str.includes (Str.toLowerCase disciplina) (js "ingl")
        then tema else frase [tema; js "BNCC"] ]
  | _, _, _ =>
      [ frase [anoSerie; serie; disciplina; tema; js "habilidades"];
        frase [anoSerie; disciplina; serie; tema; js "objetos conhecimento"];
        frase [anoSerie; disciplina; js "competências"; tema; serie] ]
  end.

(** The [for] loop with its [try]/[catch]: a query that throws adds nothing
    to [results]. *)
Fixpoint executar (engine : Engine) (i : nat) (qs : list jsstring)
  (results : list QueryRun) : list QueryRun :=
  match qs with
  | [] => results
  | q :: qs' =>
      match engine i q with
      | Returned r =>
          executar engine (S i) qs'
            (results ++ [{| run_query := q;
                            run_response := qr_response r;
                            run_nodes := default [] (qr_sourceNodes r) |}])
      | Thrown => executar engine (S i) qs' results
      end
  end.

(** [consultarBNCC(tema, disciplina, serie, anoSerie)].  [engine] is the
    outcome of [initializeQueryEngine()], which throws when the index cannot
    be loaded. *)
Definition consultarBNCC (engine : outcome Engine)
  (tema disciplina serie anoSerie : jsstring) : outcome MultiQueryResult :=
  match engine with
  | Thrown => Thrown
  | Returned engine =>
      let nivelEscolar := detectarNivelEscolar serie in
      let areaBNCC := detectarAreaBNCC disciplina (Some nivelEscolar) in
      let anoEsperado := extrairNumeroAno serie in
      let queries :=
        planejarQueries tema disciplina serie anoSerie nivelEscolar areaBNCC
          anoEsperado in
      let results := executar engine 0 queries [] in
      let allNodes := flat_map run_nodes results in
      let nodesFiltrados :=
        filtrarNodesPorRelevancia allNodes tema disciplina serie areaBNCC in
      let uniqueNodes := removerNodesDuplicados nodesFiltrados 10 in
      let combinedResponse :=
        Str.join [10%N; 10%N] (List.map run_response results) in
      let habilidades :=
        extrairHabilidadesBNCC uniqueNodes nivelEscolar areaBNCC anoEsperado in
      Returned {| response := combinedResponse;
                  sourceNodes := uniqueNodes;
                  queries := queries;
                  habilidades := habilidades |}
  end.

(** ** Final validation ([controllers/context.controller]) *)

(** [bnccResponse.habilidades.filter(h => validarHabilidadeNivel(h.codigo,
    nivelEscolar))]. *)
Definition habilidadesValidas (hs : list Habilidade)
  (nivelEscolar : NivelEscolar) : list Habilidade :=
  List.filter (fun h => validarHabilidadeNivel (codigo h) nivelEscolar) hs.

(** ** Notions used in the statements *)

(** The structural grammar of a code, read off its description: prefix EF
    or EM, two digits, [nLetras] upper-case letters, [nSeq] digits. *)
Definition formaCodigo (codigo : jsstring) (nLetras nSeq : nat) : bool :=
  let prefixo := take 2 codigo in
  let ano := take 2 (drop 2 codigo) in
  let letras := take nLetras (drop 4 codigo) in
  let seq := drop (4 + nLetras) codigo in
  (bool_decide (prefixo = js "EF") || bool_decide (prefixo = js "EM"))
  && (length ano =? 2)%nat && forallb Str.isDigit ano
  && (length letras =? nLetras)%nat && forallb (Re.range 65 90) letras
  && (length seq =? nSeq)%nat && forallb Str.isDigit seq.

(** Two or three letters, two or three trailing digits. *)
Definition codigoBemFormado (codigo : jsstring) : bool :=
  formaCodigo codigo 2 2 || formaCodigo codigo 2 3
  || formaCodigo codigo 3 2 || formaCodigo codigo 3 3.

(** The code starts with EF and two digits: its grade can be parsed. *)
Definition prefixoEFAno (codigo : jsstring) : bool :=
  match codigo with
  | 69%N :: 70%N :: d1 :: d2 :: _ => Str.isDigit d1 && Str.isDigit d2
  | _ => false
  end.

(** The source locations of a list of passages. *)
Definition paginas (l : list EnrichedNode) : list (option Z) :=
  List.map (fun n => nodePage (raw n)) l.

(** The passage has a source location the deduplicator can use. *)
Definition paginaResolvida (n : EnrichedNode) : bool :=
  match nodePage (raw n) with
  | Some page => negb (page =? 0)
  | None => false
  end.

(** The invariant of the deduplication loop. *)
Definition unicos_ok (maxNodes : Z) (st : Unicos) : Prop :=
  NoDup (paginas (uniqueNodes st))
  /\ Forall (fun n => paginaResolvida n = true
                      /\ exists page, nodePage (raw n) = Some page
                                      /\ page ∈ seenPages st)
       (uniqueNodes st)
  /\ Z.of_nat (length (uniqueNodes st)) <= Z.max 0 maxNodes.

(** Every (code, description) pair the extraction loop computes on a text,
    in order, whether or not it ends up in the map. *)
Fixpoint capturas (fuel : nat) (texto : jsstring) (lastIndex : nat)
  : list (jsstring * jsstring) :=
  match fuel with
  | O => []
  | S fuel' =>
      match Re.exec (regexHabilidades false) texto lastIndex with
      | None => []
      | Some m => capturar texto m :: capturas fuel' texto (Re.stop m)
      end
  end.

Definition todasCapturas (nodes : list EnrichedNode)
  : list (jsstring * jsstring) :=
  flat_map
    (fun n =>
       let texto := default [] (nodeText (raw n)) in
       capturas (S (length texto)) texto 0)
    nodes.

(** The text captured after a code, cleaned, as the loop body has it just
    before the size limit: the rest of the line or the stretch up to the
    next code, without the leading list marker, trimmed. *)
Definition descricaoCapturada (texto : jsstring) (m : Re.found) : jsstring :=
  let codigo := Re.matched texto m in
  let inicioDescricao := (Re.index m + length codigo)%nat in
  let fimDescricao :=
    match Str.indexOf texto 10 inicioDescricao with
    | Some i => i
    | None => length texto
    end in
  let textoAteFimLinha := Str.substring texto inicioDescricao fimDescricao in
  let fimDescricao :=
    match Re.search (regexHabilidades false) textoAteFimLinha with
    | Some proximoCodigoMatch => (inicioDescricao + proximoCodigoMatch)%nat
    | None => fimDescricao
    end in
  Str.trim
    (Re.remove1 reMarcador
       (Str.substring texto inicioDescricao fimDescricao)).

(** The description returned for a captured text [d]. *)
Definition descricaoDe (d : jsstring) : jsstring :=
  if (200 <? length d)%nat then take 200 d ++ js "..." else d.

(** The invariant of the merge by code; [seen] are the captures processed
    so far. *)
Definition mapa_ok (h : mapa) (seen : list (jsstring * jsstring)) : Prop :=
  NoDup h.*1
  /\ (forall k v, mapGet h k = Some v -> (k, v) ∈ seen /\ (10 < length v)%nat)
  /\ (forall k d, (k, d) ∈ seen ->
        (length d <= 10)%nat
        \/ exists v, mapGet h k = Some v /\ (length d <= length v)%nat).

(** What the [i]-th planned query contributes to the aggregate. *)
Definition nodesDaQuery (engine : Engine) (i : nat) (q : jsstring)
  : list RAGNode :=
  match engine i q with
  | Returned r => default [] (qr_sourceNodes r)
  | Thrown => []
  end.

Definition agregados (engine : Engine) (qs : list jsstring) : list RAGNode :=
  concat (imap (nodesDaQuery engine) qs).

(** The stage marker, with and without its accent. *)
Definition marcadores : list jsstring := [js "série"; js "serie"].

(** [s] contains [m], letter case ignored. *)
Definition contemIgnorandoCaixa (s m : jsstring) : bool :=
  Str.includes (Str.toUpperCase s) (Str.toUpperCase m).

Definition contemMarcador (serie : jsstring) : bool :=
  existsb (contemIgnorandoCaixa serie) marcadores.

Definition umDe (l : list N) (c : N) : bool := existsb (N.eqb c) l.

(** The 64 spellings of the marker: each letter in either case, the second
    one with or without the acute accent. *)
Definition grafiaSerie (w : jsstring) : bool :=
  match w with
  | [c1; c2; c3; c4; c5] =>
      umDe [115; 83]%N c1 && umDe [101; 69; 233; 201]%N c2
      && umDe [114; 82]%N c3 && umDe [105; 73]%N c4 && umDe [101; 69]%N c5
  | _ => false
  end.

(** A unit of the Latin-1 range other than the sharp s: its upper-case
    image is a single unit. *)
Definition unitSimples (c : N) : bool := (c <=? 255)%N && negb (c =? 223)%N.

Definition latin1 : list N := List.map N.of_nat (seq 0 256).

(** The upper-case image of [c] is one unit, and it is a letter of the
    marker only if [c] is that letter in one of its two cases. *)
Definition upperCheck (c : N) : bool :=
  match Str.toUpperUnit c with
  | [u] =>
      implb (u =? 83)%N (umDe [115; 83]%N c)
      && implb (u =? 69)%N (umDe [101; 69]%N c)
      && implb (u =? 201)%N (umDe [233; 201]%N c)
      && implb (u =? 82)%N (umDe [114; 82]%N c)
      && implb (u =? 73)%N (umDe [105; 73]%N c)
  | _ => false
  end.

(** A window of the label spells a word letter by letter: the [i]-th unit
    is one of the [i]-th class.  [janela] is to a list of classes what
    [startsWith] is to a word, [contemJanela] what [includes] is. *)
Fixpoint janela (classes : list (list N)) (s : jsstring) {struct classes}
  : bool :=
  match classes, s with
  | [], _ => true
  | _ :: _, [] => false
  | cl :: classes', c :: s' => umDe cl c && janela classes' s'
  end.

Fixpoint contemJanela (classes : list (list N)) (s : jsstring) : bool :=
  janela classes s ||
  match s with
  | [] => false
  | _ :: s' => contemJanela classes s'
  end.

(** The letters of the 64 spellings of the marker, position by position
    (s S, e E é É, r R, i I, e E). *)
Definition letrasSerie : list (list N) :=
  [[115; 83]; [101; 69; 233; 201]; [114; 82]; [105; 73]; [101; 69]]%N.

(** The units that upper-casing turns into the letters of the marker:
    besides the letters themselves, the long s (U+017F) and the sharp s,
    whose image SS ends in S, for the first letter, and the dotless i
    (U+0131) for the fourth. *)
Definition unidadesSerie : list (list N) :=
  [[115; 83; 383; 223]; [101; 69; 233; 201]; [114; 82]; [105; 73; 305];
   [101; 69]]%N.

(** Sample passages and engines. *)
Definition trecho (t : string) : RAGNode :=
  {| node := Some {| text := Some (js t); metadata := None |}; score := None |}.

Definition passagem (t : jsstring) (pg : option Z) : EnrichedNode :=
  {| raw := {| node := Some {| text := Some t;
                               metadata := Some {| page_number := pg |} |};
               score := None |};
     matchCount := 0; penalizacaoNivel := 0; boostedScore := 0;
     nivelCorreto := true |}.

Definition trechoNivelErrado : RAGNode :=
  trecho "EF09GE01 - Guerra Fria e a ordem mundial".

Definition passagensRepetidas : list EnrichedNode :=
  [passagem (js "a") (Some 3); passagem (js "b") (Some 3);
   passagem (js "c") None; passagem (js "d") (Some 0);
   passagem (js "e") (Some 4); passagem (js "f") (Some 5)].

Definition passagemLonga : EnrichedNode :=
  passagem (js "EF09HI28 " ++ replicate 201 97%N) (Some 1).

Definition engineFalho : Engine := fun _ _ => Thrown.

(** ** Further validators and notions *)

(** [extrairAnoDaHabilidade(codigo)] of the current validators: the second
    digit of a single-grade code, the first digit of a range.  A digit that
    does not parse is NaN ([None]), as is [null]. *)
Definition extrairAnoDaHabilidade (codigo : jsstring) : option Z :=
  if negb (Str.startsWith codigo (js "EF")) then None
  else
    match Re.match1 reEFAno codigo with
    | None => None
    | Some m =>
        let digitos := grp 1 m in
        let d1 := Str.parseInt (charAt digitos 0) in
        let d2 := Str.parseInt (charAt digitos 1) in
        if bool_decide (d1 = Some 0) then d2 else d1
    end.

(** [obterDescricaoNivelEscolar(serie)]. *)
Definition obterDescricaoNivelEscolar (serie : jsstring) : jsstring :=
  match detectarNivelEscolar serie with
  | medio => js "Ensino médio"
  | fundamental => js "Ensino fundamental"
  end.

(** A code as the extractor's pattern finds it: EF, two digits, two letters,
    two digits; or EM, two digits, three letters, two or three digits. *)
Definition codigoHabilidade (codigo : jsstring) : bool :=
  (Str.startsWith codigo (js "EF") && formaCodigo codigo 2 2)
  || (Str.startsWith codigo (js "EM")
      && (formaCodigo codigo 3 2 || formaCodigo codigo 3 3)).

(** The area letters of such a code. *)
Definition letrasDoCodigo (codigo : jsstring) : jsstring :=
  take (if Str.startsWith codigo (js "EM") then 3 else 2)%nat (drop 4 codigo).

(** The area codes of the two levels. *)
Definition areasMedio : list jsstring :=
  List.map js ["CHS"; "LGG"; "MAT"; "CNT"]%string.

Definition areasFundamental : list jsstring :=
  List.map js ["HI"; "GE"; "LP"; "AR"; "EF"; "LI"; "MA"; "CI"]%string.

(** The names of the properties that a literal object inherits from
    [Object.prototype]: [obj[key]] finds a function or an object under
    them, which [lookup_key] does not model. *)
Definition propriedadesHerdadas : list jsstring :=
  List.map js
    ["constructor"; "__defineGetter__"; "__defineSetter__"; "hasOwnProperty";
     "__lookupGetter__"; "__lookupSetter__"; "isPrototypeOf";
     "propertyIsEnumerable"; "toString"; "valueOf"; "__proto__";
     "toLocaleString"]%string.

(** The label has no decimal digit. *)
Definition semDigitos (s : jsstring) : bool :=
  forallb (fun c => negb (Str.isDigit c)) s.

(** [a] may stand before [b] in the ranking: its score is not lower. *)
Definition naoMenor (a b : EnrichedNode) : Prop :=
  (boostedScore b <= boostedScore a)%Q.

(** A code found in a passage passes every check the scoring loop applies to
    it: the level, the grade when one is expected on the fundamental level,
    and the area when one was identified. *)
Definition codigoAceito (nivelEscolar : NivelEscolar) (anoEsperado : option Z)
  (areaBNCC : option jsstring) (codigo : jsstring) : bool :=
  let codigoUpper := Str.toUpperCase codigo in
  validarHabilidadeNivel codigoUpper nivelEscolar
  && (negb (bool_decide (anoEsperado <> None)
            && bool_decide (nivelEscolar = fundamental))
      || validarHabilidadeAno codigoUpper anoEsperado)
  && (falsy areaBNCC || validarHabilidadeArea codigoUpper areaBNCC).

(** The phrases of the other level that occur in a text. *)
Definition palavrasErradasPresentes (nivelEscolar : NivelEscolar)
  (texto : jsstring) : list jsstring :=
  List.filter (Str.includes texto) (palavrasNivelErrado nivelEscolar).

(** The passages with final score [q]. *)
Definition comScore (q : Q) (l : list EnrichedNode) : list EnrichedNode :=
  List.filter (fun n => Qeq_bool (boostedScore n) q) l.
(** A description without a line feed that neither starts nor ends with
    white space. *)
Definition semBrancoInicial (d : jsstring) : bool :=
  match d with
  | c :: _ => negb (Str.isWhite c)
  | [] => true
  end.

Definition descricaoLimpa (d : jsstring) : bool :=
  forallb (fun c => negb (c =? 10)%N) d
  && semBrancoInicial d && semBrancoInicial (rev d).
(** ** The request handler ([controllers/context.controller]) *)

(** A field of the request body, which is parsed JSON of any shape: absent
    ([undefined] or [null]), a string, or a value of another type (a
    number, a boolean, an array, an object). *)
Inductive Campo : Type :=
| Ausente
| Texto (s : jsstring)
| NaoTexto.

(** [req.body], when there is one, with the three fields the handler
    reads. *)
Record Corpo : Type := {
  campo_tema : Campo;
  campo_disciplina : Campo;
  campo_serie : Campo
}.

(** What the handler sends: the status and, of the body, the error message
    or the generated context, the combined engine response and the page of
    each source.  The formatted score of a source and the echoed request
    with its timestamp are left out. *)
Inductive Resposta (C : Type) : Type :=
| Erro400 (error : jsstring)
| Erro500
| Ok200 (contexto : C) (bnccReferencia : jsstring)
    (fontes : list (option Z)).
Arguments Erro400 {C} _.
Arguments Erro500 {C}.
Arguments Ok200 {C} _ _ _.

(** [!campo?.trim()]: an absent field and a blank string are rejected, a
    string with content passes, and on a value of another type [trim] is
    not a function, so the call throws. *)
Inductive Verificacao : Type :=
| Vazio
| Lanca
| Preenchido (s : jsstring).

Definition verificar (campo : Campo) : Verificacao :=
  match campo with
  | Ausente => Vazio
  | NaoTexto => Lanca
  | Texto s =>
      match Str.trim s with
      | [] => Vazio
      | _ :: _ => Preenchido s
      end
  end.

(** [gerarContextoController(req, res)].  Everything runs inside one
    [try]; whatever is thrown there, by the destructuring of a missing
    body, by a check, by [consultarBNCC] or by the language model, is
    caught and answered with 500.  [gerarContextoPedagogico] is the call to
    the language model, which returns the parsed context or throws. *)
Definition gerarContextoController {C : Type}
  (body : option Corpo) (engine : outcome Engine)
  (gerarContextoPedagogico :
     jsstring -> jsstring -> jsstring -> list Habilidade -> outcome C)
  : Resposta C :=
  match body with
  | None => Erro500
  | Some body =>
      match verificar (campo_tema body) with
      | Lanca => Erro500
      | Vazio => Erro400 (js "Tema é obrigatório")
      | Preenchido tema =>
          match verificar (campo_disciplina body) with
          | Lanca => Erro500
          | Vazio => Erro400 (js "Disciplina é obrigatória")
          | Preenchido disciplina =>
              match verificar (campo_serie body) with
              | Lanca => Erro500
              | Vazio => Erro400 (js "Série é obrigatória")
              | Preenchido serie =>
                  let nivelEscolar := detectarNivelEscolar serie in
                  let anoSerie := obterDescricaoNivelEscolar serie in
                  match consultarBNCC engine tema disciplina serie anoSerie
                  with
                  | Thrown => Erro500
                  | Returned bnccResponse =>
                      let validas :=
                        habilidadesValidas (habilidades bnccResponse)
                          nivelEscolar in
                      match gerarContextoPedagogico tema disciplina serie
                              validas with
                      | Thrown => Erro500
                      | Returned contexto =>
                          Ok200 contexto (response bnccResponse)
                            (List.map (fun n => nodePage (raw n))
                               (sourceNodes bnccResponse))
                      end
                  end
              end
          end
      end
  end.

(** A field that is absent or holds white space only; a field that is a
    string with other content; a field that is not a string. *)
Definition emBranco (campo : Campo) : bool :=
  match campo with
  | Ausente => true
  | Texto s => forallb Str.isWhite s
  | NaoTexto => false
  end.

Definition preenchido (campo : Campo) : bool :=
  match campo with
  | Texto s => negb (forallb Str.isWhite s)
  | _ => false
  end.

Definition naoTexto (campo : Campo) : bool :=
  match campo with
  | NaoTexto => true
  | _ => false
  end.

(** The string of a field. *)
Definition textoDe (campo : Campo) : jsstring :=
  match campo with
  | Texto s => s
  | _ => []
  end.

(** A code stands in the text of a passage. *)
Definition codigoNoTexto (codigo : jsstring) (n : EnrichedNode) : Prop :=
  exists pre suf, default [] (nodeText (raw n)) = pre ++ codigo ++ suf.

(** What the deduplication loop maintains about the passages visited so
    far: the passages kept are some of them, in order, each the first one
    of its page; while the limit is not reached every resolvable page
    visited is in the set of pages seen; and a page seen is the page of a
    passage kept. *)
Definition unicos_primeiros (maxNodes : Z) (vistos : list EnrichedNode)
  (st : Unicos) : Prop :=
  uniqueNodes st `sublist_of` vistos
  /\ Forall (fun e => exists l1 l2,
                 vistos = l1 ++ e :: l2
                 /\ nodePage (raw e) ∉ paginas l1)
       (uniqueNodes st)
  /\ (Z.of_nat (length (uniqueNodes st)) < maxNodes ->
      forall n, n ∈ vistos -> paginaResolvida n = true ->
      exists page, nodePage (raw n) = Some page /\ page ∈ seenPages st)
  /\ (forall page, page ∈ seenPages st ->
      Some page ∈ paginas (uniqueNodes st)).

(** The two runs of the loop with limits [m <= M] go together until [m]
    passages are kept; from then on the first one is frozen. *)
Definition par_truncado (m : Z) (stA stB : Unicos) : Prop :=
  (stA = stB /\ Z.of_nat (length (uniqueNodes stA)) <= m)
  \/ (Z.of_nat (length (uniqueNodes stA)) = m
      /\ uniqueNodes stA = take (Z.to_nat m) (uniqueNodes stB)).

(** A code unit that lower-casing leaves alone. *)
Definition minuscula (c : N) : bool :=
  match Str.toLowerUnit c with
  | [u] => (u =? c)%N
  | _ => false
  end.

(** The ways a grade label may continue after its number: an optional
    ordinal sign, an optional space, and the grade word. *)
Definition sinaisOrdinais : list jsstring := [[]; [186]; [170]; [176]]%N.

Definition palavrasDeAno : list jsstring :=
  List.map js
    ["ano"; "série"; "serie"; "Ano"; "Série"; "Serie"; "ANO"; "SÉRIE";
     "SERIE"]%string.

(** The distinct strings of a list, in the order of their first
    occurrence. *)
Definition distintos (l : list jsstring) : list jsstring :=
  fold_left (fun acc k => if inList acc k then acc else acc ++ [k]) l [].

(** The codes captured with a description of more than 10 units, in the
    order of the captures. *)
Definition codigosDescritos (nodes : list EnrichedNode) : list jsstring :=
  List.map fst
    (List.filter (fun cd => (10 <? length cd.2)%nat) (todasCapturas nodes)).

(** * Properties *)

Ltac inv_steps :=
  repeat match goal with
  | H : Re.steps (Re.Seq _ _) _ _ _ _ |- _ => inversion H; subst; clear H
  | H : Re.steps (Re.Alt _ _) _ _ _ _ |- _ => inversion H; subst; clear H
  | H : Re.steps (Re.Chr _) _ _ _ _ |- _ => inversion H; subst; clear H
  | H : Re.steps (Re.Group _ _) _ _ _ _ |- _ => inversion H; subst; clear H
  | H : Re.steps Re.Eps _ _ _ _ |- _ => inversion H; subst; clear H
  | H : Re.steps Re.Bol _ _ _ _ |- _ => inversion H; subst; clear H
  | H : Re.steps Re.Eol _ _ _ _ |- _ => inversion H; subst; clear H
  end.

Ltac lit_eq :=
  repeat match goal with
  | H : Re.lit _ _ = true |- _ => unfold Re.lit in H; apply N.eqb_eq in H; subst
  end.

(** Replace every literal [js "..."] of the goal by its code units. *)
Ltac js_eval :=
  repeat match goal with
  | |- context [js ?s] =>
      let v := eval vm_compute in (js s) in change (js s) with v
  end.

Local Open Scope nat_scope.

(** ** The matcher *)

Section ReFacts.
Import Re.

Lemma star_sound (r : regex) (k : cont) :
  (forall i s c k' res, rmatch r i s c k' = Some res ->
     exists i' s' c', steps r i s i' s' /\ k' i' s' c' = Some res) ->
  forall fuel i s c res, star (rmatch r) k fuel i s c = Some res ->
    exists i' s' c', steps (Star r) i s i' s' /\ k i' s' c' = Some res.
Proof.
  intros IHr fuel. induction fuel as [|fuel IH]; intros i s c res H; simpl in H.
  - exists i, s, c. split; [constructor | exact H].
  - destruct (rmatch r i s c _) as [x|] eqn:E.
    + injection H as ->.
      apply IHr in E as (i1 & s1 & c1 & St & Hk).
      destruct (i <? i1); [|discriminate].
      apply IH in Hk as (i2 & s2 & c2 & St2 & Hk).
      exists i2, s2, c2. split; [eapply steps_star_more; eauto | exact Hk].
    + exists i, s, c. split; [constructor | exact H].
Qed.

(** A successful match ran the continuation on a state [r] leads to. *)
Lemma rmatch_sound (r : regex) :
  forall i s c k res, rmatch r i s c k = Some res ->
    exists i' s' c', steps r i s i' s' /\ k i' s' c' = Some res.
Proof.
  induction r as [|p|r1 IH1 r2 IH2|r1 IH1 r2 IH2|r IH|g r IH| |];
    intros i s c k res H; simpl in H.
  - exists i, s, c. split; [constructor | exact H].
  - destruct s as [|x s']; [discriminate|].
    destruct (p x) eqn:Hp; [|discriminate].
    exists (S i), s', c. split; [constructor; exact Hp | exact H].
  - apply IH1 in H as (i1 & s1 & c1 & St1 & H).
    apply IH2 in H as (i2 & s2 & c2 & St2 & H).
    exists i2, s2, c2. split; [econstructor; eauto | exact H].
  - destruct (rmatch r1 i s c k) as [x|] eqn:E.
    + injection H as ->. apply IH1 in E as (i1 & s1 & c1 & St & Hk).
      exists i1, s1, c1. split; [apply steps_alt_l; exact St | exact Hk].
    + apply IH2 in H as (i1 & s1 & c1 & St & Hk).
      exists i1, s1, c1. split; [apply steps_alt_r; exact St | exact Hk].
  - eapply star_sound; eauto.
  - apply IH in H as (i1 & s1 & c1 & St & Hk).
    exists i1, s1, ((g, take (i1 - i) s) :: c1).
    split; [constructor; exact St | exact Hk].
  - destruct (i =? 0) eqn:E; [|discriminate].
    apply Nat.eqb_eq in E as ->. exists 0, s, c.
    split; [constructor | exact H].
  - destruct s; [|discriminate]. exists i, [], c.
    split; [constructor | exact H].
Qed.

(** The index advances by exactly what is consumed. *)
Lemma steps_consume r i s i' s' :
  steps r i s i' s' -> exists w, s = w ++ s' /\ i' = i + length w.
Proof.
  induction 1 as [i s|p x i s Hp|r1 r2 i s i1 s1 i2 s2 _ IH1 _ IH2
                 | | | r i s | r i s i1 s1 i2 s2 _ IH1 _ IH2 | | |].
  - exists []. split; [reflexivity | simpl; lia].
  - exists [x]. split; [reflexivity | simpl; lia].
  - destruct IH1 as (w1 & -> & ->), IH2 as (w2 & -> & ->).
    exists (w1 ++ w2). rewrite length_app, <- app_assoc.
    split; [reflexivity | lia].
  - assumption.
  - assumption.
  - exists []. split; [reflexivity | simpl; lia].
  - destruct IH1 as (w1 & -> & ->), IH2 as (w2 & -> & ->).
    exists (w1 ++ w2). rewrite length_app, <- app_assoc.
    split; [reflexivity | lia].
  - assumption.
  - exists []. split; [reflexivity | simpl; lia].
  - exists []. split; [reflexivity | simpl; lia].
Qed.

Lemma scan_sound r : forall s i f,
  scan r i s = Some f ->
  exists pre suf s', s = pre ++ suf /\ index f = i + length pre
                     /\ steps r (index f) suf (stop f) s'.
Proof.
  induction s as [|x s IH]; intros i f H; simpl in H.
  - destruct (rmatch r i [] [] accept) as [[e c]|] eqn:E; [|discriminate].
    injection H as <-. apply rmatch_sound in E as (i' & s' & c' & St & Hk).
    injection Hk as <- <-. exists [], [], s'. simpl.
    split; [reflexivity|]. split; [lia | exact St].
  - destruct (rmatch r i (x :: s) [] accept) as [[e c]|] eqn:E.
    + injection H as <-. apply rmatch_sound in E as (i' & s' & c' & St & Hk).
      injection Hk as <- <-. exists [], (x :: s), s'. simpl.
      split; [reflexivity|]. split; [lia | exact St].
    + apply IH in H as (pre & suf & s' & -> & Hi & St).
      exists (x :: pre), suf, s'. simpl.
      split; [reflexivity|]. split; [lia | exact St].
Qed.

(** What [exec] finds: the text splits around the match. *)
Lemma exec_sound r s from f :
  exec r s from = Some f ->
  exists pre w s', s = pre ++ w ++ s' /\ from <= index f
                   /\ index f = length pre /\ stop f = index f + length w
                   /\ steps r (index f) (w ++ s') (stop f) s'.
Proof.
  unfold exec. intros H.
  destruct (length s <? from) eqn:E; [discriminate|].
  apply Nat.ltb_ge in E.
  apply scan_sound in H as (pre & suf & s' & Hs & Hi & St).
  destruct (steps_consume _ _ _ _ _ St) as (w & -> & Hstop).
  exists (take from s ++ pre), w, s'.
  rewrite <- app_assoc, <- Hs, take_drop.
  rewrite length_app, length_take. repeat split; try lia; assumption.
Qed.

Lemma match1_sound r s f :
  match1 r s = Some f ->
  exists pre suf s', s = pre ++ suf /\ index f = length pre
                     /\ steps r (index f) suf (stop f) s'.
Proof.
  intros H. apply exec_sound in H as (pre & w & s' & -> & _ & Hi & _ & St).
  exists pre, (w ++ s'), s'. auto.
Qed.

Lemma exec_bounds r s from f :
  exec r s from = Some f -> from <= index f <= stop f /\ stop f <= length s.
Proof.
  intros H. apply exec_sound in H as (pre & w & s' & -> & Hf & Hi & Hs & _).
  rewrite !length_app. lia.
Qed.

Lemma exec_past_end r s from : length s < from -> exec r s from = None.
Proof.
  intros H. unfold exec.
  destruct (Nat.ltb_spec (length s) from); [reflexivity | lia].
Qed.

Lemma star_ext (m1 : nat -> jsstring -> caps -> cont -> mres) (k1 k2 : cont) :
  (forall i s c k k', agree i s k k' -> m1 i s c k = m1 i s c k') ->
  forall fuel i s c, agree i s k1 k2 ->
    star m1 k1 fuel i s c = star m1 k2 fuel i s c.
Proof.
  intros Hm fuel. induction fuel as [|fuel IH]; intros i s c Hk; simpl.
  - apply Hk; lia.
  - rewrite (Hm i s c _
               (fun i' s' c' =>
                  if i <? i' then star m1 k2 fuel i' s' c' else None)).
    + rewrite (Hk i s c) by lia. reflexivity.
    + intros i' s' c' Hi Hlen. destruct (i <? i'); [|reflexivity].
      apply IH. intros i2 s2 c2 Hi2 Hlen2. apply Hk; lia.
Qed.

(** The matcher only consults its continuation on what is left of the
    input. *)
Lemma rmatch_ext (r : regex) :
  forall i s c k k', agree i s k k' -> rmatch r i s c k = rmatch r i s c k'.
Proof.
  induction r as [|p|r1 IH1 r2 IH2|r1 IH1 r2 IH2|r IH|g r IH| |];
    intros i s c k k' Hk; simpl.
  - apply Hk; lia.
  - destruct s as [|x s']; [reflexivity|].
    destruct (p x); [|reflexivity]. apply Hk; simpl; lia.
  - apply IH1. intros i1 s1 c1 Hi1 Hlen1. apply IH2.
    intros i2 s2 c2 Hi2 Hlen2. apply Hk; lia.
  - rewrite (IH1 i s c k k' Hk), (IH2 i s c k k' Hk). reflexivity.
  - apply star_ext; assumption.
  - apply IH. intros i1 s1 c1 Hi1 Hlen1. apply Hk; lia.
  - destruct (i =? 0); [|reflexivity]. apply Hk; lia.
  - destruct s; [|reflexivity]. apply Hk; simpl; lia.
Qed.

Lemma rmatch_fail (r : regex) i s c :
  rmatch r i s c (fun _ _ _ => None) = None.
Proof.
  destruct (rmatch r i s c (fun _ _ _ => None)) as [res|] eqn:E;
    [|reflexivity].
  apply rmatch_sound in E as (? & ? & ? & _ & [=]).
Qed.

(** The loop of [r*] never needs more than [length s] iterations: any
    larger bound gives the same result. *)
Lemma star_fuel_enough (r : regex) (k : cont) : forall fuel1 fuel2 i s c,
  length s <= fuel1 -> length s <= fuel2 ->
  star (rmatch r) k fuel1 i s c = star (rmatch r) k fuel2 i s c.
Proof.
  assert (Hempty : forall fuel i c, star (rmatch r) k fuel i [] c = k i [] c).
  { intros [|fuel] i c; simpl; [reflexivity|].
    rewrite (rmatch_ext r i [] c _ (fun _ _ _ => None)), rmatch_fail;
      [reflexivity|].
    intros i' s' c' Hi Hlen. simpl in Hlen.
    destruct (Nat.ltb_spec i i'); [lia | reflexivity]. }
  induction fuel1 as [|fuel1 IH]; intros fuel2 i s c H1 H2.
  - destruct s; [|simpl in H1; lia]. rewrite !Hempty. reflexivity.
  - destruct fuel2 as [|fuel2].
    { destruct s; [|simpl in H2; lia]. rewrite !Hempty. reflexivity. }
    simpl.
    rewrite (rmatch_ext r i s c _
               (fun i' s' c' =>
                  if i <? i' then star (rmatch r) k fuel2 i' s' c' else None));
      [reflexivity|].
    intros i' s' c' Hi Hlen. destruct (Nat.ltb_spec i i'); [|reflexivity].
    apply IH; lia.
Qed.

(** [s.match(r)] with the [g] flag: [length s + 1] iterations suffice. *)
Lemma matchAllFrom_fuel_enough r s : forall fuel1 fuel2 from,
  length s < from + fuel1 -> length s < from + fuel2 ->
  matchAllFrom fuel1 r s from = matchAllFrom fuel2 r s from.
Proof.
  induction fuel1 as [|fuel1 IH]; intros fuel2 from H1 H2.
  - destruct fuel2; simpl; [reflexivity|].
    rewrite exec_past_end by lia. reflexivity.
  - destruct fuel2 as [|fuel2]; simpl.
    { rewrite exec_past_end by lia. reflexivity. }
    destruct (exec r s from) as [f|] eqn:E; [|reflexivity].
    apply exec_bounds in E. f_equal.
    destruct (Nat.eqb_spec (stop f) (index f)); apply IH; lia.
Qed.

End ReFacts.

Lemma js_EF : js "EF" = [69; 70]%N.
Proof. reflexivity. Qed.

Lemma js_EM : js "EM" = [69; 77]%N.
Proof. reflexivity. Qed.

(** A code found by the extractor's pattern is never empty. *)
Lemma exec_regexHabilidades_progress ci texto from m :
  Re.exec (regexHabilidades ci) texto from = Some m ->
  from <= Re.index m < Re.stop m /\ Re.stop m <= length texto.
Proof.
  intros H. pose proof (exec_bounds _ _ _ _ H) as [[Hf _] Hl].
  apply exec_sound in H as (pre & w & s' & -> & _ & Hi & Hs & St).
  split; [split; [exact Hf|] | exact Hl].
  unfold regexHabilidades in St.
  inversion St as [| | | | | | |g r i s i' s0 St1| |]; subst; clear St.
  assert (Hchr : forall r1 r2 i s i' s0,
             Re.steps (Re.Seq (Re.word ci (js "EF")) r1) i s i' s0
             \/ Re.steps (Re.Seq (Re.word ci (js "EM")) r2) i s i' s0 ->
             i < i').
  { clear. intros r1 r2 i s i' s0 [St|St];
      inversion St as [| |ra rb ? ? i1 s1 ? ? Sa Sb| | | | | | |];
      subst; clear St;
      apply steps_consume in Sb as (w2 & -> & ->);
      inversion Sa as [| |ra rb ? ? i2 s2 ? ? Sc Sd| | | | | | |];
      subst; clear Sa;
      inversion Sc; subst; apply steps_consume in Sd as (w3 & ? & ->); lia. }
  inversion St1; subst;
    [eapply (Hchr _ Re.Eps); left | eapply (Hchr Re.Eps); right]; eassumption.
Qed.

(** The extraction loop: [length texto + 1] iterations suffice. *)
Lemma percorrer_fuel_enough texto : forall fuel1 fuel2 lastIndex h,
  length texto < lastIndex + fuel1 -> length texto < lastIndex + fuel2 ->
  percorrer fuel1 texto lastIndex h = percorrer fuel2 texto lastIndex h.
Proof.
  induction fuel1 as [|fuel1 IH]; intros fuel2 i h H1 H2.
  - destruct fuel2; simpl; [reflexivity|].
    rewrite exec_past_end by lia. reflexivity.
  - destruct fuel2 as [|fuel2]; simpl.
    { rewrite exec_past_end by lia. reflexivity. }
    destruct (Re.exec _ texto i) as [m|] eqn:E; [|reflexivity].
    apply exec_regexHabilidades_progress in E. apply IH; lia.
Qed.

Local Open Scope Z_scope.

(** ** Level classification *)

Lemma startsWith_app m s : Str.startsWith (m ++ s) m = true.
Proof.
  induction m as [|c m IH]; simpl; [reflexivity|].
  rewrite N.eqb_refl. exact IH.
Qed.

Lemma includes_app pre m pos : Str.includes (pre ++ m ++ pos) m = true.
Proof.
  induction pre as [|c pre IH].
  - cbn [app]. destruct (m ++ pos) eqn:E; cbn [Str.includes];
      rewrite <- E, startsWith_app; reflexivity.
  - cbn [app Str.includes]. rewrite IH. apply orb_true_r.
Qed.

Lemma grafiaSerie_upper w :
  grafiaSerie w = true ->
  Str.toUpperCase w = js "SÉRIE" \/ Str.toUpperCase w = js "SERIE".
Proof.
  destruct w as [|c1 [|c2 [|c3 [|c4 [|c5 [|c6 w]]]]]]; try discriminate.
  unfold grafiaSerie, umDe. cbn [existsb]. rewrite !orb_false_r. intros H.
  repeat match goal with
         | H : _ && _ = true |- _ => apply andb_true_iff in H as [H ?]
         | H : _ || _ = true |- _ => apply orb_true_iff in H as [H|H]
         | H : (_ =? _)%N = true |- _ => apply N.eqb_eq in H; subst
         end; vm_compute; auto.
Qed.

Lemma unitSimples_latin1 c : unitSimples c = true -> In c latin1.
Proof.
  unfold unitSimples. intros H. apply andb_true_iff in H as [H _].
  apply N.leb_le in H. unfold latin1. apply in_map_iff.
  exists (N.to_nat c). split; [apply N2Nat.id|]. apply in_seq. lia.
Qed.

Lemma upperCheck_latin1 :
  forallb (fun c => implb (unitSimples c) (upperCheck c)) latin1 = true.
Proof. vm_compute. reflexivity. Qed.

Lemma upperCheck_simples c : unitSimples c = true -> upperCheck c = true.
Proof.
  intros H. pose proof upperCheck_latin1 as Hall.
  rewrite forallb_forall in Hall.
  specialize (Hall c (unitSimples_latin1 c H)). rewrite H in Hall. exact Hall.
Qed.

Lemma startsWith_split m : forall s,
  Str.startsWith s m = true -> exists pos, s = m ++ pos.
Proof.
  induction m as [|a m IH]; intros s H; simpl in H.
  - exists s. reflexivity.
  - destruct s as [|b s]; [discriminate|].
    apply andb_true_iff in H as [Hab H]. apply N.eqb_eq in Hab. subst b.
    destruct (IH s H) as [pos ->]. exists pos. reflexivity.
Qed.

Lemma includes_split m : forall s,
  Str.includes s m = true -> exists pre pos, s = pre ++ m ++ pos.
Proof.
  induction s as [|c s IH]; cbn [Str.includes]; intros H.
  - rewrite orb_false_r in H. apply startsWith_split in H as [pos ->].
    exists [], pos. reflexivity.
  - apply orb_true_iff in H as [H|H].
    + apply startsWith_split in H as [pos ->]. exists [], pos. reflexivity.
    + destruct (IH H) as (pre & pos & ->). exists (c :: pre), pos. reflexivity.
Qed.

Lemma implb_eqb (u k : N) (b : bool) :
  implb (u =? k)%N b = true -> u = k -> b = true.
Proof. intros H ->. rewrite N.eqb_refl in H. exact H. Qed.

(** The upper-case image of a simple unit is one unit, and the letters of
    the marker come from their two cases only. *)
Lemma upper_simples c :
  unitSimples c = true ->
  exists u, Str.toUpperUnit c = [u]
            /\ (u = 83%N -> umDe [115; 83]%N c = true)
            /\ (u = 69%N -> umDe [101; 69]%N c = true)
            /\ (u = 201%N -> umDe [233; 201]%N c = true)
            /\ (u = 82%N -> umDe [114; 82]%N c = true)
            /\ (u = 73%N -> umDe [105; 73]%N c = true).
Proof.
  intros H. apply upperCheck_simples in H. unfold upperCheck in H.
  destruct (Str.toUpperUnit c) as [|u [|? ?]]; try discriminate.
  exists u. split; [reflexivity|].
  repeat (apply andb_true_iff in H as [H ?]).
  repeat split; eapply implb_eqb; eassumption.
Qed.

Lemma umDe_weaken c :
  umDe [101; 69]%N c = true -> umDe [101; 69; 233; 201]%N c = true.
Proof.
  unfold umDe. cbn [existsb]. rewrite !orb_false_r. intros H.
  apply orb_true_iff in H as [->| ->]; rewrite ?orb_true_r; reflexivity.
Qed.

Lemma umDe_weaken_acute c :
  umDe [233; 201]%N c = true -> umDe [101; 69; 233; 201]%N c = true.
Proof.
  unfold umDe. cbn [existsb]. rewrite !orb_false_r. intros H.
  apply orb_true_iff in H as [->| ->]; rewrite ?orb_true_r; reflexivity.
Qed.

Lemma upper_simples_cons l u us :
  forallb unitSimples l = true ->
  flat_map Str.toUpperUnit l = u :: us ->
  exists c l', l = c :: l' /\ Str.toUpperUnit c = [u]
               /\ forallb unitSimples l' = true
               /\ flat_map Str.toUpperUnit l' = us
               /\ (u = 83%N -> umDe [115; 83]%N c = true)
               /\ (u = 69%N -> umDe [101; 69]%N c = true)
               /\ (u = 201%N -> umDe [233; 201]%N c = true)
               /\ (u = 82%N -> umDe [114; 82]%N c = true)
               /\ (u = 73%N -> umDe [105; 73]%N c = true).
Proof.
  intros Hs H. destruct l as [|c l]; [discriminate|].
  cbn [forallb] in Hs. apply andb_true_iff in Hs as [Hc Hs].
  destruct (upper_simples c Hc) as (u' & Eu & Hu).
  cbn [flat_map] in H. rewrite Eu in H. injection H as -> H.
  exists c, l. auto 10.
Qed.

Lemma upper_simples_nil l :
  forallb unitSimples l = true -> flat_map Str.toUpperUnit l = [] -> l = [].
Proof.
  intros Hs H. destruct l as [|c l]; [reflexivity|].
  cbn [forallb] in Hs. apply andb_true_iff in Hs as [Hc Hs].
  destruct (upper_simples c Hc) as (u' & Eu & _).
  cbn [flat_map] in H. rewrite Eu in H. discriminate.
Qed.

Lemma upper_prefix m : forall s pos',
  forallb unitSimples s = true ->
  flat_map Str.toUpperUnit s = m ++ pos' ->
  exists w pos, s = w ++ pos /\ flat_map Str.toUpperUnit w = m.
Proof.
  induction m as [|a m IH]; intros s pos' Hs H.
  - exists [], s. split; reflexivity.
  - destruct (upper_simples_cons _ _ _ Hs H)
      as (c & s' & -> & Eu & Hs' & H' & _).
    destruct (IH s' pos' Hs' H') as (w & pos & -> & Hw).
    exists (c :: w), pos. split; [reflexivity|].
    cbn [flat_map]. rewrite Eu, Hw. reflexivity.
Qed.

(** In a label of simple units, a word found in the upper-cased label is
    the image of a window of the label. *)
Lemma upper_window s :
  forallb unitSimples s = true ->
  forall m, Str.includes (Str.toUpperCase s) m = true ->
  exists pre w pos, s = pre ++ w ++ pos /\ Str.toUpperCase w = m.
Proof.
  intros Hs m H. apply includes_split in H as (pre' & pos' & H).
  unfold Str.toUpperCase in *.
  revert s Hs H. induction pre' as [|p pre' IH]; intros s Hs H.
  - destruct (upper_prefix m s pos' Hs H) as (w & pos & -> & Hw).
    exists [], w, pos. split; [reflexivity | exact Hw].
  - destruct (upper_simples_cons _ _ _ Hs H)
      as (c & s' & -> & _ & Hs' & H' & _).
    destruct (IH s' Hs' H') as (pre & w & pos & -> & Hw).
    exists (c :: pre), w, pos. split; [reflexivity | exact Hw].
Qed.

Lemma grafia_of_upper w :
  forallb unitSimples w = true ->
  Str.toUpperCase w = js "SÉRIE" \/ Str.toUpperCase w = js "SERIE" ->
  grafiaSerie w = true.
Proof.
  unfold Str.toUpperCase. intros Hs H.
  assert (H' : flat_map Str.toUpperUnit w = [83; 201; 82; 73; 69]%N
               \/ flat_map Str.toUpperUnit w = [83; 69; 82; 73; 69]%N)
    by exact H.
  clear H.
  destruct H' as [H|H].
  all: destruct (upper_simples_cons _ _ _ Hs H)
         as (c1 & w1 & -> & _ & Hs1 & H1 & S1 & _).
  all: destruct (upper_simples_cons _ _ _ Hs1 H1)
         as (c2 & w2 & -> & _ & Hs2 & H2 & _ & E2 & A2 & _).
  all: destruct (upper_simples_cons _ _ _ Hs2 H2)
         as (c3 & w3 & -> & _ & Hs3 & H3 & _ & _ & _ & R3 & _).
  all: destruct (upper_simples_cons _ _ _ Hs3 H3)
         as (c4 & w4 & -> & _ & Hs4 & H4 & _ & _ & _ & _ & I4).
  all: destruct (upper_simples_cons _ _ _ Hs4 H4)
         as (c5 & w5 & -> & _ & Hs5 & H5 & _ & E5 & _).
  all: rewrite (upper_simples_nil _ Hs5 H5).
  all: unfold grafiaSerie.
  all: rewrite S1, R3, I4, E5 by reflexivity.
  - rewrite (umDe_weaken_acute _ (A2 eq_refl)). reflexivity.
  - rewrite (umDe_weaken _ (E2 eq_refl)). reflexivity.
Qed.

Lemma forallb_app_window pre w pos :
  forallb unitSimples (pre ++ w ++ pos) = true -> forallb unitSimples w = true.
Proof.
  rewrite !forallb_app. intros H.
  apply andb_true_iff in H as [_ H]. apply andb_true_iff in H as [H _]. exact H.
Qed.

Lemma detectar_simples serie :
  forallb unitSimples serie = true ->
  detectarNivelEscolar serie = medio ->
  exists pre w pos, serie = pre ++ w ++ pos /\ grafiaSerie w = true.
Proof.
  intros Hs H. unfold detectarNivelEscolar in H.
  destruct (Str.includes (Str.toUpperCase serie) (js "SÉRIE")) eqn:E1.
  - destruct (upper_window serie Hs _ E1) as (pre & w & pos & -> & Hw).
    exists pre, w, pos. split; [reflexivity|].
    apply grafia_of_upper; [eapply forallb_app_window; exact Hs | auto].
  - destruct (Str.includes (Str.toUpperCase serie) (js "SERIE")) eqn:E2;
      [|discriminate].
    destruct (upper_window serie Hs _ E2) as (pre & w & pos & -> & Hw).
    exists pre, w, pos. split; [reflexivity|].
    apply grafia_of_upper; [eapply forallb_app_window; exact Hs | auto].
Qed.

(** Every spelling of the marker, anywhere in the label, gives [medio]. *)
Lemma detectar_grafia pre w pos :
  grafiaSerie w = true -> detectarNivelEscolar (pre ++ w ++ pos) = medio.
Proof.
  intros Hw. unfold detectarNivelEscolar, Str.toUpperCase.
  rewrite !flat_map_app.
  destruct (grafiaSerie_upper w Hw) as [E|E]; unfold Str.toUpperCase in E;
    rewrite E, includes_app, ?orb_true_r; reflexivity.
Qed.

(** Turn the boolean comparisons of the hypotheses into arithmetic. *)
Ltac comparacoes :=
  repeat match goal with
         | H : _ \/ _ |- _ => destruct H
         | H : _ && _ = true |- _ => apply andb_true_iff in H as [? ?]
         | H : _ && _ = false |- _ => apply andb_false_iff in H
         | H : negb _ = true |- _ => apply negb_true_iff in H
         | H : negb _ = false |- _ => apply negb_false_iff in H
         | H : (_ <=? _)%N = true |- _ => apply N.leb_le in H
         | H : (_ <=? _)%N = false |- _ => apply N.leb_gt in H
         | H : (_ =? _)%N = true |- _ => apply N.eqb_eq in H
         | H : (_ =? _)%N = false |- _ => apply N.eqb_neq in H
         end.

(** The units whose upper-case image begins with a letter of the marker
    other than S: the image is that letter alone. *)
Lemma toUpperUnit_head (cl : list N) (x : N) (c : N) (t q : jsstring) :
  In (x, cl) [(69, [101; 69]); (201, [233; 201]); (82, [114; 82]);
              (73, [105; 73; 305])]%N ->
  Str.startsWith (Str.toUpperUnit c ++ t) (x :: q)
  = umDe cl c && Str.startsWith t q.
Proof.
  intros Hx. cbn [In] in Hx.
  destruct Hx as [[= <- <-]|[[= <- <-]|[[= <- <-]|[[= <- <-]|[]]]]];
    unfold Str.toUpperUnit, umDe; cbn [existsb]; rewrite ?orb_false_r.
  all: repeat match goal with
         | |- context [if ?b then _ else _] => destruct b eqn:?
         end; cbn [app Str.startsWith].
  all: comparacoes.
  all: subst.
  all: repeat match goal with
         | |- context [(?a =? ?b)%N] =>
             destruct (N.eqb_spec a b); cbn [andb orb negb]
         end; try reflexivity; try lia.
Qed.

(** The units whose upper-case image ends in S, where a match of the
    marker can begin. *)
Lemma toUpperUnit_S (y : N) (c : N) (t q : jsstring) :
  In y [69; 201]%N ->
  Str.includes (Str.toUpperUnit c ++ t) (83 :: y :: q)%N
  = umDe [115; 83; 383; 223]%N c && Str.startsWith t (y :: q)
    || Str.includes t (83 :: y :: q)%N.
Proof.
  intros Hy.
  assert (Ht : forall u r, u <> 83%N ->
               Str.includes (u :: r) (83 :: y :: q)%N
               = Str.includes r (83 :: y :: q)%N).
  { intros u r Hu. cbn [Str.includes Str.startsWith].
    destruct (N.eqb_spec 83 u); [congruence | reflexivity]. }
  assert (Hs : forall r,
               Str.includes (83 :: r)%N (83 :: y :: q)%N
               = Str.startsWith r (y :: q)
                 || Str.includes r (83 :: y :: q)%N)
    by reflexivity.
  assert (Hy' : forall u r, u <> y ->
                Str.startsWith (u :: r) (y :: q) = false).
  { intros u r Hu. cbn [Str.startsWith].
    destruct (N.eqb_spec y u); [congruence | reflexivity]. }
  assert (y <> 83%N) by (cbn [In] in Hy; intuition lia).
  assert (y = 69%N \/ y = 201%N) by (cbn [In] in Hy; intuition lia).
  clear Hy.
  unfold Str.toUpperUnit, umDe; cbn [existsb]; rewrite ?orb_false_r.
  repeat match goal with
         | |- context [if ?b then _ else _] => destruct b eqn:?
         end; cbn [app].
  all: comparacoes; subst c || idtac.
  all: repeat match goal with
         | |- context [Str.includes (?u :: ?r) (83%N :: _)] =>
             let E := fresh "E" in
             destruct (N.eq_dec u 83%N) as [E|E];
             [ try (exfalso; lia); rewrite ?E; rewrite (Hs r)
             | try (exfalso; lia); rewrite (Ht u r E) ]
         | |- context [Str.startsWith (?u :: ?r) (_ :: _)] =>
             rewrite (Hy' u r) by lia
         end.
  all: repeat match goal with
         | |- context [(?a =? ?b)%N] =>
             destruct (N.eqb_spec a b); cbn [andb orb negb]
         end; try reflexivity; try lia.
Qed.

(** After the first letter, the marker is found at the head of the
    upper-cased label iff the label begins with units of the classes. *)
Lemma startsWith_upper (ws : list (N * list N)) : forall s,
  Forall (fun w => In w [(69, [101; 69]); (201, [233; 201]); (82, [114; 82]);
                         (73, [105; 73; 305])]%N) ws ->
  Str.startsWith (Str.toUpperCase s) (List.map fst ws)
  = janela (List.map snd ws) s.
Proof.
  unfold Str.toUpperCase.
  induction ws as [|[x cl] ws IH]; intros s Hws; [reflexivity|].
  apply Forall_cons in Hws as [Hx Hws].
  destruct s as [|c s]; [reflexivity|].
  cbn [List.map fst snd flat_map janela].
  rewrite (toUpperUnit_head cl x c _ _ Hx), IH by exact Hws. reflexivity.
Qed.

Lemma includes_upper (y : N) (cl : list N) (ws : list (N * list N)) :
  In (y, cl) [(69, [101; 69]); (201, [233; 201])]%N ->
  Forall (fun w => In w [(69, [101; 69]); (201, [233; 201]); (82, [114; 82]);
                         (73, [105; 73; 305])]%N) ws ->
  forall s,
  Str.includes (Str.toUpperCase s) (83%N :: y :: List.map fst ws)
  = contemJanela ([115; 83; 383; 223]%N :: cl :: List.map snd ws) s.
Proof.
  intros Hy Hws.
  assert (Hy1 : In y [69; 201]%N).
  { cbn [In] in Hy |- *. destruct Hy as [[= <- _]|[[= <- _]|[]]]; auto. }
  assert (Hall : Forall (fun w => In w [(69, [101; 69]); (201, [233; 201]);
                                        (82, [114; 82]);
                                        (73, [105; 73; 305])]%N)
                   ((y, cl) :: ws)).
  { constructor; [|exact Hws]. cbn [In] in Hy |- *. tauto. }
  induction s as [|c s IH]; [reflexivity|].
  unfold Str.toUpperCase in *. cbn [flat_map contemJanela janela].
  rewrite (toUpperUnit_S y c _ _ Hy1), IH.
  pose proof (startsWith_upper ((y, cl) :: ws) s Hall) as E.
  unfold Str.toUpperCase in E. cbn [List.map fst snd] in E. rewrite E.
  reflexivity.
Qed.

(** A window of one of two classes at a position is a window of their
    union. *)
Lemma janela_union (a p p' : list N) (rest : list (list N)) s :
  janela (a :: (p ++ p') :: rest) s
  = janela (a :: p :: rest) s || janela (a :: p' :: rest) s.
Proof.
  destruct s as [|c1 [|c2 s]]; cbn [janela]; rewrite ?andb_false_r;
    [reflexivity | reflexivity |].
  unfold umDe. rewrite existsb_app.
  destruct (existsb (N.eqb c1) a), (existsb (N.eqb c2) p),
    (existsb (N.eqb c2) p'), (janela rest s); reflexivity.
Qed.

Lemma contemJanela_union (a p p' : list N) (rest : list (list N)) s :
  contemJanela (a :: (p ++ p') :: rest) s
  = contemJanela (a :: p :: rest) s || contemJanela (a :: p' :: rest) s.
Proof.
  induction s as [|c s IH].
  - reflexivity.
  - cbn [contemJanela]. rewrite IH, janela_union.
    destruct (janela (a :: p :: rest) (c :: s)),
      (janela (a :: p' :: rest) (c :: s)),
      (contemJanela (a :: p :: rest) s), (contemJanela (a :: p' :: rest) s);
      reflexivity.
Qed.

(** The level of a label, in terms of its own units. *)
Lemma detectarNivelEscolar_unidades serie :
  detectarNivelEscolar serie
  = if contemJanela unidadesSerie serie then medio else fundamental.
Proof.
  unfold detectarNivelEscolar. cbv zeta. js_eval.
  rewrite (includes_upper 201 [233; 201]%N
             [(82, [114; 82]); (73, [105; 73; 305]); (69, [101; 69])]%N)
    by (cbn [In]; repeat constructor; cbn [In]; tauto).
  rewrite (includes_upper 69 [101; 69]%N
             [(82, [114; 82]); (73, [105; 73; 305]); (69, [101; 69])]%N)
    by (cbn [In]; repeat constructor; cbn [In]; tauto).
  cbn [List.map snd]. unfold unidadesSerie.
  change [101; 69; 233; 201]%N with ([101; 69] ++ [233; 201])%N.
  rewrite contemJanela_union, orb_comm. reflexivity.
Qed.

(** A spelling with ordinary letters is a window of letters. *)
Lemma grafiaSerie_janela w :
  grafiaSerie w = janela letrasSerie w && (length w =? 5)%nat.
Proof.
  destruct w as [|c1 [|c2 [|c3 [|c4 [|c5 [|c6 w]]]]]];
    unfold grafiaSerie, letrasSerie; cbn [janela length Nat.eqb];
    rewrite ?andb_false_r, ?andb_true_r; try reflexivity.
  repeat match goal with
         | |- context [umDe ?l ?c] => destruct (umDe l c)
         end; reflexivity.
Qed.

Lemma janela_split classes : forall s,
  janela classes s = true <->
  exists w pos, s = w ++ pos /\ length w = length classes
                /\ janela classes w = true.
Proof.
  induction classes as [|cl classes IH]; intros s.
  - split; [intros _; exists [], s; auto | reflexivity].
  - destruct s as [|c s]; cbn [janela].
    + split; [discriminate|]. intros (w & pos & E & Hl & _).
      destruct w; discriminate.
    + rewrite andb_true_iff, IH. split.
      * intros (Hc & w & pos & -> & Hl & Hw). exists (c :: w), pos.
        cbn [janela length]. rewrite Hc, Hw, Hl. auto.
      * intros (w & pos & E & Hl & Hw). destruct w as [|c' w]; [discriminate|].
        injection E as <- ->. cbn [janela length] in Hl, Hw.
        apply andb_true_iff in Hw as [Hc Hw]. split; [exact Hc|].
        exists w, pos. auto.
Qed.

Lemma contemJanela_split classes : forall s,
  contemJanela classes s = true <->
  exists pre w pos, s = pre ++ w ++ pos /\ length w = length classes
                    /\ janela classes w = true.
Proof.
  induction s as [|c s IH]; cbn [contemJanela].
  - rewrite orb_false_r, janela_split. split.
    + intros (w & pos & E & H). exists [], w, pos. auto.
    + intros (pre & w & pos & E & H). destruct pre; [|discriminate].
      exists w, pos. auto.
  - rewrite orb_true_iff, janela_split, IH. split.
    + intros [(w & pos & E & H)|(pre & w & pos & -> & H)].
      * exists [], w, pos. auto.
      * exists (c :: pre), w, pos. auto.
    + intros (pre & w & pos & E & H). destruct pre as [|c' pre].
      * left. exists w, pos. auto.
      * injection E as <- ->. right. exists pre, w, pos. auto.
Qed.

(** Containing one of the 64 spellings, as a computation. *)
Lemma contemJanela_grafia s :
  contemJanela letrasSerie s = true <->
  exists pre w pos, s = pre ++ w ++ pos /\ grafiaSerie w = true.
Proof.
  rewrite contemJanela_split. split.
  - intros (pre & w & pos & E & Hl & Hw). exists pre, w, pos.
    split; [exact E|]. rewrite grafiaSerie_janela, Hw, Hl. reflexivity.
  - intros (pre & w & pos & E & Hw). exists pre, w, pos.
    split; [exact E|]. rewrite grafiaSerie_janela in Hw.
    apply andb_true_iff in Hw as [Hw Hl]. apply Nat.eqb_eq in Hl. auto.
Qed.

(** C8 (as amended).  [detectarNivelEscolar] returns [medio] exactly for
    the labels that hold five consecutive units that upper-casing turns
    into the marker: s, S, the long s or the sharp s; e, E, é or É; r or R;
    i, I or the dotless i; e or E; and [fundamental] for every other label.
    Each of the 64 spellings of the marker with ordinary letters, anywhere
    in the label, gives [medio], and a label written in Latin-1 units
    without the sharp s is [medio] only if it contains one of them.
    "2ª SÉRIE" is [medio] and "9º ANO" is [fundamental]. *)
Theorem detectarNivelEscolar_stage_marker
  (serie pre w pos : jsstring) :
  grafiaSerie w = true ->
  detectarNivelEscolar serie
  = (if contemJanela unidadesSerie serie then medio else fundamental)
  /\ detectarNivelEscolar (pre ++ w ++ pos) = medio
  /\ (forallb unitSimples serie = true ->
      (detectarNivelEscolar serie = medio
       <-> exists pre' w' pos',
             serie = pre' ++ w' ++ pos' /\ grafiaSerie w' = true))
  /\ detectarNivelEscolar (js "2ª SÉRIE") = medio
  /\ detectarNivelEscolar (js "9º ANO") = fundamental.
Proof.
  intros Hw. split; [|split; [|split; [|split; reflexivity]]].
  - apply detectarNivelEscolar_unidades.
  - apply detectar_grafia, Hw.
  - intros Hs. split.
    + apply detectar_simples, Hs.
    + intros (pre' & w' & pos' & -> & Hw'). apply detectar_grafia, Hw'.
Qed.

Lemma detectarNivelEscolar_stage_marker_witness :
  detectarNivelEscolar (js "3ª série do ensino médio")
  = (if contemJanela unidadesSerie (js "3ª série do ensino médio")
     then medio else fundamental)
  /\ detectarNivelEscolar (js "1a " ++ js "Serie" ++ js " EM") = medio
  /\ (forallb unitSimples (js "3ª série do ensino médio") = true ->
      (detectarNivelEscolar (js "3ª série do ensino médio") = medio
       <-> exists pre' w' pos',
             js "3ª série do ensino médio" = pre' ++ w' ++ pos'
             /\ grafiaSerie w' = true))
  /\ detectarNivelEscolar (js "2ª SÉRIE") = medio
  /\ detectarNivelEscolar (js "9º ANO") = fundamental.
Proof.
  apply (detectarNivelEscolar_stage_marker
           (js "3ª série do ensino médio") (js "1a ") (js "Serie") (js " EM")).
  reflexivity.
Defined.

(** With the long s, the dotless i or the sharp s the label holds none of
    the 64 spellings of the marker, in any letter case or accent variant,
    and is [medio] all the same. *)
Lemma stage_marker_beyond_spellings :
  detectarNivelEscolar (js "1 ſérie") = medio
  /\ detectarNivelEscolar (js "2ª SERıE") = medio
  /\ detectarNivelEscolar (js "ßerie") = medio
  /\ ~ (exists pre w pos,
          js "1 ſérie" = pre ++ w ++ pos /\ grafiaSerie w = true)
  /\ ~ (exists pre w pos,
          js "2ª SERıE" = pre ++ w ++ pos /\ grafiaSerie w = true)
  /\ ~ (exists pre w pos,
          js "ßerie" = pre ++ w ++ pos /\ grafiaSerie w = true).
Proof.
  repeat split; try reflexivity;
    rewrite <- contemJanela_grafia; vm_compute; discriminate.
Qed.

(** ** Grade extraction *)

(** C3.  On the path where the number stands next to the grade word,
    [extrairNumeroAno] returns it without the 1..9 check that the fallback
    path applies: "10º ano" gives 10 and "0 série" gives 0, whereas the bare
    number 10 is rejected and the bare number 7 accepted. *)
Theorem extrairNumeroAno_pattern_path_unchecked :
  extrairNumeroAno (js "10º ano") = Some 10
  /\ extrairNumeroAno (js "0 série") = Some 0
  /\ extrairNumeroAno (js "turma 10") = None
  /\ extrairNumeroAno (js "turma 7") = Some 7.
Proof. repeat split; reflexivity. Qed.

(** ** Grade validation *)

Lemma digit_cases (d : N) :
  (d < 10)%N -> In d [0; 1; 2; 3; 4; 5; 6; 7; 8; 9]%N.
Proof. simpl. lia. Qed.

Lemma isDigit_digit (d : N) : (d < 10)%N -> Str.isDigit (48 + d) = true.
Proof.
  intros H. apply digit_cases in H. simpl in H.
  repeat (destruct H as [<-|H]; [reflexivity|]). contradiction.
Qed.

Lemma parseInt_digit (d : N) :
  (d < 10)%N -> Str.parseInt [(48 + d)%N] = Some (Z.of_N d).
Proof.
  intros H. apply digit_cases in H. simpl in H.
  repeat (destruct H as [<-|H]; [reflexivity|]). contradiction.
Qed.

Lemma match1_reEFAno (c1 c2 : N) (resto : jsstring) :
  Str.isDigit c1 = true -> Str.isDigit c2 = true ->
  Re.match1 reEFAno (69 :: 70 :: c1 :: c2 :: resto)%N
  = Some (Re.Found 0 4 [(1%nat, [c1; c2])]).
Proof.
  intros H1 H2. unfold reEFAno. js_eval. cbn. rewrite H1, H2. cbn.
  rewrite take_0. reflexivity.
Qed.

(** The grade check on a code that starts with EF and the digits [d1 d2]. *)
Lemma validarHabilidadeAno_EF (d1 d2 : N) (resto : jsstring) (g : Z) :
  (d1 < 10)%N -> (d2 < 10)%N ->
  validarHabilidadeAno (js "EF" ++ [48 + d1; 48 + d2]%N ++ resto) (Some g)
  = if (d1 =? 0)%N then Z.abs (Z.of_N d2 - g) <=? 1
    else (Z.of_N d1 <=? g) && (g <=? Z.of_N d2).
Proof.
  intros H1 H2. unfold validarHabilidadeAno. js_eval.
  change ([69; 70] ++ [48 + d1; 48 + d2] ++ resto)%N
    with (69 :: 70 :: 48 + d1 :: 48 + d2 :: resto)%N.
  change (Str.startsWith (69 :: 70 :: 48 + d1 :: 48 + d2 :: resto) [69; 77])%N
    with false.
  cbv iota.
  rewrite match1_reEFAno by (apply isDigit_digit; assumption).
  change (charAt (grp 1 (Re.Found 0 4 [(1%nat, [48 + d1; 48 + d2])])) 0)%N
    with [(48 + d1)%N].
  change (charAt (grp 1 (Re.Found 0 4 [(1%nat, [48 + d1; 48 + d2])])) 1)%N
    with [(48 + d2)%N].
  rewrite !parseInt_digit by assumption.
  destruct (N.eqb_spec d1 0) as [->|Hne].
  - rewrite bool_decide_eq_true_2 by reflexivity. reflexivity.
  - rewrite bool_decide_eq_false_2 by (intros [=]; lia).
    destruct ((Z.of_N d1 <=? g) && (g <=? Z.of_N d2)); reflexivity.
Qed.

(** C2.  For an EF code whose digits are "0" and [d], the grade check
    succeeds iff [d] is within 1 of the expected grade [g]; for an EF code
    whose digits are the nonzero [lo] and [hi], it succeeds iff
    [lo <= g <= hi].  With the digits "69", grade 7 matches and grade 5 does
    not. *)
Theorem validarHabilidadeAno_tierA
  (d lo hi : N) (resto : jsstring) (g : Z) :
  (d < 10)%N -> (0 < lo < 10)%N -> (0 < hi < 10)%N ->
  (validarHabilidadeAno (js "EF" ++ [48; 48 + d]%N ++ resto) (Some g) = true
     <-> Z.abs (Z.of_N d - g) <= 1)
  /\ (validarHabilidadeAno (js "EF" ++ [48 + lo; 48 + hi]%N ++ resto) (Some g)
        = true
      <-> Z.of_N lo <= g <= Z.of_N hi)
  /\ validarHabilidadeAno (js "EF69LP01") (Some 7) = true
  /\ validarHabilidadeAno (js "EF69LP01") (Some 5) = false.
Proof.
  intros Hd Hlo Hhi. repeat split; try reflexivity.
  - change 48%N with (48 + 0)%N at 1.
    rewrite validarHabilidadeAno_EF by lia. cbn [N.eqb]. lia.
  - change 48%N with (48 + 0)%N at 1.
    rewrite validarHabilidadeAno_EF by lia. cbn [N.eqb]. lia.
  - rewrite validarHabilidadeAno_EF in H by lia.
    destruct (N.eqb_spec lo 0); [lia|]. lia.
  - rewrite validarHabilidadeAno_EF in H by lia.
    destruct (N.eqb_spec lo 0); [lia|]. lia.
  - intros [? ?]. rewrite validarHabilidadeAno_EF by lia.
    destruct (N.eqb_spec lo 0); [lia|]. lia.
Qed.

Lemma validarHabilidadeAno_tierA_witness :
  (validarHabilidadeAno (js "EF" ++ [48; 48 + 9]%N ++ js "LP01") (Some 8) = true
     <-> Z.abs (Z.of_N 9 - 8) <= 1)
  /\ (validarHabilidadeAno (js "EF" ++ [48 + 6; 48 + 9]%N ++ js "LP01") (Some 8)
        = true
      <-> Z.of_N 6 <= 8 <= Z.of_N 9)
  /\ validarHabilidadeAno (js "EF69LP01") (Some 7) = true
  /\ validarHabilidadeAno (js "EF69LP01") (Some 5) = false.
Proof.
  apply (validarHabilidadeAno_tierA 9 6 9 (js "LP01") 8); lia.
Defined.

(** The TypeScript revision reads only the first digit: it rejects grade 9
    for "EF09GE01" and accepts grade 5 for the range "69". *)
Lemma ts_revision_first_digit_only :
  TsRevision.validarHabilidadeAno (js "EF09GE01") (Some 9) = false
  /\ TsRevision.validarHabilidadeAno (js "EF69LP01") (Some 5) = true.
Proof. split; reflexivity. Qed.

(** ** Area validation *)

Lemma reCodigoArea_sound codigo m :
  Re.match1 reCodigoArea codigo = Some m -> codigoBemFormado codigo = true.
Proof.
  intros H. apply match1_sound in H as (pre & suf & s' & -> & Hi & St).
  unfold reCodigoArea, Re.digit, Re.upper, Re.Opt in St.
  rewrite js_EF, js_EM in St. simpl in St.
  inv_steps; lit_eq.
  all: match goal with H : 0%nat = Re.index _ |- _ => rewrite <- H in Hi end.
  all: destruct pre; [|discriminate].
  all: unfold codigoBemFormado, formaCodigo; rewrite js_EF, js_EM; simpl.
  all: repeat match goal with H : _ = true |- _ => rewrite H; clear H end.
  all: repeat match goal with
         | |- context [Str.isDigit ?x] => destruct (Str.isDigit x)
         | |- context [Re.range 65 90 ?x] => destruct (Re.range 65 90 x)
         end.
  all: reflexivity.
Qed.

Lemma reEFAno_sound codigo m :
  Re.match1 reEFAno codigo = Some m -> prefixoEFAno codigo = true.
Proof.
  intros H. apply match1_sound in H as (pre & suf & s' & -> & Hi & St).
  unfold reEFAno, Re.digit in St. rewrite js_EF in St. simpl in St.
  inv_steps; lit_eq.
  match goal with H : 0%nat = Re.index _ |- _ => rewrite <- H in Hi end.
  destruct pre; [|discriminate]. simpl.
  repeat match goal with H : _ = true |- _ => rewrite H; clear H end.
  reflexivity.
Qed.

(** C10.  With an expected area supplied, [validarHabilidadeArea] rejects
    every string outside the structural grammar (EF or EM, two digits, two or
    three upper-case letters, two or three digits); the grade check, by
    contrast, accepts every code whose grade it cannot parse. *)
Theorem validarHabilidadeArea_rejects_malformed
  (codigo area : jsstring) (ano : Z) :
  area <> [] ->
  codigoBemFormado codigo = false ->
  validarHabilidadeArea codigo (Some area) = false
  /\ (validarHabilidadeAno codigo (Some ano) || prefixoEFAno codigo = true).
Proof.
  intros Harea Hmal. split.
  - unfold validarHabilidadeArea. destruct area as [|a area]; [congruence|].
    destruct (Re.match1 reCodigoArea codigo) as [m|] eqn:E; [|reflexivity].
    apply reCodigoArea_sound in E. congruence.
  - unfold validarHabilidadeAno.
    destruct (Str.startsWith codigo (js "EM")); [reflexivity|].
    destruct (Re.match1 reEFAno codigo) as [m|] eqn:E; [|reflexivity].
    apply reEFAno_sound in E. rewrite E. apply orb_true_r.
Qed.

Lemma validarHabilidadeArea_rejects_malformed_witness :
  validarHabilidadeArea (js "EF9GE01") (Some (js "GE")) = false
  /\ (validarHabilidadeAno (js "EF9GE01") (Some 9)
      || prefixoEFAno (js "EF9GE01") = true).
Proof.
  apply validarHabilidadeArea_rejects_malformed; [discriminate | reflexivity].
Defined.

(** ** The relevance filter *)

Lemma fold_boost_penalty {A} (f : A -> bool) (b : Z) (l : list A) : forall sc,
  penaltyScore (fold_left (fun sc x => if f x then boost b sc else sc) l sc)
  = penaltyScore sc.
Proof.
  induction l as [|x l IH]; intros sc; simpl; [reflexivity|].
  rewrite IH. destruct (f x); reflexivity.
Qed.

Lemma fold_penalize_le {A} (f : A -> bool) (p : Z) (l : list A) :
  p <= 0 -> forall sc,
  penaltyScore (fold_left (fun sc x => if f x then penalize p sc else sc) l sc)
  <= penaltyScore sc.
Proof.
  intros Hp. induction l as [|x l IH]; intros sc; simpl; [lia|].
  etransitivity; [apply IH|]. destruct (f x); simpl; lia.
Qed.

Lemma penalty_boost_if (b : bool) (x : Z) sc :
  penaltyScore (if b then boost x sc else sc) = penaltyScore sc.
Proof. destruct b; reflexivity. Qed.

Section Penalties.

Variables (nivelEscolar : NivelEscolar) (anoEsperado : option Z)
          (areaBNCC : option jsstring).

(** A code never raises the penalty total. *)
Lemma pontuarCodigo_le sc c :
  penaltyScore (pontuarCodigo nivelEscolar anoEsperado areaBNCC sc c)
  <= penaltyScore sc.
Proof.
  unfold pontuarCodigo.
  repeat match goal with
         | |- context [if ?b then _ else _] => destruct b
         end; simpl; unfold PONTUACAO.PENALIDADE_HABILIDADE_ANO_ERRADO,
    PONTUACAO.PENALIDADE_HABILIDADE_AREA_ERRADA,
    PONTUACAO.PENALIDADE_HABILIDADE_NIVEL_ERRADO; lia.
Qed.

Lemma pontuarCodigo_mismatch sc c :
  validarHabilidadeNivel (Str.toUpperCase c) nivelEscolar = false ->
  penaltyScore (pontuarCodigo nivelEscolar anoEsperado areaBNCC sc c)
  = penaltyScore sc + PONTUACAO.PENALIDADE_HABILIDADE_NIVEL_ERRADO.
Proof. intros H. unfold pontuarCodigo. rewrite H. reflexivity. Qed.

Lemma fold_pontuarCodigo_le cs : forall sc,
  penaltyScore
    (fold_left (pontuarCodigo nivelEscolar anoEsperado areaBNCC) cs sc)
  <= penaltyScore sc.
Proof.
  induction cs as [|c cs IH]; intros sc; simpl; [lia|].
  etransitivity; [apply IH | apply pontuarCodigo_le].
Qed.

Lemma fold_pontuarCodigo_mismatch cs c :
  c ∈ cs ->
  validarHabilidadeNivel (Str.toUpperCase c) nivelEscolar = false ->
  forall sc,
  penaltyScore
    (fold_left (pontuarCodigo nivelEscolar anoEsperado areaBNCC) cs sc)
  <= penaltyScore sc + PONTUACAO.PENALIDADE_HABILIDADE_NIVEL_ERRADO.
Proof.
  intros Hin Hbad. induction Hin as [c cs|c c' cs _ IH]; intros sc; simpl.
  - etransitivity; [apply fold_pontuarCodigo_le|].
    rewrite pontuarCodigo_mismatch by exact Hbad. lia.
  - etransitivity; [apply IH; exact Hbad|].
    pose proof (pontuarCodigo_le sc c'). lia.
Qed.

End Penalties.

(** One level-mismatched code brings the penalty total down to the
    level-mismatch penalty or below. *)
Lemma pontuar_mismatch tema disciplina serie areaBNCC n c :
  c ∈ codigosEncontrados (textoMinusculo n) ->
  validarHabilidadeNivel (Str.toUpperCase c) (detectarNivelEscolar serie)
  = false ->
  penaltyScore (pontuar tema disciplina serie areaBNCC n)
  <= PONTUACAO.PENALIDADE_HABILIDADE_NIVEL_ERRADO.
Proof.
  intros Hin Hbad. unfold pontuar.
  etransitivity;
    [apply fold_penalize_le;
     unfold PONTUACAO.PENALIDADE_MENCIONOU_NIVEL_ERRADO; lia|].
  rewrite penalty_boost_if.
  etransitivity; [eapply fold_pontuarCodigo_mismatch; eassumption|].
  destruct (Re.match1 reNumero serie);
    rewrite ?penalty_boost_if, ?fold_boost_penalty, ?penalty_boost_if;
    simpl; lia.
Qed.

Lemma inserir_elem {A} (cmp : A -> A -> Q) (x y : A) (l : list A) :
  y ∈ inserir cmp x l -> y = x \/ y ∈ l.
Proof.
  induction l as [|z l IH]; simpl; intros H.
  - apply list_elem_of_singleton in H. auto.
  - destruct (Qlt_le_dec 0 (cmp x z)).
    + apply elem_of_cons in H as [->|H]; [right; left|].
      destruct (IH H) as [->|?]; [auto | right; right; assumption].
    + apply elem_of_cons in H as [->|H]; auto.
Qed.

Lemma ordenar_elem {A} (cmp : A -> A -> Q) (y : A) (l : list A) :
  y ∈ ordenar cmp l -> y ∈ l.
Proof.
  induction l as [|x l IH]; simpl; intros H; [exact H|].
  apply inserir_elem in H as [->|H]; [left | right; auto].
Qed.

(** C1 (as amended).  The cutoff of -30 is less negative than the
    level-mismatch penalty of -50: a passage whose text holds even one code
    of the wrong level has a penalty total of -50 or below, fails the
    filter's first test whatever its boosts, and is absent from the result
    of [filtrarNodesPorRelevancia]. *)
Theorem filtrar_removes_level_mismatch
  (nodes : list RAGNode) (tema disciplina serie : jsstring)
  (areaBNCC : option jsstring) (n : RAGNode) (c : jsstring) :
  c ∈ codigosEncontrados (textoMinusculo n) ->
  validarHabilidadeNivel (Str.toUpperCase c) (detectarNivelEscolar serie)
  = false ->
  PONTUACAO.PENALIDADE_HABILIDADE_NIVEL_ERRADO < -30
  /\ penalizacaoNivel (enriquecer tema disciplina serie areaBNCC n)
     <= PONTUACAO.PENALIDADE_HABILIDADE_NIVEL_ERRADO
  /\ manter (enriquecer tema disciplina serie areaBNCC n) = false
  /\ Forall (fun e => raw e <> n)
       (filtrarNodesPorRelevancia nodes tema disciplina serie areaBNCC).
Proof.
  intros Hin Hbad.
  pose proof (pontuar_mismatch tema disciplina serie areaBNCC n c Hin Hbad)
    as Hp.
  assert (Hcut : PONTUACAO.PENALIDADE_HABILIDADE_NIVEL_ERRADO < -30)
    by reflexivity.
  assert (Hm : manter (enriquecer tema disciplina serie areaBNCC n) = false).
  { unfold manter. simpl.
    destruct (Z.ltb_spec
                (penaltyScore (pontuar tema disciplina serie areaBNCC n))
                (-30)); [reflexivity | lia]. }
  repeat split; try assumption.
  apply Forall_forall. intros e He Hraw.
  unfold filtrarNodesPorRelevancia in He.
  apply ordenar_elem, list_elem_of_In, filter_In in He as [He Hk].
  apply in_map_iff in He as (n' & <- & _). simpl in Hraw. subst n'.
  rewrite Hm in Hk. discriminate.
Qed.

Lemma filtrar_removes_level_mismatch_witness :
  PONTUACAO.PENALIDADE_HABILIDADE_NIVEL_ERRADO < -30
  /\ penalizacaoNivel
       (enriquecer (js "Guerra Fria") (js "História") (js "2ª SÉRIE") None
          trechoNivelErrado)
     <= PONTUACAO.PENALIDADE_HABILIDADE_NIVEL_ERRADO
  /\ manter
       (enriquecer (js "Guerra Fria") (js "História") (js "2ª SÉRIE") None
          trechoNivelErrado) = false
  /\ Forall (fun e => raw e <> trechoNivelErrado)
       (filtrarNodesPorRelevancia [trechoNivelErrado]
          (js "Guerra Fria") (js "História") (js "2ª SÉRIE") None).
Proof.
  apply (filtrar_removes_level_mismatch _ _ _ _ _ _ (js "ef09ge01")).
  - vm_compute. left.
  - reflexivity.
Defined.

(** A passage on the topic whose only penalty is one code of the wrong
    level: its penalty total is exactly the level-mismatch penalty, its
    boost is positive, and the filter removes it. *)
Lemma single_level_mismatch_is_removed :
  codigosEncontrados (textoMinusculo trechoNivelErrado) = [js "ef09ge01"]
  /\ pontuar (js "Guerra Fria") (js "História") (js "2ª SÉRIE") None
       trechoNivelErrado
     = {| boostScore := 100;
          penaltyScore := PONTUACAO.PENALIDADE_HABILIDADE_NIVEL_ERRADO |}
  /\ filtrarNodesPorRelevancia [trechoNivelErrado] (js "Guerra Fria")
       (js "História") (js "2ª SÉRIE") None = [].
Proof. vm_compute. repeat split. Qed.

(** ** Page deduplication *)

Lemma visitar_ok maxNodes st n :
  unicos_ok maxNodes st -> unicos_ok maxNodes (visitar maxNodes st n).
Proof.
  intros (Hnd & Hall & Hlen). unfold visitar.
  destruct (nodePage (raw n)) as [page|] eqn:Hp; [|repeat split; assumption].
  destruct (negb (page =? 0)) eqn:Hz; [|repeat split; assumption].
  destruct (bool_decide (page ∈ seenPages st)) eqn:Hs;
    [repeat split; assumption|].
  destruct (Z.of_nat (length (uniqueNodes st)) <? maxNodes) eqn:Hm;
    [|repeat split; assumption].
  simpl. apply bool_decide_eq_false in Hs. apply Z.ltb_lt in Hm.
  repeat split; simpl.
  - unfold paginas. rewrite map_app. simpl.
    apply NoDup_app. split; [exact Hnd|]. split; [|apply NoDup_singleton].
    intros o Ho Hin. apply list_elem_of_singleton in Hin. subst o.
    apply list_elem_of_In, in_map_iff in Ho as (n' & Hn' & Hin').
    rewrite Forall_forall in Hall.
    apply list_elem_of_In in Hin'.
    destruct (Hall n' Hin') as (_ & p' & Hp' & Hseen).
    assert (p' = page) as -> by congruence. contradiction.
  - apply Forall_app. split.
    + eapply Forall_impl; [exact Hall|].
      intros n' (Hr & p' & Hp' & Hseen). split; [exact Hr|].
      exists p'. split; [exact Hp'|]. set_solver.
    + constructor; [|constructor]. split.
      * unfold paginaResolvida. rewrite Hp. exact Hz.
      * exists page. split; [exact Hp|]. set_solver.
  - rewrite length_app. simpl. lia.
Qed.

Lemma fold_visitar_ok maxNodes nodes : forall st,
  unicos_ok maxNodes st ->
  unicos_ok maxNodes (fold_left (visitar maxNodes) nodes st).
Proof.
  induction nodes as [|n nodes IH]; intros st H; simpl; [exact H|].
  apply IH, visitar_ok, H.
Qed.

(** C7.  For every list of scored passages and every count [maxNodes], the
    output of [removerNodesDuplicados] has pairwise distinct source
    locations, at most [maxNodes] passages, and only passages whose source
    location is resolvable. *)
Theorem removerNodesDuplicados_unique_bounded
  (nodes : list EnrichedNode) (maxNodes : Z) :
  0 <= maxNodes ->
  NoDup (paginas (removerNodesDuplicados nodes maxNodes))
  /\ Z.of_nat (length (removerNodesDuplicados nodes maxNodes)) <= maxNodes
  /\ Forall (fun n => paginaResolvida n = true)
       (removerNodesDuplicados nodes maxNodes).
Proof.
  intros Hmax. unfold removerNodesDuplicados.
  destruct (fold_visitar_ok maxNodes nodes
              {| uniqueNodes := []; seenPages := ∅ |})
    as (Hnd & Hall & Hlen).
  { repeat split; simpl; [constructor | constructor | lia]. }
  repeat split.
  - exact Hnd.
  - lia.
  - eapply Forall_impl; [exact Hall|]. intros n [H _]. exact H.
Qed.

Lemma removerNodesDuplicados_unique_bounded_witness :
  NoDup (paginas (removerNodesDuplicados passagensRepetidas 2))
  /\ Z.of_nat (length (removerNodesDuplicados passagensRepetidas 2)) <= 2
  /\ Forall (fun n => paginaResolvida n = true)
       (removerNodesDuplicados passagensRepetidas 2).
Proof.
  apply (removerNodesDuplicados_unique_bounded passagensRepetidas 2). lia.
Defined.

(** ** Skill extraction *)

Local Open Scope nat_scope.

Lemma percorrer_capturas fuel texto : forall lastIndex h,
  percorrer fuel texto lastIndex h
  = fold_left registrar (capturas fuel texto lastIndex) h.
Proof.
  induction fuel as [|fuel IH]; intros i h; simpl; [reflexivity|].
  destruct (Re.exec _ texto i) as [m|]; simpl; [apply IH | reflexivity].
Qed.

(** The map is the merge of all captures, in order. *)
Lemma coletar_capturas nodes :
  coletar nodes = fold_left registrar (todasCapturas nodes) [].
Proof.
  unfold coletar, todasCapturas. generalize (@nil (jsstring * jsstring)).
  induction nodes as [|n nodes IH]; intros h; cbn [fold_left flat_map];
    [reflexivity|].
  rewrite fold_left_app, <- percorrer_capturas. apply IH.
Qed.

Lemma mapGet_None h k : mapGet h k = None -> k ∉ h.*1.
Proof.
  induction h as [|[k' v'] h IH]; simpl; intros H; [apply not_elem_of_nil|].
  case_bool_decide as E; [discriminate|].
  apply not_elem_of_cons. split; [congruence | auto].
Qed.

Lemma mapGet_NoDup h k v : NoDup h.*1 -> (k, v) ∈ h -> mapGet h k = Some v.
Proof.
  induction h as [|[k' v'] h IH]; simpl; intros Hnd Hin.
  - apply elem_of_nil in Hin. contradiction.
  - apply NoDup_cons in Hnd as [Hk Hnd].
    apply elem_of_cons in Hin as [[= -> ->]|Hin].
    + rewrite bool_decide_eq_true_2 by reflexivity. reflexivity.
    + case_bool_decide as E; [|auto].
      subst k'. exfalso. apply Hk. apply list_elem_of_fmap.
      exists (k, v). auto.
Qed.

Lemma mapSet_keys h k v :
  (mapSet h k v).*1 = if mapHas h k then h.*1 else h.*1 ++ [k].
Proof.
  unfold mapHas. induction h as [|[k' v'] h IH]; [reflexivity|].
  cbn [mapSet mapGet]. case_bool_decide as E.
  - subst. reflexivity.
  - rewrite !fmap_cons, IH. destruct (mapGet h k); reflexivity.
Qed.

Lemma mapGet_mapSet h k v k' :
  mapGet (mapSet h k v) k' = if decide (k' = k) then Some v else mapGet h k'.
Proof.
  induction h as [|[k0 v0] h IH]; simpl.
  - case_bool_decide; destruct (decide (k' = k)); congruence.
  - case_bool_decide as E; simpl.
    + subst k0. case_bool_decide; destruct (decide (k' = k)); congruence.
    + rewrite IH. case_bool_decide; destruct (decide (k' = k)); congruence.
Qed.

Lemma mapSet_NoDup h k v : NoDup h.*1 -> NoDup (mapSet h k v).*1.
Proof.
  intros Hnd. rewrite mapSet_keys. unfold mapHas.
  destruct (mapGet h k) eqn:E; [exact Hnd|].
  apply NoDup_app. split; [exact Hnd|]. split; [|apply NoDup_singleton].
  intros x Hx Hin. apply list_elem_of_singleton in Hin. subst x.
  apply mapGet_None in E. contradiction.
Qed.

(** One update of the map keeps the invariant. *)
Lemma registrar_ok h seen cd :
  mapa_ok h seen -> mapa_ok (registrar h cd) (seen ++ [cd]).
Proof.
  intros (Hnd & Hin & Hmax). destruct cd as [k0 d0]. unfold registrar, mapHas.
  destruct (Nat.ltb_spec 10 (length d0)) as [Hlong|Hshort].
  - destruct (mapGet h k0) as [v1|] eqn:Hget; simpl.
    + destruct (Nat.ltb_spec (length v1) (length d0)) as [Hlt|Hge].
      * split; [apply mapSet_NoDup, Hnd|]. split.
        -- intros k v. rewrite mapGet_mapSet.
           destruct (decide (k = k0)) as [->|Hne].
           ++ intros [= <-].
              split; [apply elem_of_app; right; left | exact Hlong].
           ++ intros H. destruct (Hin k v H).
              split; [apply elem_of_app; auto | assumption].
        -- intros k d Hd. rewrite mapGet_mapSet.
           apply elem_of_app in Hd as [Hd|Hd].
           ++ destruct (decide (k = k0)) as [->|Hne].
              ** destruct (Hmax k0 d Hd) as [?|(v & Hv & Hle)]; [auto|].
                 right. exists d0. split; [reflexivity|]. rewrite Hget in Hv.
                 injection Hv as <-. lia.
              ** apply Hmax, Hd.
           ++ apply list_elem_of_singleton in Hd as [= -> ->].
              rewrite decide_True by reflexivity. right. eauto.
      * split; [exact Hnd|]. split.
        -- intros k v H. destruct (Hin k v H).
           split; [apply elem_of_app; auto | assumption].
        -- intros k d Hd.
           apply elem_of_app in Hd as [Hd|Hd]; [apply Hmax, Hd|].
           apply list_elem_of_singleton in Hd as [= -> ->]. right. eauto.
    + split; [apply mapSet_NoDup, Hnd|]. split.
      * intros k v. rewrite mapGet_mapSet.
        destruct (decide (k = k0)) as [->|Hne].
        -- intros [= <-].
           split; [apply elem_of_app; right; left | exact Hlong].
        -- intros H. destruct (Hin k v H).
           split; [apply elem_of_app; auto | assumption].
      * intros k d Hd. rewrite mapGet_mapSet.
        apply elem_of_app in Hd as [Hd|Hd].
        -- destruct (decide (k = k0)) as [->|Hne]; [|apply Hmax, Hd].
           destruct (Hmax k0 d Hd) as [?|(v & Hv & Hle)]; [auto | congruence].
        -- apply list_elem_of_singleton in Hd as [= -> ->].
           rewrite decide_True by reflexivity. right. eauto.
  - split; [exact Hnd|]. split.
    + intros k v H. destruct (Hin k v H).
      split; [apply elem_of_app; auto | assumption].
    + intros k d Hd. apply elem_of_app in Hd as [Hd|Hd]; [apply Hmax, Hd|].
      apply list_elem_of_singleton in Hd as [= -> ->]. auto.
Qed.

Lemma fold_registrar_ok cs : forall h seen,
  mapa_ok h seen -> mapa_ok (fold_left registrar cs h) (seen ++ cs).
Proof.
  induction cs as [|cd cs IH]; intros h seen H; simpl.
  - rewrite app_nil_r. exact H.
  - replace (seen ++ cd :: cs) with ((seen ++ [cd]) ++ cs)
      by (rewrite <- app_assoc; reflexivity).
    apply IH, registrar_ok, H.
Qed.

Lemma coletar_ok nodes : mapa_ok (coletar nodes) (todasCapturas nodes).
Proof.
  rewrite coletar_capturas. apply (fold_registrar_ok _ [] []).
  split; [constructor|]. split.
  - intros k v [=].
  - intros k d Hd. apply elem_of_nil in Hd. contradiction.
Qed.

Lemma filter_sublist {A} (f : A -> bool) (l : list A) :
  List.filter f l `sublist_of` l.
Proof.
  induction l as [|x l IH]; simpl; [constructor|].
  destruct (f x); [apply sublist_skip | apply sublist_cons]; exact IH.
Qed.

Lemma map_fmap {A B} (f : A -> B) (l : list A) : List.map f l = f <$> l.
Proof.
  induction l as [|x l IH]; simpl; [reflexivity | rewrite IH; reflexivity].
Qed.

(** The records returned are entries of the map, in map order. *)
Lemma extrair_entries nodes nivel area ano :
  exists es, es `sublist_of` coletar nodes
             /\ extrairHabilidadesBNCC nodes nivel area ano
                = List.map (fun e => {| codigo := e.1; descricao := e.2 |}) es.
Proof.
  eexists. split; [|reflexivity].
  etransitivity; [apply sublist_take | apply filter_sublist].
Qed.

(** C6.  For every passage list and every level, area and grade constraint,
    the records returned by [extrairHabilidadesBNCC] have pairwise distinct
    codes; each record's description is one of the descriptions captured for
    its code, and no description captured for that code is longer. *)
Theorem extrair_unique_longest
  (nodes : list EnrichedNode) (nivel : NivelEscolar)
  (area : option jsstring) (ano : option Z) :
  NoDup (List.map codigo (extrairHabilidadesBNCC nodes nivel area ano))
  /\ Forall
       (fun h =>
          (codigo h, descricao h) ∈ todasCapturas nodes
          /\ Forall (fun cd => length cd.2 <= length (descricao h))
               (List.filter (fun cd => bool_decide (cd.1 = codigo h))
                  (todasCapturas nodes)))
       (extrairHabilidadesBNCC nodes nivel area ano).
Proof.
  destruct (extrair_entries nodes nivel area ano) as (es & Hsub & ->).
  destruct (coletar_ok nodes) as (Hnd & Hin & Hmax).
  split.
  - rewrite map_map. simpl. rewrite map_fmap.
    eapply sublist_NoDup; [exact Hnd | apply (fmap_sublist fst), Hsub].
  - apply Forall_forall. intros h Hh.
    apply list_elem_of_In, in_map_iff in Hh as ([k v] & <- & He). simpl.
    apply list_elem_of_In in He.
    assert (Hget : mapGet (coletar nodes) k = Some v).
    { apply mapGet_NoDup; [exact Hnd|]. eapply elem_of_sublist; eassumption. }
    destruct (Hin k v Hget) as [Hcap Hlong]. split; [exact Hcap|].
    apply Forall_forall. intros [k' d] Hd.
    apply list_elem_of_In, filter_In in Hd as [Hd Hk]. simpl in *.
    apply bool_decide_eq_true in Hk. subst k'.
    apply list_elem_of_In in Hd.
    destruct (Hmax k d Hd) as [?|(v' & Hv' & Hle)]; [lia|].
    rewrite Hget in Hv'. injection Hv' as <-. exact Hle.
Qed.

Local Open Scope Z_scope.

(** ** Aggregation and final validation *)

Lemma executar_nodes engine qs : forall i results,
  flat_map run_nodes (executar engine i qs results)
  = flat_map run_nodes results
    ++ concat (imap (fun j => nodesDaQuery engine (i + j)) qs).
Proof.
  induction qs as [|q qs IH]; intros i results; simpl.
  - rewrite app_nil_r. reflexivity.
  - unfold nodesDaQuery at 1. rewrite Nat.add_0_r.
    destruct (engine i q) as [r|]; rewrite IH.
    + rewrite flat_map_app. simpl. rewrite app_nil_r, <- app_assoc.
      f_equal. f_equal. f_equal. apply imap_ext. intros j x _. simpl.
      f_equal. lia.
    + simpl. f_equal. f_equal. apply imap_ext. intros j x _. simpl.
      f_equal. lia.
Qed.

Lemma executar_falho qs : forall i results,
  executar engineFalho i qs results = results.
Proof.
  induction qs as [|q qs IH]; intros i results; simpl; [reflexivity | apply IH].
Qed.

(** C5 (as amended).  With the engine initialised, [consultarBNCC] always
    returns, whatever the planned queries do: the passages it scores are
    those of the queries that returned, in order, a query that throws
    contributing none.  The failure of queries, of one or of all of them,
    never fails the call: when every query throws the call returns an empty
    response, no passage and no skill. *)
Theorem consultarBNCC_isolates_query_failures
  (engine : Engine) (tema disciplina serie anoSerie : jsstring) :
  (exists r,
     consultarBNCC (Returned engine) tema disciplina serie anoSerie = Returned r
     /\ queries r
        = planejarQueries tema disciplina serie anoSerie
            (detectarNivelEscolar serie)
            (detectarAreaBNCC disciplina (Some (detectarNivelEscolar serie)))
            (extrairNumeroAno serie)
     /\ sourceNodes r
        = removerNodesDuplicados
            (filtrarNodesPorRelevancia (agregados engine (queries r))
               tema disciplina serie
               (detectarAreaBNCC disciplina
                  (Some (detectarNivelEscolar serie))))
            10
     /\ habilidades r
        = extrairHabilidadesBNCC (sourceNodes r) (detectarNivelEscolar serie)
            (detectarAreaBNCC disciplina (Some (detectarNivelEscolar serie)))
            (extrairNumeroAno serie))
  /\ (exists r0,
        consultarBNCC (Returned engineFalho) tema disciplina serie anoSerie
        = Returned r0
        /\ response r0 = [] /\ sourceNodes r0 = [] /\ habilidades r0 = []).
Proof.
  split.
  - eexists. split; [reflexivity|].
    cbn [queries sourceNodes habilidades]. split; [reflexivity|].
    split; [|reflexivity].
    rewrite executar_nodes. reflexivity.
  - eexists. split; [reflexivity|].
    cbn [response sourceNodes habilidades].
    rewrite executar_falho. repeat split.
Qed.

(** Every planned query throws, and the call still returns: five queries
    planned, no passage, no skill. *)
Lemma all_queries_fail_still_returns :
  consultarBNCC (Returned engineFalho) (js "Guerra Fria") (js "História")
    (js "9º ano") (js "Ensino fundamental")
  = Returned
      {| response := [];
         sourceNodes := [];
         queries :=
           planejarQueries (js "Guerra Fria") (js "História") (js "9º ano")
             (js "Ensino fundamental") fundamental (Some (js "HI")) (Some 9);
         habilidades := [] |}
  /\ length
       (planejarQueries (js "Guerra Fria") (js "História") (js "9º ano")
          (js "Ensino fundamental") fundamental (Some (js "HI")) (Some 9))
     = 5%nat
  /\ (forall i q, engineFalho i q = Thrown).
Proof. split; [|split]; reflexivity. Qed.

Lemma filter_Forall_id {A} (f : A -> bool) (l : list A) :
  Forall (fun x => f x = true) l -> List.filter f l = l.
Proof.
  induction 1 as [|x l Hx _ IH]; simpl; [reflexivity|].
  rewrite Hx, IH. reflexivity.
Qed.

Lemma Forall_filter_true {A} (f : A -> bool) (l : list A) :
  Forall (fun x => f x = true) (List.filter f l).
Proof.
  apply Forall_forall. intros x Hx.
  apply list_elem_of_In, filter_In in Hx. tauto.
Qed.

(** Every record returned by the extractor has a code of the level asked. *)
Lemma extrair_nivel_valido nodes nivel area ano :
  Forall (fun h => validarHabilidadeNivel (codigo h) nivel = true)
    (extrairHabilidadesBNCC nodes nivel area ano).
Proof.
  unfold extrairHabilidadesBNCC. apply Forall_forall. intros h Hh.
  apply list_elem_of_In, in_map_iff in Hh as (e & <- & He). simpl.
  apply list_elem_of_In, elem_of_take in He as (i & He & _).
  apply list_elem_of_lookup_2, list_elem_of_In, filter_In in He as [_ He].
  unfold habilidadeValida in He.
  apply andb_true_iff in He as [He _]. apply andb_true_iff in He as [He _].
  exact He.
Qed.

(** C9.  Filtering by [validarHabilidadeNivel] at a fixed level is
    idempotent: a list already filtered is returned unchanged.  In
    particular the controller's final validation removes nothing from the
    extractor's output, nor from the skills [consultarBNCC] returns. *)
Theorem validarHabilidadeNivel_refilter_noop
  (codigos : list jsstring) (nivel : NivelEscolar)
  (nodes : list EnrichedNode) (area : option jsstring) (ano : option Z)
  (engine : outcome Engine) (tema disciplina serie anoSerie : jsstring) :
  List.filter (fun c => validarHabilidadeNivel c nivel)
    (List.filter (fun c => validarHabilidadeNivel c nivel) codigos)
  = List.filter (fun c => validarHabilidadeNivel c nivel) codigos
  /\ habilidadesValidas (extrairHabilidadesBNCC nodes nivel area ano) nivel
     = extrairHabilidadesBNCC nodes nivel area ano
  /\ match consultarBNCC engine tema disciplina serie anoSerie with
     | Returned bnccResponse =>
         habilidadesValidas (habilidades bnccResponse)
           (detectarNivelEscolar serie)
         = habilidades bnccResponse
     | Thrown => True
     end.
Proof.
  split; [|split].
  - apply filter_Forall_id, Forall_filter_true.
  - apply filter_Forall_id, extrair_nivel_valido.
  - destruct engine as [e|]; simpl; [|exact I].
    apply filter_Forall_id, extrair_nivel_valido.
Qed.

(** * Further properties *)

Local Open Scope Z_scope.

(** ** Further properties of the validators *)

Lemma digit_not_upper c : Str.isDigit c = true -> Re.range 65 90 c = false.
Proof.
  unfold Str.isDigit, Re.range. intros H.
  apply andb_true_iff in H as [_ H]. apply N.leb_le in H.
  destruct (N.leb_spec 65 c); [lia | reflexivity].
Qed.

Lemma formaCodigo_length codigo nLetras nSeq :
  formaCodigo codigo nLetras nSeq = true ->
  length codigo = (4 + nLetras + nSeq)%nat.
Proof.
  unfold formaCodigo. intros H.
  repeat (apply andb_true_iff in H as [H ?]).
  repeat match goal with
         | H : (_ =? _)%nat = true |- _ => apply Nat.eqb_eq in H
         end.
  rewrite ?length_take, ?length_drop in *. lia.
Qed.

Ltac split_andb :=
  repeat match goal with
         | H : _ && _ = true |- _ => apply andb_true_iff in H as [? ?]
         | H : true = true |- _ => clear H
         | H : (_ =? _)%N = true |- _ => apply N.eqb_eq in H; subst
         end.

(** The three shapes of a code found by the extractor's pattern. *)
Lemma codigoHabilidade_cases codigo :
  codigoHabilidade codigo = true ->
  (exists d1 d2 l1 l2 n1 n2,
      codigo = [69; 70; d1; d2; l1; l2; n1; n2]%N
      /\ Forall (fun c => Str.isDigit c = true) [d1; d2; n1; n2]
      /\ Forall (fun c => Re.range 65 90 c = true) [l1; l2])
  \/ (exists d1 d2 l1 l2 l3 n1 n2,
         codigo = [69; 77; d1; d2; l1; l2; l3; n1; n2]%N
         /\ Forall (fun c => Str.isDigit c = true) [d1; d2; n1; n2]
         /\ Forall (fun c => Re.range 65 90 c = true) [l1; l2; l3])
  \/ (exists d1 d2 l1 l2 l3 n1 n2 n3,
         codigo = [69; 77; d1; d2; l1; l2; l3; n1; n2; n3]%N
         /\ Forall (fun c => Str.isDigit c = true) [d1; d2; n1; n2; n3]
         /\ Forall (fun c => Re.range 65 90 c = true) [l1; l2; l3]).
Proof.
  unfold codigoHabilidade. rewrite js_EF, js_EM. intros H.
  apply orb_true_iff in H as [H|H]; apply andb_true_iff in H as [Hp H].
  - left. pose proof (formaCodigo_length _ _ _ H) as Hl.
    do 8 (destruct codigo as [|? codigo]; [discriminate|]).
    destruct codigo; [|discriminate].
    cbn [Str.startsWith] in Hp. unfold formaCodigo in H.
    cbn [take drop forallb Nat.add] in H. split_andb.
    do 6 eexists. split; [reflexivity|]. split; repeat constructor; assumption.
  - right. apply orb_true_iff in H as [H|H];
      pose proof (formaCodigo_length _ _ _ H) as Hl.
    + left. do 9 (destruct codigo as [|? codigo]; [discriminate|]).
      destruct codigo; [|discriminate].
      cbn [Str.startsWith] in Hp. unfold formaCodigo in H.
      cbn [take drop forallb Nat.add] in H. split_andb.
      do 7 eexists. split; [reflexivity|].
      split; repeat constructor; assumption.
    + right. do 10 (destruct codigo as [|? codigo]; [discriminate|]).
      destruct codigo; [|discriminate].
      cbn [Str.startsWith] in Hp. unfold formaCodigo in H.
      cbn [take drop forallb Nat.add] in H. split_andb.
      do 8 eexists. split; [reflexivity|].
      split; repeat constructor; assumption.
Qed.

Ltac use_classes :=
  repeat match goal with
         | H : Forall _ (_ :: _) |- _ => inversion H; subst; clear H
         | H : Forall _ [] |- _ => clear H
         end;
  repeat match goal with
         | H : Str.isDigit ?c = true |- _ =>
             pose proof (digit_not_upper c H); rewrite ?H; revert H
         end; intros;
  repeat match goal with
         | H : _ = _ |- _ => rewrite !H
         end.

(** On a code of the extractor's grammar the area pattern matches, and its
    second group holds the area letters. *)
Lemma reCodigoArea_complete codigo :
  codigoHabilidade codigo = true ->
  exists m, Re.match1 reCodigoArea codigo = Some m
            /\ grp 2 m = letrasDoCodigo codigo.
Proof.
  intros H. unfold letrasDoCodigo. rewrite js_EM.
  destruct (codigoHabilidade_cases codigo H)
    as [(d1 & d2 & l1 & l2 & n1 & n2 & -> & Hd & Hl)
       |[(d1 & d2 & l1 & l2 & l3 & n1 & n2 & -> & Hd & Hl)
        |(d1 & d2 & l1 & l2 & l3 & n1 & n2 & n3 & -> & Hd & Hl)]];
    unfold reCodigoArea, Re.digit, Re.upper, Re.Opt; rewrite js_EF, js_EM;
    cbn; use_classes; cbn; use_classes; cbn;
    eexists; (split; [reflexivity|]); reflexivity.
Qed.

(** A code of the extractor's grammar is of one level, and its area has
    the letter count of that level. *)
Lemma codigoHabilidade_nivel codigo :
  codigoHabilidade codigo = true ->
  (Str.startsWith codigo (js "EF") = true
   /\ Str.startsWith codigo (js "EM") = false
   /\ length (letrasDoCodigo codigo) = 2%nat)
  \/ (Str.startsWith codigo (js "EM") = true
      /\ Str.startsWith codigo (js "EF") = false
      /\ length (letrasDoCodigo codigo) = 3%nat).
Proof.
  intros H. unfold letrasDoCodigo.
  destruct (codigoHabilidade_cases codigo H)
    as [(d1 & d2 & l1 & l2 & n1 & n2 & -> & _)
       |[(d1 & d2 & l1 & l2 & l3 & n1 & n2 & -> & _)
        |(d1 & d2 & l1 & l2 & l3 & n1 & n2 & n3 & -> & _)]];
    [left | right | right]; repeat split; reflexivity.
Qed.

(** X1.  No code passes the level check at both levels, and a code of the
    extractor's grammar passes it at exactly one. *)
Theorem validarHabilidadeNivel_exclusive (codigo outro : jsstring) :
  codigoHabilidade codigo = true ->
  validarHabilidadeNivel outro medio && validarHabilidadeNivel outro fundamental
  = false
  /\ validarHabilidadeNivel codigo medio
     = negb (validarHabilidadeNivel codigo fundamental).
Proof.
  intros H. split.
  - unfold validarHabilidadeNivel. rewrite js_EF, js_EM.
    destruct outro as [|a [|b outro]]; cbn [Str.startsWith];
      rewrite ?andb_false_r; try reflexivity.
    rewrite !andb_true_r.
    destruct (N.eqb_spec 69 a); [|reflexivity].
    destruct (N.eqb_spec 77 b) as [<-|]; reflexivity.
  - unfold validarHabilidadeNivel.
    destruct (codigoHabilidade_nivel codigo H) as [(-> & -> & _)|(-> & -> & _)];
      reflexivity.
Qed.

Lemma validarHabilidadeNivel_exclusive_witness :
  validarHabilidadeNivel (js "EM13CHS101") medio
  && validarHabilidadeNivel (js "EM13CHS101") fundamental = false
  /\ validarHabilidadeNivel (js "EF09GE01") medio
     = negb (validarHabilidadeNivel (js "EF09GE01") fundamental).
Proof.
  apply (validarHabilidadeNivel_exclusive (js "EF09GE01") (js "EM13CHS101")).
  reflexivity.
Defined.

(** X2.  With a two-letter expected area, a code of the extractor's grammar
    passes the area check iff it is an EF code whose two area letters are the
    expected ones; an EM code never passes. *)
Theorem validarHabilidadeArea_two_letters (codigo area : jsstring) :
  codigoHabilidade codigo = true ->
  length area = 2%nat ->
  validarHabilidadeArea codigo (Some area) = true
  <-> Str.startsWith codigo (js "EF") = true /\ letrasDoCodigo codigo = area.
Proof.
  intros H Ha.
  destruct (reCodigoArea_complete codigo H) as (m & Hm & Hg).
  unfold validarHabilidadeArea. destruct area as [|a area]; [discriminate|].
  rewrite Hm, Hg, Ha. cbn [Nat.eqb].
  destruct (codigoHabilidade_nivel codigo H) as [(-> & _ & Hl)|(_ & -> & Hl)].
  - rewrite bool_decide_eq_true. tauto.
  - rewrite bool_decide_eq_true. split; [|intros [[=] _]].
    intros E. rewrite E, Ha in Hl. discriminate.
Qed.

Lemma validarHabilidadeArea_two_letters_witness :
  validarHabilidadeArea (js "EF09GE01") (Some (js "GE")) = true
  <-> Str.startsWith (js "EF09GE01") (js "EF") = true
      /\ letrasDoCodigo (js "EF09GE01") = js "GE".
Proof.
  apply validarHabilidadeArea_two_letters; reflexivity.
Defined.

Lemma lookup_key_In t k v : lookup_key t k = Some v -> In (k, v) t.
Proof.
  induction t as [|[k' v'] t IH]; simpl; [discriminate|].
  case_bool_decide as E.
  - intros [= ->]. subst. left. reflexivity.
  - intros H. right. auto.
Qed.

Lemma lookup_key_NoDup t k v :
  NoDup (List.map fst t) -> In (k, v) t -> lookup_key t k = Some v.
Proof.
  induction t as [|[k' v'] t IH]; simpl; intros Hnd Hin; [contradiction|].
  apply NoDup_cons in Hnd as [Hk Hnd].
  destruct Hin as [[= -> ->]|Hin].
  - rewrite bool_decide_eq_true_2 by reflexivity. reflexivity.
  - case_bool_decide as E; [|auto].
    subst k'. exfalso. apply Hk. apply list_elem_of_In, in_map_iff.
    exists (k, v). auto.
Qed.

Lemma mapeamentoFundamentalParaArea_NoDup :
  NoDup (List.map fst mapeamentoFundamentalParaArea).
Proof. apply (bool_decide_unpack _). vm_compute. exact I. Qed.

(** X3.  With a three-letter expected area, an EM code of the extractor's
    grammar passes the area check iff its three area letters are the expected
    ones, and an EF code passes iff the translation table sends its two
    letters to the expected area (HI and GE to CHS; LP, AR, EF and LI to LGG;
    MA to MAT; CI to CNT). *)
Theorem validarHabilidadeArea_three_letters (codigo area : jsstring) :
  codigoHabilidade codigo = true ->
  length area = 3%nat ->
  validarHabilidadeArea codigo (Some area) = true
  <-> (Str.startsWith codigo (js "EM") = true /\ letrasDoCodigo codigo = area)
      \/ (Str.startsWith codigo (js "EF") = true
          /\ In (letrasDoCodigo codigo, area) mapeamentoFundamentalParaArea).
Proof.
  intros H Ha.
  destruct (reCodigoArea_complete codigo H) as (m & Hm & Hg).
  unfold validarHabilidadeArea. destruct area as [|a area]; [discriminate|].
  rewrite Hm, Hg, Ha. cbn [Nat.eqb andb].
  destruct (codigoHabilidade_nivel codigo H) as [(HF & HM & Hl)|(HM & HF & Hl)];
    rewrite HM, ?HF; rewrite bool_decide_eq_true.
  - split.
    + intros E. right. split; [reflexivity|]. apply lookup_key_In, E.
    + intros [[[=] _]|[_ E]].
      apply lookup_key_NoDup;
        [apply mapeamentoFundamentalParaArea_NoDup | exact E].
  - split; [intros E; left; auto|].
    intros [[_ E]|[[=] _]]. exact E.
Qed.

Lemma validarHabilidadeArea_three_letters_witness :
  validarHabilidadeArea (js "EF09HI01") (Some (js "CHS")) = true
  <-> (Str.startsWith (js "EF09HI01") (js "EM") = true
       /\ letrasDoCodigo (js "EF09HI01") = js "CHS")
      \/ (Str.startsWith (js "EF09HI01") (js "EF") = true
          /\ In (letrasDoCodigo (js "EF09HI01"), js "CHS")
               mapeamentoFundamentalParaArea).
Proof.
  apply validarHabilidadeArea_three_letters; reflexivity.
Defined.

Local Open Scope Z_scope.

(** A pattern that begins with a digit only matches where there is one. *)
Lemma digit_first_needs_digit r s m :
  Re.match1 (Re.Seq (Re.Group 1 (Re.Plus Re.digit)) r) s = Some m
  \/ Re.match1 (Re.Group 1 (Re.Plus Re.digit)) s = Some m ->
  semDigitos s = false.
Proof.
  intros H.
  assert (exists pre x suf, s = pre ++ x :: suf /\ Str.isDigit x = true)
    as (pre & x & suf & -> & Hx).
  { destruct H as [H|H];
      apply match1_sound in H as (pre & suf & s' & -> & _ & St);
      unfold Re.Plus, Re.digit in St; inv_steps; eauto. }
  unfold semDigitos. rewrite forallb_app. cbn [forallb]. rewrite Hx.
  cbn [negb andb]. apply andb_false_r.
Qed.

(** X4.  A grade label without any decimal digit has no grade:
    [extrairNumeroAno] returns [null] on it, grade word or not. *)
Theorem extrairNumeroAno_no_digit (serie : jsstring) :
  semDigitos serie = true -> extrairNumeroAno serie = None.
Proof.
  intros H. unfold extrairNumeroAno.
  destruct (Re.match1 reAnoSerie serie) as [m|] eqn:E1.
  { unfold reAnoSerie in E1.
    rewrite (digit_first_needs_digit _ _ _ (or_introl E1)) in H. discriminate. }
  destruct (Re.match1 reNumero serie) as [m|] eqn:E2; [|reflexivity].
  unfold reNumero in E2.
  rewrite (digit_first_needs_digit Re.Eps _ _ (or_intror E2)) in H.
  discriminate.
Qed.

Lemma extrairNumeroAno_no_digit_witness :
  extrairNumeroAno (js "primeiro ano do ensino médio") = None.
Proof. apply extrairNumeroAno_no_digit. reflexivity. Defined.

(** The values of the two subject tables. *)
Lemma lookup_MAPEAMENTO_MEDIO k v :
  lookup_key MAPEAMENTO_MEDIO k = Some v -> In v areasMedio.
Proof.
  intros H. apply lookup_key_In in H.
  assert (Hall : Forall (fun kv => In kv.2 areasMedio) MAPEAMENTO_MEDIO).
  { apply (bool_decide_unpack _). vm_compute. exact I. }
  rewrite Forall_forall in Hall. apply list_elem_of_In in H.
  exact (Hall _ H).
Qed.

Lemma lookup_MAPEAMENTO_FUNDAMENTAL k v :
  lookup_key MAPEAMENTO_FUNDAMENTAL k = Some v -> In v areasFundamental.
Proof.
  intros H. apply lookup_key_In in H.
  assert (Hall : Forall (fun kv => In kv.2 areasFundamental)
                   MAPEAMENTO_FUNDAMENTAL).
  { apply (bool_decide_unpack _). vm_compute. exact I. }
  rewrite Forall_forall in Hall. apply list_elem_of_In in H.
  exact (Hall _ H).
Qed.

(** X5.  For a subject whose normal form is not the name of an inherited
    property, the area [detectarAreaBNCC] finds has the letter count of the
    level asked: one of CHS, LGG, MAT, CNT for [medio], one of the eight
    two-letter codes for [fundamental]; without a level it is one or the
    other.  It is never the empty string. *)
Theorem detectarAreaBNCC_shape (disciplina : jsstring) :
  inList propriedadesHerdadas (Str.trim (Str.toLowerCase disciplina)) = false ->
  match detectarAreaBNCC disciplina (Some medio) with
  | Some area => In area areasMedio
  | None => True
  end
  /\ match detectarAreaBNCC disciplina (Some fundamental) with
     | Some area => In area areasFundamental
     | None => True
     end
  /\ match detectarAreaBNCC disciplina None with
     | Some area => In area areasMedio \/ In area areasFundamental
     | None => True
     end
  /\ Forall (fun area => length area = 3%nat) areasMedio
  /\ Forall (fun area => length area = 2%nat) areasFundamental.
Proof.
  intros _.
  pose proof lookup_MAPEAMENTO_MEDIO as HM.
  pose proof lookup_MAPEAMENTO_FUNDAMENTAL as HF.
  unfold detectarAreaBNCC.
  set (d := Str.trim (Str.toLowerCase disciplina)).
  repeat split.
  - destruct (lookup_key MAPEAMENTO_MEDIO d) eqn:E; [eauto | exact I].
  - destruct (lookup_key MAPEAMENTO_FUNDAMENTAL d) eqn:E; [eauto | exact I].
  - destruct (inList disciplinasEspecificasMedio d).
    + destruct (lookup_key MAPEAMENTO_MEDIO d) eqn:E; [eauto | exact I].
    + destruct (lookup_key MAPEAMENTO_FUNDAMENTAL d) eqn:E; [eauto | exact I].
  - repeat constructor.
  - repeat constructor.
Qed.

Lemma detectarAreaBNCC_shape_witness :
  match detectarAreaBNCC (js " História ") (Some medio) with
  | Some area => In area areasMedio
  | None => True
  end
  /\ match detectarAreaBNCC (js " História ") (Some fundamental) with
     | Some area => In area areasFundamental
     | None => True
     end
  /\ match detectarAreaBNCC (js " História ") None with
     | Some area => In area areasMedio \/ In area areasFundamental
     | None => True
     end
  /\ Forall (fun area => length area = 3%nat) areasMedio
  /\ Forall (fun area => length area = 2%nat) areasFundamental.
Proof. apply detectarAreaBNCC_shape. reflexivity. Defined.

Lemma isDigit_value c :
  Str.isDigit c = true -> exists d, (d < 10)%N /\ c = (48 + d)%N.
Proof.
  unfold Str.isDigit. intros H. apply andb_true_iff in H as [H1 H2].
  apply N.leb_le in H1, H2. exists (c - 48)%N. lia.
Qed.

Lemma prefixoEFAno_digits codigo :
  prefixoEFAno codigo = true ->
  exists d1 d2 resto,
    (d1 < 10)%N /\ (d2 < 10)%N
    /\ codigo = js "EF" ++ [48 + d1; 48 + d2]%N ++ resto.
Proof.
  intros H.
  destruct codigo as [|a [|b [|c1 [|c2 resto]]]]; unfold prefixoEFAno in H;
    repeat match type of H with
           | context [match ?x with _ => _ end] => destruct x; try discriminate
           end; try discriminate.
  apply andb_true_iff in H as [H1 H2].
  destruct (isDigit_value _ H1) as (d1 & ? & ->).
  destruct (isDigit_value _ H2) as (d2 & ? & ->).
  exists d1, d2, resto. auto.
Qed.

(** The reference grade of a code that starts with EF and the digits
    [d1 d2]. *)
Lemma extrairAnoDaHabilidade_EF (d1 d2 : N) (resto : jsstring) :
  (d1 < 10)%N -> (d2 < 10)%N ->
  extrairAnoDaHabilidade (js "EF" ++ [48 + d1; 48 + d2]%N ++ resto)
  = Some (Z.of_N (if (d1 =? 0)%N then d2 else d1)).
Proof.
  intros H1 H2. unfold extrairAnoDaHabilidade. js_eval.
  change ([69; 70] ++ [48 + d1; 48 + d2] ++ resto)%N
    with (69 :: 70 :: 48 + d1 :: 48 + d2 :: resto)%N.
  change (Str.startsWith (69 :: 70 :: 48 + d1 :: 48 + d2 :: resto) [69; 70])%N
    with ((69 =? 69)%N && ((70 =? 70)%N && true)).
  cbn [N.eqb Pos.eqb andb negb].
  rewrite match1_reEFAno by (apply isDigit_digit; assumption).
  change (charAt (grp 1 (Re.Found 0 4 [(1%nat, [48 + d1; 48 + d2])])) 0)%N
    with [(48 + d1)%N].
  change (charAt (grp 1 (Re.Found 0 4 [(1%nat, [48 + d1; 48 + d2])])) 1)%N
    with [(48 + d2)%N].
  rewrite !parseInt_digit by assumption.
  destruct (N.eqb_spec d1 0) as [->|Hne].
  - rewrite bool_decide_eq_true_2 by reflexivity. reflexivity.
  - rewrite bool_decide_eq_false_2 by (intros [=]; lia). reflexivity.
Qed.

(** X6.  [extrairAnoDaHabilidade] returns [null] exactly on the codes that
    do not start with EF and two digits, and otherwise a grade between 0 and
    9. *)
Theorem extrairAnoDaHabilidade_range (codigo : jsstring) :
  (extrairAnoDaHabilidade codigo = None <-> prefixoEFAno codigo = false)
  /\ match extrairAnoDaHabilidade codigo with
     | Some g => 0 <= g <= 9
     | None => True
     end.
Proof.
  destruct (prefixoEFAno codigo) eqn:Hp.
  - destruct (prefixoEFAno_digits codigo Hp) as (d1 & d2 & resto & H1 & H2 & ->).
    rewrite extrairAnoDaHabilidade_EF by assumption.
    split; [split; discriminate|]. destruct (d1 =? 0)%N; lia.
  - assert (E : extrairAnoDaHabilidade codigo = None).
    { unfold extrairAnoDaHabilidade.
      destruct (negb (Str.startsWith codigo (js "EF"))); [reflexivity|].
      destruct (Re.match1 reEFAno codigo) as [m|] eqn:E; [|reflexivity].
      apply reEFAno_sound in E. congruence. }
    rewrite E. split; [tauto | exact I].
Qed.

(** X7.  The grade check accepts a code's own reference grade exactly when
    the code is of the single-grade form or its two digits are in order: for
    a range written backwards it rejects the grade read off the code. *)
Theorem validarHabilidadeAno_own_grade (d1 d2 : N) (resto : jsstring) :
  (d1 < 10)%N -> (d2 < 10)%N ->
  validarHabilidadeAno (js "EF" ++ [48 + d1; 48 + d2]%N ++ resto)
    (extrairAnoDaHabilidade (js "EF" ++ [48 + d1; 48 + d2]%N ++ resto))
  = (d1 =? 0)%N || (d1 <=? d2)%N.
Proof.
  intros H1 H2. rewrite extrairAnoDaHabilidade_EF by assumption.
  rewrite validarHabilidadeAno_EF by assumption.
  destruct (N.eqb_spec d1 0) as [->|Hne]; cbn [orb].
  - apply Z.leb_le. lia.
  - destruct (N.leb_spec d1 d2).
    + apply andb_true_iff. split; apply Z.leb_le; lia.
    + apply andb_false_iff. right. apply Z.leb_gt. lia.
Qed.

Lemma validarHabilidadeAno_own_grade_witness :
  validarHabilidadeAno (js "EF" ++ [48 + 9; 48 + 6]%N ++ js "LP01")
    (extrairAnoDaHabilidade (js "EF" ++ [48 + 9; 48 + 6]%N ++ js "LP01"))
  = (9 =? 0)%N || (9 <=? 6)%N.
Proof. apply validarHabilidadeAno_own_grade; lia. Defined.

(** [g.toString().padStart(2, '0')] for a one-digit grade. *)
Lemma padStart_digit (g : Z) :
  0 <= g <= 9 -> Str.padStart (Str.toString g) 2 48 = [48; 48 + Z.to_N g]%N.
Proof.
  intros Hg.
  assert (Hc : In g [0; 1; 2; 3; 4; 5; 6; 7; 8; 9]) by (simpl; lia).
  simpl in Hc. repeat (destruct Hc as [<-|Hc]; [reflexivity|]).
  contradiction.
Qed.

(** X8.  The code prefix the query planner builds for a grade from 0 to 9
    is "0" and the grade's digit, and any EF code with that prefix passes the
    grade check for that grade. *)
Theorem planner_prefix_passes_grade (g : Z) (resto : jsstring) :
  0 <= g <= 9 ->
  Str.padStart (Str.toString g) 2 48 = [48; 48 + Z.to_N g]%N
  /\ validarHabilidadeAno
       (js "EF" ++ Str.padStart (Str.toString g) 2 48 ++ resto) (Some g)
     = true.
Proof.
  intros Hg. pose proof (padStart_digit g Hg) as Hp.
  split; [exact Hp|]. rewrite Hp.
  change 48%N with (48 + 0)%N at 1.
  rewrite validarHabilidadeAno_EF by lia. cbn [N.eqb].
  apply Z.leb_le. lia.
Qed.

Lemma planner_prefix_passes_grade_witness :
  Str.padStart (Str.toString 7) 2 48 = [48; 48 + Z.to_N 7]%N
  /\ validarHabilidadeAno
       (js "EF" ++ Str.padStart (Str.toString 7) 2 48 ++ js "MA01") (Some 7)
     = true.
Proof. apply (planner_prefix_passes_grade 7 (js "MA01")). lia. Defined.

(** X9.  In the TypeScript revision the grade check reads the first digit
    only: an EF code passes iff its first digit is within 1 of the expected
    grade, whatever the second digit. *)
Theorem ts_validarHabilidadeAno_first_digit
  (d1 d2 : N) (resto : jsstring) (g : Z) :
  (d1 < 10)%N -> (d2 < 10)%N ->
  TsRevision.validarHabilidadeAno
    (js "EF" ++ [48 + d1; 48 + d2]%N ++ resto) (Some g)
  = (Z.abs (Z.of_N d1 - g) <=? 1).
Proof.
  intros H1 H2.
  unfold TsRevision.validarHabilidadeAno, TsRevision.extrairAnoDaHabilidade.
  js_eval.
  change ([69; 70] ++ [48 + d1; 48 + d2] ++ resto)%N
    with (69 :: 70 :: 48 + d1 :: 48 + d2 :: resto)%N.
  change (Str.startsWith (69 :: 70 :: 48 + d1 :: 48 + d2 :: resto) [69; 77])%N
    with false.
  change (Str.startsWith (69 :: 70 :: 48 + d1 :: 48 + d2 :: resto) [69; 70])%N
    with ((69 =? 69)%N && ((70 =? 70)%N && true)).
  cbn [N.eqb Pos.eqb andb negb].
  rewrite match1_reEFAno by (apply isDigit_digit; assumption).
  change (charAt (grp 1 (Re.Found 0 4 [(1%nat, [48 + d1; 48 + d2])])) 0)%N
    with [(48 + d1)%N].
  rewrite !parseInt_digit by assumption.
  destruct (bool_decide _); reflexivity.
Qed.

Lemma ts_validarHabilidadeAno_first_digit_witness :
  TsRevision.validarHabilidadeAno
    (js "EF" ++ [48 + 0; 48 + 9]%N ++ js "GE01") (Some 9)
  = (Z.abs (Z.of_N 0 - 9) <=? 1).
Proof. apply ts_validarHabilidadeAno_first_digit; lia. Defined.

Local Open Scope Z_scope.

(** ** The relevance filter *)

Lemma boost_if_ge (b : bool) (x : Z) sc :
  0 <= x -> boostScore sc <= boostScore (if b then boost x sc else sc).
Proof. destruct b; simpl; lia. Qed.

Lemma fold_boost_ge {A} (f : A -> bool) (b : Z) (l : list A) :
  0 <= b -> forall sc,
  boostScore sc
  <= boostScore (fold_left (fun sc x => if f x then boost b sc else sc) l sc).
Proof.
  intros Hb. induction l as [|x l IH]; intros sc; simpl; [lia|].
  etransitivity; [|apply IH]. apply boost_if_ge, Hb.
Qed.

Lemma fold_penalize_count {A} (f : A -> bool) (p : Z) (l : list A) :
  forall sc,
  penaltyScore (fold_left (fun sc x => if f x then penalize p sc else sc) l sc)
  = penaltyScore sc + p * Z.of_nat (length (List.filter f l))
  /\ boostScore
       (fold_left (fun sc x => if f x then penalize p sc else sc) l sc)
     = boostScore sc.
Proof.
  induction l as [|x l IH]; intros sc; simpl; [split; lia|].
  destruct (IH (if f x then penalize p sc else sc)) as [-> ->].
  destruct (f x); simpl; split; lia.
Qed.

Section Codes.

Variables (nivelEscolar : NivelEscolar) (anoEsperado : option Z)
          (areaBNCC : option jsstring).

Lemma pontuarCodigo_aceito sc c :
  codigoAceito nivelEscolar anoEsperado areaBNCC c = true ->
  penaltyScore (pontuarCodigo nivelEscolar anoEsperado areaBNCC sc c)
  = penaltyScore sc
  /\ boostScore sc + 5
     <= boostScore (pontuarCodigo nivelEscolar anoEsperado areaBNCC sc c).
Proof.
  unfold codigoAceito, pontuarCodigo. cbv zeta. intros H.
  apply andb_true_iff in H as [H Harea].
  apply andb_true_iff in H as [Hnivel Hano]. rewrite Hnivel.
  destruct (bool_decide (anoEsperado <> None)
            && bool_decide (nivelEscolar = fundamental));
    destruct (falsy areaBNCC); simpl in Hano, Harea;
    rewrite ?Hano, ?Harea; simpl;
    unfold PONTUACAO.BOOST_HABILIDADE_NIVEL_CORRETO,
      PONTUACAO.BOOST_HABILIDADE_ANO_CORRETO,
      PONTUACAO.BOOST_HABILIDADE_AREA_CORRETA; lia.
Qed.

Lemma pontuarCodigo_recusado sc c :
  codigoAceito nivelEscolar anoEsperado areaBNCC c = false ->
  penaltyScore (pontuarCodigo nivelEscolar anoEsperado areaBNCC sc c)
  <= penaltyScore sc - 35.
Proof.
  unfold codigoAceito, pontuarCodigo. cbv zeta. intros H.
  destruct (validarHabilidadeNivel (Str.toUpperCase c) nivelEscolar);
    [|simpl; unfold PONTUACAO.PENALIDADE_HABILIDADE_NIVEL_ERRADO; lia].
  destruct (bool_decide (anoEsperado <> None)
            && bool_decide (nivelEscolar = fundamental));
    destruct (falsy areaBNCC);
    destruct (validarHabilidadeAno (Str.toUpperCase c) anoEsperado);
    destruct (validarHabilidadeArea (Str.toUpperCase c) areaBNCC);
    try discriminate H; simpl;
    unfold PONTUACAO.PENALIDADE_HABILIDADE_ANO_ERRADO,
      PONTUACAO.PENALIDADE_HABILIDADE_AREA_ERRADA; lia.
Qed.

Lemma pontuarCodigo_boost_ge sc c :
  boostScore sc
  <= boostScore (pontuarCodigo nivelEscolar anoEsperado areaBNCC sc c).
Proof.
  unfold pontuarCodigo.
  repeat match goal with
         | |- context [if ?b then _ else _] => destruct b
         end; simpl;
    unfold PONTUACAO.BOOST_HABILIDADE_NIVEL_CORRETO,
      PONTUACAO.BOOST_HABILIDADE_ANO_CORRETO,
      PONTUACAO.BOOST_HABILIDADE_AREA_CORRETA; lia.
Qed.

Lemma fold_pontuarCodigo_boost_ge cs : forall sc,
  boostScore sc
  <= boostScore
       (fold_left (pontuarCodigo nivelEscolar anoEsperado areaBNCC) cs sc).
Proof.
  induction cs as [|c cs IH]; intros sc; simpl; [lia|].
  etransitivity; [apply pontuarCodigo_boost_ge | apply IH].
Qed.

Lemma fold_pontuarCodigo_aceitos cs : forall sc,
  forallb (codigoAceito nivelEscolar anoEsperado areaBNCC) cs = true ->
  penaltyScore
    (fold_left (pontuarCodigo nivelEscolar anoEsperado areaBNCC) cs sc)
  = penaltyScore sc
  /\ boostScore sc + 5 * Z.of_nat (length cs)
     <= boostScore
          (fold_left (pontuarCodigo nivelEscolar anoEsperado areaBNCC) cs sc).
Proof.
  induction cs as [|c cs IH]; intros sc H; [simpl; split; lia|].
  cbn [forallb] in H. apply andb_true_iff in H as [Hc Hcs].
  cbn [fold_left length].
  destruct (IH (pontuarCodigo nivelEscolar anoEsperado areaBNCC sc c) Hcs)
    as [-> Hb].
  destruct (pontuarCodigo_aceito sc c Hc) as [-> Hb'].
  split; lia.
Qed.

Lemma fold_pontuarCodigo_recusado cs : forall sc,
  forallb (codigoAceito nivelEscolar anoEsperado areaBNCC) cs = false ->
  penaltyScore
    (fold_left (pontuarCodigo nivelEscolar anoEsperado areaBNCC) cs sc)
  <= penaltyScore sc - 35.
Proof.
  induction cs as [|c cs IH]; intros sc H; [discriminate|].
  cbn [forallb] in H. cbn [fold_left].
  destruct (codigoAceito nivelEscolar anoEsperado areaBNCC c) eqn:Hc.
  - etransitivity; [apply IH, H|].
    destruct (pontuarCodigo_aceito sc c Hc) as [-> _]. lia.
  - etransitivity; [apply fold_pontuarCodigo_le|].
    apply pontuarCodigo_recusado, Hc.
Qed.

End Codes.

(** The two totals of a passage, in terms of its codes and of the phrases
    of the other level that it holds. *)
Lemma pontuar_totais tema disciplina serie areaBNCC n :
  0 <= boostScore (pontuar tema disciplina serie areaBNCC n)
  /\ (forallb
        (codigoAceito (detectarNivelEscolar serie) (extrairNumeroAno serie)
           areaBNCC)
        (codigosEncontrados (textoMinusculo n)) = true ->
      penaltyScore (pontuar tema disciplina serie areaBNCC n)
      = -20 * Z.of_nat
                (length (palavrasErradasPresentes (detectarNivelEscolar serie)
                           (textoMinusculo n)))
      /\ 5 * Z.of_nat (length (codigosEncontrados (textoMinusculo n)))
         <= boostScore (pontuar tema disciplina serie areaBNCC n))
  /\ (forallb
        (codigoAceito (detectarNivelEscolar serie) (extrairNumeroAno serie)
           areaBNCC)
        (codigosEncontrados (textoMinusculo n)) = false ->
      penaltyScore (pontuar tema disciplina serie areaBNCC n) <= -35).
Proof.
  unfold pontuar, palavrasErradasPresentes. cbv zeta.
  match goal with
  | |- context [fold_left (pontuarCodigo _ _ _) _ ?sc] =>
      set (sc3 := sc)
  end.
  assert (H3 : 0 <= boostScore sc3 /\ penaltyScore sc3 = 0).
  { subst sc3. split.
    - destruct (Re.match1 reNumero serie);
        repeat (etransitivity;
                [|first [apply boost_if_ge | apply fold_boost_ge];
                  vm_compute; discriminate]);
        simpl; lia.
    - destruct (Re.match1 reNumero serie);
        rewrite ?penalty_boost_if, ?fold_boost_penalty, ?penalty_boost_if;
        reflexivity. }
  destruct H3 as [H3b H3p].
  match goal with
  | |- context [fold_left _ (palavrasNivelErrado _) ?sc] => set (sc5 := sc)
  end.
  match goal with
  | |- context [fold_left ?f (palavrasNivelErrado ?nv) sc5] =>
      destruct (fold_penalize_count (Str.includes (textoMinusculo n))
                  PONTUACAO.PENALIDADE_MENCIONOU_NIVEL_ERRADO
                  (palavrasNivelErrado nv) sc5) as [Hp Hb]
  end.
  rewrite Hp, Hb. clear Hp Hb. subst sc5.
  rewrite penalty_boost_if.
  unfold PONTUACAO.PENALIDADE_MENCIONOU_NIVEL_ERRADO.
  split; [|split].
  - etransitivity; [|apply boost_if_ge; vm_compute; discriminate].
    etransitivity; [|apply fold_pontuarCodigo_boost_ge]. exact H3b.
  - intros Hok.
    destruct (fold_pontuarCodigo_aceitos (detectarNivelEscolar serie)
                (extrairNumeroAno serie) areaBNCC _ sc3 Hok) as [-> Hb].
    split; [lia|].
    etransitivity; [|apply boost_if_ge; vm_compute; discriminate]. lia.
  - intros Hbad.
    pose proof (fold_pontuarCodigo_recusado (detectarNivelEscolar serie)
                  (extrairNumeroAno serie) areaBNCC _ sc3 Hbad). lia.
Qed.

(** X10.  What the filter keeps: a scored passage passes the predicate of
    the filter exactly when every code found in its text passes the level,
    grade and area checks of the scoring loop and at most one phrase of the
    other level occurs in the text.  The predicate comes down to the cutoff:
    a passage is kept exactly when its penalty total is not below -30, and
    the test on boosts and [nivelCorreto] never removes a passage that the
    cutoff lets through. *)
Theorem manter_enriquecer
  (tema disciplina serie : jsstring) (areaBNCC : option jsstring)
  (n : RAGNode) :
  manter (enriquecer tema disciplina serie areaBNCC n)
  = forallb
      (codigoAceito (detectarNivelEscolar serie) (extrairNumeroAno serie)
         areaBNCC)
      (codigosEncontrados (textoMinusculo n))
    && (length (palavrasErradasPresentes (detectarNivelEscolar serie)
                  (textoMinusculo n)) <=? 1)%nat
  /\ manter (enriquecer tema disciplina serie areaBNCC n)
     = negb (penalizacaoNivel (enriquecer tema disciplina serie areaBNCC n)
             <? -30)
  /\ (penalizacaoNivel (enriquecer tema disciplina serie areaBNCC n) <? -30)
     || (0 <? matchCount (enriquecer tema disciplina serie areaBNCC n))
     || nivelCorreto (enriquecer tema disciplina serie areaBNCC n)
     = true.
Proof.
  destruct (pontuar_totais tema disciplina serie areaBNCC n)
    as (Hb & Hok & Hbad).
  unfold manter, enriquecer. cbv zeta.
  cbn [penalizacaoNivel matchCount nivelCorreto].
  destruct (forallb _ (codigosEncontrados (textoMinusculo n))) eqn:Hall.
  - destruct (Hok eq_refl) as [Hp Hb5]. rewrite Hp. cbn [andb].
    destruct (Nat.leb_spec
                (length (palavrasErradasPresentes (detectarNivelEscolar serie)
                           (textoMinusculo n))) 1) as [Hk|Hk].
    + rewrite (proj2 (Z.ltb_ge _ _)) by lia. cbn [negb orb].
      destruct (codigosEncontrados (textoMinusculo n)) as [|c cs] eqn:Hcs.
      * cbn [length Nat.eqb]. rewrite !orb_true_r. auto.
      * cbn [length] in Hb5. rewrite (proj2 (Z.ltb_lt _ _)) by lia.
        auto.
    + rewrite (proj2 (Z.ltb_lt _ _)) by lia. auto.
  - pose proof (Hbad eq_refl). rewrite (proj2 (Z.ltb_lt _ _)) by lia.
    auto.
Qed.

Section Ordenacao.

Local Abbreviation cmp :=
  (fun a b : EnrichedNode => (boostedScore b - boostedScore a)%Q).

Lemma cmp_pos (x y : EnrichedNode) :
  (0 < boostedScore y - boostedScore x)%Q <->
  (boostedScore x < boostedScore y)%Q.
Proof. symmetry. apply Qlt_minus_iff. Qed.

Lemma inserir_perm {A} (c : A -> A -> Q) (x : A) (l : list A) :
  inserir c x l ≡ₚ x :: l.
Proof.
  induction l as [|y l IH]; simpl; [reflexivity|].
  destruct (Qlt_le_dec 0 (c x y)); [|reflexivity].
  rewrite IH. apply Permutation_swap.
Qed.

Lemma ordenar_perm {A} (c : A -> A -> Q) (l : list A) : ordenar c l ≡ₚ l.
Proof.
  induction l as [|x l IH]; simpl; [reflexivity|].
  rewrite inserir_perm. rewrite IH. reflexivity.
Qed.

Lemma inserir_sorted (x : EnrichedNode) (l : list EnrichedNode) :
  StronglySorted naoMenor l -> StronglySorted naoMenor (inserir cmp x l).
Proof.
  induction 1 as [|y l Hs IH Hy]; simpl.
  - repeat constructor.
  - destruct (Qlt_le_dec 0 (boostedScore y - boostedScore x)) as [Hlt|Hle].
    + constructor; [exact IH|].
      apply Forall_forall. intros z Hz.
      apply inserir_elem in Hz as [->|Hz].
      * unfold naoMenor. apply Qlt_le_weak, cmp_pos, Hlt.
      * rewrite Forall_forall in Hy. apply Hy, Hz.
    + assert (Hxy : naoMenor x y).
      { unfold naoMenor. apply Qle_minus_iff.
        apply Qle_minus_iff in Hle.
        assert (E : (boostedScore x + - boostedScore y
                     == 0 + - (boostedScore y - boostedScore x))%Q) by ring.
        rewrite E. exact Hle. }
      constructor; [constructor; assumption|].
      constructor; [exact Hxy|].
      eapply Forall_impl; [exact Hy|].
      intros z Hz. unfold naoMenor in *. cbn beta in Hz.
      eapply Qle_trans; eassumption.
Qed.

Lemma ordenar_sorted (l : list EnrichedNode) :
  StronglySorted naoMenor (ordenar cmp l).
Proof.
  induction l as [|x l IH]; simpl; [constructor|].
  apply inserir_sorted, IH.
Qed.

Lemma inserir_comScore (q : Q) (x : EnrichedNode) (l : list EnrichedNode) :
  comScore q (inserir cmp x l) = comScore q (x :: l).
Proof.
  unfold comScore. induction l as [|y l IH]; simpl; [reflexivity|].
  destruct (Qlt_le_dec 0 (boostedScore y - boostedScore x)) as [Hlt|Hle];
    [|reflexivity].
  simpl. rewrite IH. simpl.
  destruct (Qeq_bool (boostedScore y) q) eqn:Hy;
    destruct (Qeq_bool (boostedScore x) q) eqn:Hx; try reflexivity.
  apply Qeq_bool_iff in Hy, Hx. apply cmp_pos in Hlt.
  rewrite Hy, Hx in Hlt. exfalso. revert Hlt. apply Qlt_irrefl.
Qed.

Lemma ordenar_comScore (q : Q) (l : list EnrichedNode) :
  comScore q (ordenar cmp l) = comScore q l.
Proof.
  induction l as [|x l IH]; simpl; [reflexivity|].
  rewrite inserir_comScore. unfold comScore in *. simpl. rewrite IH.
  reflexivity.
Qed.

End Ordenacao.

(** X11.  The result of [filtrarNodesPorRelevancia] is the scored passages
    that pass the filter, rearranged: in non-increasing order of final
    score, with the passages of equal final score in the order in which they
    were retrieved. *)
Theorem filtrar_sorted_stable
  (nodes : list RAGNode) (tema disciplina serie : jsstring)
  (areaBNCC : option jsstring) :
  StronglySorted naoMenor
    (filtrarNodesPorRelevancia nodes tema disciplina serie areaBNCC)
  /\ filtrarNodesPorRelevancia nodes tema disciplina serie areaBNCC
     ≡ₚ List.filter manter
          (List.map (enriquecer tema disciplina serie areaBNCC) nodes)
  /\ forall q,
       comScore q
         (filtrarNodesPorRelevancia nodes tema disciplina serie areaBNCC)
       = comScore q
           (List.filter manter
              (List.map (enriquecer tema disciplina serie areaBNCC) nodes)).
Proof.
  unfold filtrarNodesPorRelevancia. cbv zeta.
  split; [apply ordenar_sorted|].
  split; [apply ordenar_perm|]. intros q. apply ordenar_comScore.
Qed.

Local Open Scope Z_scope.

(** ** Page deduplication *)

Lemma paginas_app l1 l2 : paginas (l1 ++ l2) = paginas l1 ++ paginas l2.
Proof. unfold paginas. apply map_app. Qed.

Lemma paginas_elem (o : option Z) (l : list EnrichedNode) :
  o ∈ paginas l <-> exists n, n ∈ l /\ nodePage (raw n) = o.
Proof.
  unfold paginas. rewrite list_elem_of_In, in_map_iff.
  split; intros (n & H1 & H2); exists n; rewrite ?list_elem_of_In in *; auto.
Qed.

Lemma visitar_primeiros maxNodes vistos st n :
  unicos_primeiros maxNodes vistos st ->
  unicos_primeiros maxNodes (vistos ++ [n]) (visitar maxNodes st n).
Proof.
  intros (Hsub & Hfirst & Hcov & Hseen).
  assert (Hkeep : forall e : EnrichedNode,
             (exists l1 l2, vistos = l1 ++ e :: l2
                            /\ nodePage (raw e) ∉ paginas l1) ->
             exists l1 l2, vistos ++ [n] = l1 ++ e :: l2
                           /\ nodePage (raw e) ∉ paginas l1).
  { intros e (l1 & l2 & -> & Hl1). exists l1, (l2 ++ [n]).
    split; [|exact Hl1]. rewrite <- app_assoc. reflexivity. }
  assert (Hsame : (forall page, nodePage (raw n) = Some page ->
                      negb (page =? 0) = true ->
                      Z.of_nat (length (uniqueNodes st)) < maxNodes ->
                      page ∈ seenPages st) ->
                  unicos_primeiros maxNodes (vistos ++ [n]) st).
  { intros Hn. repeat split.
    - apply sublist_inserts_r, Hsub.
    - eapply Forall_impl; [exact Hfirst|]. exact Hkeep.
    - intros Hlen n' Hin Hres.
      apply elem_of_app in Hin as [Hin|Hin]; [apply Hcov; assumption|].
      apply list_elem_of_singleton in Hin. subst n'.
      unfold paginaResolvida in Hres.
      destruct (nodePage (raw n)) as [page|] eqn:Hp; [|discriminate].
      exists page. split; [reflexivity|]. apply Hn; auto.
    - exact Hseen. }
  unfold visitar.
  destruct (nodePage (raw n)) as [page|] eqn:Hp;
    [|apply Hsame; intros; discriminate].
  destruct (negb (page =? 0)) eqn:Hz;
    [|apply Hsame; intros ? [= <-]; congruence].
  destruct (bool_decide (page ∈ seenPages st)) eqn:Hs.
  { apply Hsame. intros ? [= <-] _ _. apply bool_decide_eq_true in Hs.
    exact Hs. }
  destruct (Z.of_nat (length (uniqueNodes st)) <? maxNodes) eqn:Hm.
  2:{ apply Hsame. intros ? _ _ Hlt. apply Z.ltb_ge in Hm. lia. }
  apply bool_decide_eq_false in Hs. apply Z.ltb_lt in Hm.
  cbn [negb andb]. repeat split; cbn [uniqueNodes seenPages].
  - apply sublist_app; [exact Hsub | reflexivity].
  - apply Forall_app. split.
    + eapply Forall_impl; [exact Hfirst|]. exact Hkeep.
    + constructor; [|constructor]. exists vistos, []. split; [reflexivity|].
      rewrite Hp. intros Hin. apply paginas_elem in Hin as (n' & Hin' & Hp').
      destruct (Hcov Hm n' Hin') as (page' & Hp'' & Hin'').
      { unfold paginaResolvida. rewrite Hp'. exact Hz. }
      assert (page' = page) as -> by congruence. contradiction.
  - intros _ n' Hin Hres.
    apply elem_of_app in Hin as [Hin|Hin].
    + destruct (Hcov Hm n' Hin Hres) as (page' & Hp' & Hin').
      exists page'. split; [exact Hp'|]. set_solver.
    + apply list_elem_of_singleton in Hin. subst n'.
      exists page. split; [exact Hp|]. set_solver.
  - intros page' Hin. rewrite paginas_app. apply elem_of_app.
    apply elem_of_union in Hin as [Hin|Hin].
    + apply elem_of_singleton in Hin. subst page'. right.
      cbn. rewrite Hp. left.
    + left. apply Hseen, Hin.
Qed.

Lemma fold_visitar_primeiros maxNodes nodes : forall vistos st,
  unicos_primeiros maxNodes vistos st ->
  unicos_primeiros maxNodes (vistos ++ nodes)
    (fold_left (visitar maxNodes) nodes st).
Proof.
  induction nodes as [|n nodes IH]; intros vistos st H; simpl.
  - rewrite app_nil_r. exact H.
  - replace (vistos ++ n :: nodes) with ((vistos ++ [n]) ++ nodes)
      by (rewrite <- app_assoc; reflexivity).
    apply IH, visitar_primeiros, H.
Qed.

Lemma removerNodesDuplicados_primeiros nodes maxNodes :
  unicos_primeiros maxNodes nodes
    (fold_left (visitar maxNodes) nodes
       {| uniqueNodes := []; seenPages := ∅ |}).
Proof.
  apply (fold_visitar_primeiros maxNodes nodes []).
  repeat split; cbn.
  - constructor.
  - constructor.
  - intros _ n Hin. apply elem_of_nil in Hin. contradiction.
  - intros page Hin. apply elem_of_empty in Hin. contradiction.
Qed.

(** X12.  [removerNodesDuplicados] keeps passages of the input in their
    order, and the passage kept for a page is the first one of the input
    with that page. *)
Theorem removerNodesDuplicados_first_occurrences
  (nodes : list EnrichedNode) (maxNodes : Z) :
  removerNodesDuplicados nodes maxNodes `sublist_of` nodes
  /\ Forall (fun e => exists l1 l2,
                 nodes = l1 ++ e :: l2
                 /\ nodePage (raw e) ∉ paginas l1)
       (removerNodesDuplicados nodes maxNodes).
Proof.
  destruct (removerNodesDuplicados_primeiros nodes maxNodes)
    as (Hsub & Hfirst & _).
  split; assumption.
Qed.

(** X13.  When fewer than [maxNodes] passages come out of
    [removerNodesDuplicados], no page was lost: every resolvable page of the
    input is the page of a passage of the output. *)
Theorem removerNodesDuplicados_covers
  (nodes : list EnrichedNode) (maxNodes : Z) (n : EnrichedNode) :
  Z.of_nat (length (removerNodesDuplicados nodes maxNodes)) < maxNodes ->
  n ∈ nodes -> paginaResolvida n = true ->
  nodePage (raw n) ∈ paginas (removerNodesDuplicados nodes maxNodes).
Proof.
  intros Hlen Hin Hres.
  destruct (removerNodesDuplicados_primeiros nodes maxNodes)
    as (_ & _ & Hcov & Hseen).
  destruct (Hcov Hlen n Hin Hres) as (page & -> & Hpage).
  apply Hseen, Hpage.
Qed.

Lemma removerNodesDuplicados_covers_witness :
  nodePage (raw (passagem (js "b") (Some 3)))
  ∈ paginas (removerNodesDuplicados passagensRepetidas 10).
Proof.
  apply removerNodesDuplicados_covers.
  - vm_compute. reflexivity.
  - right. left.
  - reflexivity.
Defined.

Lemma visitar_frozen m st n :
  Z.of_nat (length (uniqueNodes st)) = m -> visitar m st n = st.
Proof.
  intros H. unfold visitar. destruct (nodePage (raw n)); [|reflexivity].
  rewrite (proj2 (Z.ltb_ge _ _)) by lia. rewrite andb_false_r. reflexivity.
Qed.

Lemma visitar_length M st n :
  (length (uniqueNodes st) <= length (uniqueNodes (visitar M st n)))%nat.
Proof.
  unfold visitar. destruct (nodePage (raw n)); [|lia].
  destruct (_ && _); cbn; rewrite ?length_app; lia.
Qed.

Lemma visitar_prefix M st n :
  exists l, uniqueNodes (visitar M st n) = uniqueNodes st ++ l.
Proof.
  unfold visitar. destruct (nodePage (raw n)); [|exists []; apply eq_sym, app_nil_r].
  destruct (_ && _); cbn; [exists [n]; reflexivity|].
  exists []. apply eq_sym, app_nil_r.
Qed.

Lemma visitar_truncado m M stA stB n :
  0 <= m <= M -> par_truncado m stA stB ->
  par_truncado m (visitar m stA n) (visitar M stB n).
Proof.
  intros Hm [[<- Hlen]|[Hlen Htake]].
  - destruct (Z.eq_dec (Z.of_nat (length (uniqueNodes stA))) m) as [Heq|Hne].
    + right. rewrite visitar_frozen by exact Heq. split; [exact Heq|].
      destruct (visitar_prefix M stA n) as [l ->].
      rewrite take_app_le by lia. rewrite take_ge by lia. reflexivity.
    + assert (E : visitar m stA n = visitar M stA n).
      { unfold visitar. destruct (nodePage (raw n)); [|reflexivity].
        rewrite (proj2 (Z.ltb_lt _ m)) by lia.
        rewrite (proj2 (Z.ltb_lt _ M)) by lia. reflexivity. }
      left. split; [exact E|].
      unfold visitar. destruct (nodePage (raw n)); [|lia].
      destruct (_ && _); cbn; rewrite ?length_app; cbn; lia.
  - right. rewrite visitar_frozen by exact Hlen. split; [exact Hlen|].
    destruct (visitar_prefix M stB n) as [l ->].
    assert (Z.to_nat m <= length (uniqueNodes stB))%nat.
    { rewrite Htake in Hlen. rewrite length_take in Hlen. lia. }
    rewrite take_app_le by lia. exact Htake.
Qed.

Lemma fold_visitar_truncado m M nodes : 0 <= m <= M -> forall stA stB,
  par_truncado m stA stB ->
  par_truncado m (fold_left (visitar m) nodes stA)
    (fold_left (visitar M) nodes stB).
Proof.
  intros Hm. induction nodes as [|n nodes IH]; intros stA stB H; simpl.
  - exact H.
  - apply IH, visitar_truncado; assumption.
Qed.

(** X14.  The limit of [removerNodesDuplicados] only truncates: with a
    smaller limit the result is the first passages of the result with a
    larger limit. *)
Theorem removerNodesDuplicados_limit_truncates
  (nodes : list EnrichedNode) (m M : Z) :
  0 <= m <= M ->
  removerNodesDuplicados nodes m
  = take (Z.to_nat m) (removerNodesDuplicados nodes M).
Proof.
  intros Hm. unfold removerNodesDuplicados.
  destruct (fold_visitar_truncado m M nodes Hm
              {| uniqueNodes := []; seenPages := ∅ |}
              {| uniqueNodes := []; seenPages := ∅ |})
    as [[<- Hlen]|[_ Htake]].
  { left. split; [reflexivity | cbn; lia]. }
  - rewrite take_ge by lia. reflexivity.
  - exact Htake.
Qed.

Lemma removerNodesDuplicados_limit_truncates_witness :
  removerNodesDuplicados passagensRepetidas 1
  = take (Z.to_nat 1) (removerNodesDuplicados passagensRepetidas 2).
Proof. apply removerNodesDuplicados_limit_truncates. lia. Defined.

Lemma fold_visitar_id m l : forall st,
  NoDup (paginas l) ->
  Forall (fun n => paginaResolvida n = true) l ->
  (forall n page, n ∈ l -> nodePage (raw n) = Some page ->
                  page ∉ seenPages st) ->
  Z.of_nat (length (uniqueNodes st) + length l) <= m ->
  uniqueNodes (fold_left (visitar m) l st) = uniqueNodes st ++ l.
Proof.
  induction l as [|n l IH]; intros st Hnd Hres Hnew Hlen; simpl.
  - rewrite app_nil_r. reflexivity.
  - unfold paginas in Hnd. cbn [List.map] in Hnd.
    apply NoDup_cons in Hnd as [Hn Hnd].
    apply Forall_cons in Hres as [Hr Hres].
    unfold paginaResolvida in Hr.
    destruct (nodePage (raw n)) as [page|] eqn:Hp; [|discriminate].
    assert (E : visitar m st n
                = {| uniqueNodes := uniqueNodes st ++ [n];
                     seenPages := {[ page ]} ∪ seenPages st |}).
    { unfold visitar. rewrite Hp, Hr.
      rewrite bool_decide_eq_false_2
        by (apply (Hnew n page); [left | exact Hp]).
      cbn [length] in Hlen.
      rewrite (proj2 (Z.ltb_lt _ _)) by lia. reflexivity. }
    rewrite E. rewrite IH; cbn [uniqueNodes seenPages].
    + rewrite <- app_assoc. reflexivity.
    + exact Hnd.
    + exact Hres.
    + intros n' page' Hin Hp' Hs.
      apply elem_of_union in Hs as [Hs|Hs].
      * apply elem_of_singleton in Hs. subst page'.
        apply Hn. apply paginas_elem. exists n'. split; assumption.
      * revert Hs. apply (Hnew n' page'); [right; exact Hin | exact Hp'].
    + rewrite length_app. cbn [length] in *. lia.
Qed.

(** X15.  [removerNodesDuplicados] is idempotent: a second pass with the
    same limit changes nothing. *)
Theorem removerNodesDuplicados_idempotent
  (nodes : list EnrichedNode) (maxNodes : Z) :
  removerNodesDuplicados (removerNodesDuplicados nodes maxNodes) maxNodes
  = removerNodesDuplicados nodes maxNodes.
Proof.
  destruct (fold_visitar_ok maxNodes nodes
              {| uniqueNodes := []; seenPages := ∅ |})
    as (Hnd & Hall & Hlen).
  { repeat split; simpl; [constructor | constructor | lia]. }
  fold (removerNodesDuplicados nodes maxNodes) in Hnd, Hall, Hlen.
  destruct (removerNodesDuplicados nodes maxNodes) as [|e l] eqn:E;
    [reflexivity|].
  rewrite <- E in *.
  unfold removerNodesDuplicados at 1.
  rewrite fold_visitar_id; cbn [uniqueNodes seenPages].
  - reflexivity.
  - exact Hnd.
  - eapply Forall_impl; [exact Hall|]. intros n [H _]. exact H.
  - intros n page _ _ H. apply elem_of_empty in H. exact H.
  - rewrite E in Hlen |- *. cbn [length] in *. lia.
Qed.

Local Open Scope Z_scope.

(** ** Skill extraction, continued *)

Local Open Scope nat_scope.

(** A match is the stretch of the text between its two indices. *)
Lemma exec_matched r texto from m :
  Re.exec r texto from = Some m ->
  exists pre w s',
    texto = pre ++ w ++ s' /\ Re.matched texto m = w
    /\ Re.index m = length pre /\ Re.stop m = length pre + length w
    /\ Re.steps r (length pre) (w ++ s') (length pre + length w) s'.
Proof.
  intros H. apply exec_sound in H as (pre & w & s' & -> & _ & Hi & Hs & St).
  exists pre, w, s'. rewrite Hs, Hi in St.
  repeat split; [| exact Hi | lia | exact St].
  unfold Re.matched, Str.substring. rewrite Hs, Hi.
  rewrite Nat.min_l, Nat.max_r by lia.
  rewrite drop_app_length.
  replace (length pre + length w - length pre) with (length w) by lia.
  apply take_app_length.
Qed.

(** What the code pattern matches is a code. *)
Lemma regexHabilidades_forma i w s' :
  Re.steps (regexHabilidades false) i (w ++ s') (i + length w) s' ->
  codigoHabilidade w = true.
Proof.
  intros St.
  unfold regexHabilidades, Re.digit, Re.upper, Re.Opt in St.
  rewrite js_EF, js_EM in St. simpl in St.
  inv_steps; lit_eq.
  all: match goal with
       | H : ?a :: ?b :: ?c :: ?d :: ?e :: ?f :: ?g :: ?h :: ?tl = ?l ++ ?tl
         |- _ => apply (app_inv_tail tl [a; b; c; d; e; f; g; h] l) in H
       | H : ?a :: ?b :: ?c :: ?d :: ?e :: ?f :: ?g :: ?h :: ?k :: ?tl
             = ?l ++ ?tl
         |- _ => apply (app_inv_tail tl [a; b; c; d; e; f; g; h; k] l) in H
       | H : ?a :: ?b :: ?c :: ?d :: ?e :: ?f :: ?g :: ?h :: ?k :: ?m :: ?tl
             = ?l ++ ?tl
         |- _ => apply (app_inv_tail tl [a; b; c; d; e; f; g; h; k; m] l) in H
       end; subst w.
  all: unfold codigoHabilidade, formaCodigo; rewrite js_EF, js_EM;
    cbn [Str.startsWith take drop length forallb Nat.add Nat.eqb N.eqb Pos.eqb
         andb orb].
  all: repeat match goal with H : _ = true |- _ => rewrite H; clear H end.
  all: repeat match goal with
         | |- context [Str.isDigit ?x] => destruct (Str.isDigit x)
         | |- context [Re.range 65 90 ?x] => destruct (Re.range 65 90 x)
         end.
  all: try reflexivity.
Qed.

Lemma capturas_elem fuel texto : forall lastIndex cd,
  cd ∈ capturas fuel texto lastIndex ->
  exists from m,
    Re.exec (regexHabilidades false) texto from = Some m
    /\ cd = capturar texto m.
Proof.
  induction fuel as [|fuel IH]; intros i cd H; simpl in H.
  - apply elem_of_nil in H. contradiction.
  - destruct (Re.exec (regexHabilidades false) texto i) as [m|] eqn:E.
    + apply elem_of_cons in H as [->|H]; [exists i, m; auto | eauto].
    + apply elem_of_nil in H. contradiction.
Qed.

Lemma todasCapturas_elem nodes cd :
  cd ∈ todasCapturas nodes ->
  exists n from m,
    n ∈ nodes
    /\ Re.exec (regexHabilidades false) (default [] (nodeText (raw n))) from
       = Some m
    /\ cd = capturar (default [] (nodeText (raw n))) m.
Proof.
  unfold todasCapturas. intros H.
  apply list_elem_of_In, in_flat_map in H as (n & Hn & H).
  apply list_elem_of_In in H, Hn.
  apply capturas_elem in H as (from & m & E & ->).
  exists n, from, m. auto.
Qed.

Lemma extrair_elem nodes nivel area ano h :
  h ∈ extrairHabilidadesBNCC nodes nivel area ano ->
  (codigo h, descricao h) ∈ todasCapturas nodes
  /\ habilidadeValida nivel area ano (codigo h, descricao h) = true.
Proof.
  unfold extrairHabilidadesBNCC. intros Hh.
  apply list_elem_of_In, in_map_iff in Hh as ([k v] & <- & He). cbn.
  apply list_elem_of_In, elem_of_take in He as (i & He & _).
  apply list_elem_of_lookup_2, list_elem_of_In, filter_In in He as [Hin He].
  split; [|exact He].
  destruct (coletar_ok nodes) as (Hnd & Hget & _).
  apply (Hget k v). apply mapGet_NoDup; [exact Hnd|].
  apply list_elem_of_In, Hin.
Qed.

Lemma capturar_descricao texto m :
  capturar texto m
  = (Re.matched texto m, descricaoDe (descricaoCapturada texto m)).
Proof. reflexivity. Qed.

Lemma descricaoDe_length d :
  length (descricaoDe d) = if 200 <? length d then 203 else length d.
Proof.
  unfold descricaoDe. destruct (Nat.ltb_spec 200 (length d)); [|reflexivity].
  rewrite length_app, length_take. change (length (js "...")) with 3. lia.
Qed.

(** C4.  The size limit overshoots the bound of 200 characters that the
    source states for it: every description returned by
    [extrairHabilidadesBNCC] is the captured text itself when that has at
    most 200 units, and otherwise its first 200 units followed by the
    three-unit ellipsis, 203 units in all.  A code followed by 201 letters
    gives a description of 203 units. *)
Theorem extrair_descricao_exceeds_200 :
  (forall (nodes : list EnrichedNode) (nivel : NivelEscolar)
          (area : option jsstring) (ano : option Z),
      Forall
        (fun h =>
           (exists n from m,
               n ∈ nodes
               /\ Re.exec (regexHabilidades false)
                    (default [] (nodeText (raw n))) from = Some m
               /\ codigo h = Re.matched (default [] (nodeText (raw n))) m
               /\ descricao h
                  = descricaoDe
                      (descricaoCapturada (default [] (nodeText (raw n))) m))
           /\ 10 < length (descricao h) <= 203)
        (extrairHabilidadesBNCC nodes nivel area ano))
  /\ (forall d, 200 < length d ->
        descricaoDe d = take 200 d ++ js "..."
        /\ length (descricaoDe d) = 203)
  /\ extrairHabilidadesBNCC [passagemLonga] fundamental None None
     = [{| codigo := js "EF09HI28";
           descricao := replicate 200 97%N ++ js "..." |}]
  /\ length (replicate 200 97%N ++ js "...") = 203.
Proof.
  split; [|split; [|split; vm_compute; reflexivity]].
  - intros nodes nivel area ano. apply Forall_forall. intros h Hh.
    destruct (extrair_entries nodes nivel area ano) as (es & Hsub & Heq).
    destruct (coletar_ok nodes) as (Hnd & Hin & _).
    rewrite Heq in Hh.
    apply list_elem_of_In, in_map_iff in Hh as ([k v] & <- & He).
    cbn [codigo descricao fst snd]. apply list_elem_of_In in He.
    assert (Hget : mapGet (coletar nodes) k = Some v).
    { apply mapGet_NoDup; [exact Hnd|]. eapply elem_of_sublist; eassumption. }
    destruct (Hin k v Hget) as [Hcap Hlong].
    apply todasCapturas_elem in Hcap as (n & from & m & Hn & E & Hcd).
    rewrite capturar_descricao in Hcd. injection Hcd as -> ->.
    split; [exists n, from, m; auto|].
    split; [exact Hlong|].
    rewrite descricaoDe_length.
    destruct (Nat.ltb_spec 200 (length (descricaoCapturada
                (default [] (nodeText (raw n))) m))); lia.
  - intros d Hd. rewrite descricaoDe_length. unfold descricaoDe.
    rewrite (proj2 (Nat.ltb_lt _ _) Hd). auto.
Qed.

Lemma extrair_registro nodes nivel area ano h :
  h ∈ extrairHabilidadesBNCC nodes nivel area ano ->
  codigoHabilidade (codigo h) = true
  /\ habilidadeValida nivel area ano (codigo h, descricao h) = true
  /\ exists n, n ∈ nodes /\ codigoNoTexto (codigo h) n.
Proof.
  intros Hh. apply extrair_elem in Hh as [Hcap Hval].
  apply todasCapturas_elem in Hcap as (n & from & m & Hn & E & Hcd).
  apply exec_matched in E as (pre & w & s' & Ht & Hw & _ & _ & St).
  assert (Hk : codigo h = w).
  { unfold capturar in Hcd. cbv zeta in Hcd.
    injection Hcd as -> _. exact Hw. }
  rewrite Hk in *. split; [|split].
  - eapply regexHabilidades_forma, St.
  - exact Hval.
  - exists n. split; [exact Hn|]. exists pre, s'. exact Ht.
Qed.

(** X16.  [extrairHabilidadesBNCC] returns at most 15 records.  Each code
    it returns is a complete code (EF, two digits, two capital letters, two
    digits; or EM, two digits, three capital letters, two or three digits)
    that stands in the text of one of the passages, and it passes the level,
    area and grade tests of the call. *)
Theorem extrair_codes_from_text
  (nodes : list EnrichedNode) (nivel : NivelEscolar)
  (area : option jsstring) (ano : option Z) :
  length (extrairHabilidadesBNCC nodes nivel area ano) <= 15
  /\ Forall
       (fun h =>
          codigoHabilidade (codigo h) = true
          /\ habilidadeValida nivel area ano (codigo h, descricao h) = true
          /\ exists n, n ∈ nodes /\ codigoNoTexto (codigo h) n)
       (extrairHabilidadesBNCC nodes nivel area ano).
Proof.
  split.
  - unfold extrairHabilidadesBNCC. rewrite length_map, length_take. lia.
  - apply Forall_forall. intros h Hh. apply extrair_registro, Hh.
Qed.

Lemma indexOfAux_some c : forall s i j,
  Str.indexOfAux c i s = Some j ->
  i <= j /\ Forall (fun x => x <> c) (take (j - i) s).
Proof.
  induction s as [|x s IH]; intros i j H; simpl in H; [discriminate|].
  destruct (N.eqb_spec x c) as [->|Hne].
  - injection H as <-. rewrite Nat.sub_diag. split; [lia | constructor].
  - apply IH in H as [Hle H]. split; [lia|].
    replace (j - i) with (S (j - S i)) by lia. cbn [take].
    constructor; assumption.
Qed.

Lemma indexOfAux_none c : forall s i,
  Str.indexOfAux c i s = None -> Forall (fun x => x <> c) s.
Proof.
  induction s as [|x s IH]; intros i H; simpl in H; [constructor|].
  destruct (N.eqb_spec x c) as [->|Hne]; [discriminate|].
  constructor; [exact Hne | eapply IH, H].
Qed.

Lemma Forall_substring (P : N -> Prop) (s : jsstring) (a b : nat) :
  Forall P s -> Forall P (Str.substring s a b).
Proof. intros H. unfold Str.substring. apply Forall_take, Forall_drop, H. Qed.

Lemma Forall_remove1 (P : N -> Prop) r (s : jsstring) :
  Forall P s -> Forall P (Re.remove1 r s).
Proof.
  intros H. unfold Re.remove1. destruct (Re.exec r s 0); [|exact H].
  apply Forall_app. split; [apply Forall_take | apply Forall_drop]; exact H.
Qed.

Lemma Forall_trimStart (P : N -> Prop) (s : jsstring) :
  Forall P s -> Forall P (Str.trimStart s).
Proof.
  induction 1 as [|c s Hc Hs IH]; simpl; [constructor|].
  destruct (Str.isWhite c); [exact IH | constructor; assumption].
Qed.

Lemma Forall_trim (P : N -> Prop) (s : jsstring) :
  Forall P s -> Forall P (Str.trim s).
Proof.
  intros H. unfold Str.trim, Str.trimEnd.
  apply Forall_rev, Forall_trimStart, Forall_rev, Forall_trimStart, H.
Qed.

Lemma trimStart_inicial s : semBrancoInicial (Str.trimStart s) = true.
Proof.
  induction s as [|c s IH]; simpl; [reflexivity|].
  destruct (Str.isWhite c) eqn:E; [exact IH|]. simpl. rewrite E. reflexivity.
Qed.

Lemma trimStart_snoc c : Str.isWhite c = false -> forall l,
  exists l', Str.trimStart (l ++ [c]) = l' ++ [c].
Proof.
  intros Hc. induction l as [|x l IH]; simpl.
  - rewrite Hc. exists []. reflexivity.
  - destruct (Str.isWhite x); [exact IH|]. exists (x :: l). reflexivity.
Qed.

Lemma trim_limpa s :
  semBrancoInicial (Str.trim s) = true
  /\ semBrancoInicial (rev (Str.trim s)) = true.
Proof.
  unfold Str.trim, Str.trimEnd. split.
  - pose proof (trimStart_inicial s) as H.
    destruct (Str.trimStart s) as [|c t]; [reflexivity|].
    simpl in H. apply negb_true_iff in H.
    cbn [rev]. destruct (trimStart_snoc c H (rev t)) as [l' ->].
    rewrite rev_app_distr. simpl. rewrite H. reflexivity.
  - rewrite rev_involutive. apply trimStart_inicial.
Qed.

(** The description the loop body computes is clean. *)
Lemma capturar_limpa texto m : descricaoLimpa (capturar texto m).2 = true.
Proof.
  unfold capturar. cbv zeta. cbn [snd].
  set (inicio := Re.index m + length (Re.matched texto m)).
  set (fim1 := match Str.indexOf texto 10 inicio with
               | Some i => i
               | None => length texto
               end).
  set (fim2 := match Re.search (regexHabilidades false)
                       (Str.substring texto inicio fim1) with
               | Some p => inicio + p
               | None => fim1
               end).
  assert (Hlf : Forall (fun x => x <> 10%N) (Str.substring texto inicio fim2)).
  { assert (H1 : Forall (fun x => x <> 10%N) (Str.substring texto inicio fim1)
                 /\ (forall p, p <= length (Str.substring texto inicio fim1) ->
                     Forall (fun x => x <> 10%N)
                       (take p (drop inicio texto)))).
    { subst fim1. unfold Str.indexOf.
      destruct (Str.indexOfAux 10 inicio (drop inicio texto)) as [i|] eqn:E.
      - apply indexOfAux_some in E as [Hle H].
        assert (Es : Str.substring texto inicio i
                     = take (i - inicio) (drop inicio texto)).
        { unfold Str.substring. rewrite Nat.min_l, Nat.max_r by lia.
          reflexivity. }
        rewrite Es. split; [exact H|]. intros p Hp.
        rewrite length_take in Hp.
        replace p with (Nat.min p (i - inicio)) by lia.
        rewrite <- take_take. apply Forall_take, H.
      - apply indexOfAux_none in E. split.
        + unfold Str.substring.
          destruct (Nat.le_gt_cases inicio (length texto)) as [Hle|Hgt].
          * rewrite Nat.min_l by lia. apply Forall_take, E.
          * rewrite Nat.min_r by lia. rewrite drop_all, take_nil. constructor.
        + intros p _. apply Forall_take, E. }
    destruct H1 as [H1 H2]. subst fim2. unfold Re.search.
    destruct (Re.exec (regexHabilidades false)
                (Str.substring texto inicio fim1) 0) as [f|] eqn:E;
      [|exact H1].
    cbn [option_map]. apply exec_bounds in E as [[_ Hi] Hs].
    unfold Str.substring at 1. rewrite Nat.min_l, Nat.max_r by lia.
    replace (inicio + Re.index f - inicio) with (Re.index f) by lia.
    apply H2. lia. }
  set (d := Str.trim (Re.remove1 reMarcador (Str.substring texto inicio fim2))).
  assert (Hd : Forall (fun x => x <> 10%N) d)
    by (apply Forall_trim, Forall_remove1, Hlf).
  destruct (trim_limpa (Re.remove1 reMarcador (Str.substring texto inicio fim2)))
    as [Hi Hf]. fold d in Hi, Hf. clearbody d. clear Hlf.
  unfold descricaoLimpa.
  assert (Hall : forall l, Forall (fun x => x <> 10%N) l ->
                           forallb (fun c => negb (c =? 10)%N) l = true).
  { intros l Hl. apply forallb_forall. intros x Hx.
    rewrite Forall_forall in Hl. apply negb_true_iff, N.eqb_neq, Hl.
    apply list_elem_of_In, Hx. }
  destruct (Nat.ltb_spec 200 (length d)) as [Hlong|Hshort].
  - unfold Str.substring. cbn [Nat.min Nat.max Nat.sub drop].
    change (js "...") with [46; 46; 46]%N.
    rewrite Hall, rev_app_distr.
    2:{ apply Forall_app. split; [apply Forall_take, Hd|].
        repeat constructor; discriminate. }
    destruct d as [|c d']; [cbn in Hlong; lia|].
    cbn in Hi |- *. rewrite Hi. reflexivity.
  - rewrite Hall, Hi, Hf by exact Hd. reflexivity.
Qed.

(** X17.  Every description returned by [extrairHabilidadesBNCC] is a single
    line without white space at either end: it holds no line feed, and
    neither its first nor its last character is white space. *)
Theorem extrair_descricao_limpa
  (nodes : list EnrichedNode) (nivel : NivelEscolar)
  (area : option jsstring) (ano : option Z) :
  Forall (fun h => descricaoLimpa (descricao h) = true)
    (extrairHabilidadesBNCC nodes nivel area ano).
Proof.
  apply Forall_forall. intros h Hh.
  apply extrair_elem in Hh as [Hcap _].
  apply todasCapturas_elem in Hcap as (n & from & m & _ & _ & Hcd).
  replace (descricao h) with (capturar (default [] (nodeText (raw n))) m).2
    by (rewrite <- Hcd; reflexivity).
  apply capturar_limpa.
Qed.

Local Open Scope Z_scope.

(** ** Query planning and aggregation *)

Local Open Scope nat_scope.

Lemma includes_refl m : Str.includes m m = true.
Proof.
  pose proof (includes_app [] m []) as H. rewrite app_nil_r in H. exact H.
Qed.

Lemma join_includes sep m : forall partes,
  m ∈ partes -> Str.includes (Str.join sep partes) m = true.
Proof.
  induction partes as [|x l IH]; intros H.
  - apply elem_of_nil in H. contradiction.
  - apply elem_of_cons in H as [->|H].
    + destruct l as [|y l]; cbn [Str.join]; [apply includes_refl|].
      apply (includes_app [] x).
    + destruct l as [|y l]; [apply elem_of_nil in H; contradiction|].
      apply IH, includes_split in H as (pre & pos & E).
      change (Str.join sep (x :: y :: l))
        with (x ++ sep ++ Str.join sep (y :: l)).
      rewrite E.
      replace (x ++ sep ++ pre ++ m ++ pos)
        with ((x ++ sep ++ pre) ++ m ++ pos)
        by (rewrite <- !app_assoc; reflexivity).
      apply includes_app.
Qed.

Lemma frase_includes m partes :
  m ∈ partes -> Str.includes (frase partes) m = true.
Proof. apply join_includes. Qed.

(** X18.  The query planner always plans three queries, or five when the
    level is the fundamental one and both an area and a grade were found;
    every planned query contains the theme as given. *)
Theorem planejarQueries_tema
  (tema disciplina serie anoSerie : jsstring) (nivelEscolar : NivelEscolar)
  (areaBNCC : option jsstring) (anoEsperado : option Z) :
  Forall (fun q => Str.includes q tema = true)
    (planejarQueries tema disciplina serie anoSerie nivelEscolar areaBNCC
       anoEsperado)
  /\ length
       (planejarQueries tema disciplina serie anoSerie nivelEscolar areaBNCC
          anoEsperado)
     = if bool_decide (nivelEscolar = fundamental) && negb (falsy areaBNCC)
          && bool_decide (anoEsperado <> None)
       then 5 else 3.
Proof.
  assert (Hin : forall partes, tema ∈ partes ->
                               Str.includes (frase partes) tema = true)
    by (intros; apply frase_includes; assumption).
  destruct nivelEscolar, areaBNCC as [[|c area]|], anoEsperado as [ano|];
    cbn [planejarQueries falsy]; (split; [|reflexivity]);
    repeat constructor;
    try (apply Hin; set_solver).
  destruct (Str.includes (Str.toLowerCase disciplina) (js "ingl"));
    [apply includes_refl | apply Hin; set_solver].
Qed.

Lemma StronglySorted_sublist {A} (R : A -> A -> Prop) (l1 l2 : list A) :
  l1 `sublist_of` l2 -> StronglySorted R l2 -> StronglySorted R l1.
Proof.
  induction 1 as [|x l1 l2 Hs IH|x l1 l2 Hs IH]; intros H.
  - constructor.
  - apply StronglySorted_inv in H as [H Hx]. constructor; [apply IH, H|].
    rewrite Forall_forall in *. intros y Hy. apply Hx.
    eapply elem_of_sublist; eassumption.
  - apply StronglySorted_inv in H as [H _]. apply IH, H.
Qed.

(** X19.  With the engine initialised, [consultarBNCC] returns at most ten
    passages, in non-increasing order of final score; each is the scoring
    of a passage some query retrieved and passes the relevance filter; and
    every skill returned has a complete code that stands in the text of one
    of the passages returned. *)
Theorem consultarBNCC_result
  (engine : Engine) (tema disciplina serie anoSerie : jsstring) :
  match consultarBNCC (Returned engine) tema disciplina serie anoSerie with
  | Returned r =>
      length (sourceNodes r) <= 10
      /\ StronglySorted naoMenor (sourceNodes r)
      /\ Forall
           (fun e =>
              manter e = true
              /\ exists n,
                   n ∈ agregados engine (queries r)
                   /\ e = enriquecer tema disciplina serie
                            (detectarAreaBNCC disciplina
                               (Some (detectarNivelEscolar serie))) n)
           (sourceNodes r)
      /\ Forall
           (fun h =>
              codigoHabilidade (codigo h) = true
              /\ exists e, e ∈ sourceNodes r /\ codigoNoTexto (codigo h) e)
           (habilidades r)
  | Thrown => False
  end.
Proof.
  cbn [consultarBNCC]. cbv zeta. cbn [sourceNodes queries habilidades].
  rewrite executar_nodes. cbn [flat_map app].
  set (qs := planejarQueries _ _ _ _ _ _ _).
  set (area := detectarAreaBNCC _ _).
  change (concat (imap (fun j => nodesDaQuery engine (0 + j)) qs))
    with (agregados engine qs).
  set (filtrados := filtrarNodesPorRelevancia _ _ _ _ _).
  destruct (fold_visitar_ok 10 filtrados
              {| uniqueNodes := []; seenPages := ∅ |}) as (_ & _ & Hlen).
  { repeat split; simpl; [constructor | constructor | lia]. }
  destruct (removerNodesDuplicados_primeiros filtrados 10) as (Hsub & _).
  fold (removerNodesDuplicados filtrados 10) in Hlen, Hsub.
  split; [lia|]. split; [|split].
  - eapply StronglySorted_sublist; [exact Hsub|]. apply ordenar_sorted.
  - apply Forall_forall. intros e He.
    eapply elem_of_sublist in He; [|exact Hsub].
    apply ordenar_elem, list_elem_of_In, filter_In in He as [He Hk].
    split; [exact Hk|].
    apply in_map_iff in He as (n & <- & Hn). exists n.
    split; [apply list_elem_of_In, Hn | reflexivity].
  - apply Forall_forall. intros h Hh.
    apply extrair_registro in Hh as (Hc & _ & e & He & Hin).
    split; [exact Hc|]. exists e. auto.
Qed.

Local Open Scope Z_scope.

(** ** White space and letter case *)

Lemma trimStart_nil s : Str.trimStart s = [] <-> forallb Str.isWhite s = true.
Proof.
  induction s as [|c s IH]; simpl; [tauto|].
  destruct (Str.isWhite c); simpl; [exact IH|]. split; discriminate.
Qed.

Lemma trimStart_fixed s : semBrancoInicial s = true -> Str.trimStart s = s.
Proof.
  destruct s as [|c s]; simpl; [reflexivity|]. intros H.
  apply negb_true_iff in H. rewrite H. reflexivity.
Qed.

Lemma forallb_rev {A} (f : A -> bool) (l : list A) :
  forallb f (rev l) = forallb f l.
Proof.
  induction l as [|x l IH]; simpl; [reflexivity|].
  rewrite forallb_app, IH. simpl. rewrite andb_true_r. apply andb_comm.
Qed.

Lemma trim_nil s : Str.trim s = [] <-> forallb Str.isWhite s = true.
Proof.
  unfold Str.trim, Str.trimEnd. split.
  - intros H. apply (f_equal (@rev N)) in H. rewrite rev_involutive in H.
    cbn [rev] in H. apply trimStart_nil in H. rewrite forallb_rev in H.
    pose proof (trimStart_inicial s) as Hi.
    destruct (Str.trimStart s) as [|c t] eqn:E; [apply trimStart_nil, E|].
    cbn in H, Hi. destruct (Str.isWhite c); discriminate.
  - intros H. apply trimStart_nil in H. rewrite H. reflexivity.
Qed.

Lemma trim_idempotent s : Str.trim (Str.trim s) = Str.trim s.
Proof.
  destruct (trim_limpa s) as [Hi Hf].
  unfold Str.trim at 1. rewrite trimStart_fixed by exact Hi.
  unfold Str.trimEnd. rewrite trimStart_fixed by exact Hf.
  apply rev_involutive.
Qed.

Lemma trimStart_app_white p s :
  forallb Str.isWhite p = true -> Str.trimStart (p ++ s) = Str.trimStart s.
Proof.
  induction p as [|c p IH]; simpl; [reflexivity|]. intros H.
  apply andb_true_iff in H as [-> H]. apply IH, H.
Qed.

Lemma trim_padded p1 p2 s :
  forallb Str.isWhite p1 = true -> forallb Str.isWhite p2 = true ->
  Str.trim (p1 ++ s ++ p2) = Str.trim s.
Proof.
  intros H1 H2. unfold Str.trim. rewrite trimStart_app_white by exact H1.
  unfold Str.trimEnd. f_equal.
  destruct (Str.trimStart s) as [|c t] eqn:E.
  - apply trimStart_nil in E.
    assert (Hs : Str.trimStart (s ++ p2) = []).
    { apply trimStart_nil. rewrite forallb_app, E, H2. reflexivity. }
    rewrite Hs. reflexivity.
  - assert (Hs : Str.trimStart (s ++ p2) = (c :: t) ++ p2).
    { revert E. clear. induction s as [|x s IH]; simpl; [discriminate|].
      destruct (Str.isWhite x); [exact IH|]. intros [= -> ->]. reflexivity. }
    rewrite Hs, rev_app_distr. apply trimStart_app_white.
    rewrite forallb_rev. exact H2.
Qed.

Lemma toLowerUnit_minuscula c : forallb minuscula (Str.toLowerUnit c) = true.
Proof.
  unfold Str.toLowerUnit.
  repeat match goal with
         | |- context [if ?b then _ else _] => destruct b eqn:?
         end;
    cbn [forallb]; rewrite ?andb_true_r;
    try (vm_compute; reflexivity).
  all: unfold minuscula, Str.toLowerUnit.
  all: repeat match goal with
         | H : _ && _ = true |- _ => apply andb_true_iff in H as [? ?]
         | H : _ && _ = false |- _ => apply andb_false_iff in H
         | H : negb _ = true |- _ => apply negb_true_iff in H
         | H : negb _ = false |- _ => apply negb_false_iff in H
         | H : (_ <=? _)%N = true |- _ => apply N.leb_le in H
         | H : (_ <=? _)%N = false |- _ => apply N.leb_gt in H
         | H : (_ =? _)%N = true |- _ => apply N.eqb_eq in H
         | H : (_ =? _)%N = false |- _ => apply N.eqb_neq in H
         end.
  all: repeat match goal with
         | |- context [(?a <=? ?b)%N] =>
             destruct (N.leb_spec a b); cbn [andb negb]
         | |- context [(?a =? ?b)%N] =>
             destruct (N.eqb_spec a b); cbn [andb negb]
         end; try reflexivity; try lia; try (exfalso; intuition lia).
Qed.

Lemma toLowerCase_fixed s :
  forallb minuscula s = true -> Str.toLowerCase s = s.
Proof.
  unfold Str.toLowerCase.
  induction s as [|c s IH]; simpl; [reflexivity|]. intros H.
  apply andb_true_iff in H as [Hc H]. rewrite IH by exact H.
  unfold minuscula in Hc.
  destruct (Str.toLowerUnit c) as [|u [|? ?]]; try discriminate.
  apply N.eqb_eq in Hc. subst u. reflexivity.
Qed.

Lemma toLowerCase_minuscula s : forallb minuscula (Str.toLowerCase s) = true.
Proof.
  unfold Str.toLowerCase.
  induction s as [|c s IH]; simpl; [reflexivity|].
  rewrite forallb_app, toLowerUnit_minuscula, IH. reflexivity.
Qed.

Lemma trim_minuscula s :
  forallb minuscula s = true -> forallb minuscula (Str.trim s) = true.
Proof.
  intros H. apply forallb_forall. intros x Hx.
  assert (HF : Forall (fun c => minuscula c = true) (Str.trim s)).
  { apply Forall_trim, Forall_forall. intros c Hc.
    rewrite forallb_forall in H. apply H, list_elem_of_In, Hc. }
  rewrite Forall_forall in HF. apply HF, list_elem_of_In, Hx.
Qed.

Lemma toLowerUnit_white c : Str.isWhite c = true -> Str.toLowerUnit c = [c].
Proof.
  unfold Str.isWhite, Str.toLowerUnit. intros H.
  repeat match goal with
         | |- context [(?a <=? ?b)%N] =>
             destruct (N.leb_spec a b); cbn [andb negb]
         | |- context [(?a =? ?b)%N] =>
             destruct (N.eqb_spec a b); cbn [andb negb]
         end; try reflexivity; exfalso; subst;
    try (vm_compute in H; discriminate);
    repeat match type of H with
           | context [(?a <=? ?b)%N] =>
               destruct (N.leb_spec a b); cbn [andb orb] in H
           | context [(?a =? ?b)%N] =>
               destruct (N.eqb_spec a b); cbn [andb orb] in H
           end; try discriminate; lia.
Qed.

Lemma toLowerCase_white p :
  forallb Str.isWhite p = true -> Str.toLowerCase p = p.
Proof.
  unfold Str.toLowerCase.
  induction p as [|c p IH]; simpl; [reflexivity|]. intros H.
  apply andb_true_iff in H as [Hc H].
  rewrite toLowerUnit_white, IH by assumption. reflexivity.
Qed.

(** X20.  [detectarAreaBNCC] looks the subject up by its normal form only:
    normalising the name beforehand (lower case, no white space around)
    changes nothing, for every subject name and level. *)
Theorem detectarAreaBNCC_normal_form
  (disciplina : jsstring) (nivelEscolar : option NivelEscolar) :
  detectarAreaBNCC (Str.trim (Str.toLowerCase disciplina)) nivelEscolar
  = detectarAreaBNCC disciplina nivelEscolar.
Proof.
  assert (E : Str.trim (Str.toLowerCase (Str.trim (Str.toLowerCase disciplina)))
              = Str.trim (Str.toLowerCase disciplina)).
  { rewrite (toLowerCase_fixed (Str.trim (Str.toLowerCase disciplina)))
      by apply trim_minuscula, toLowerCase_minuscula.
    apply trim_idempotent. }
  unfold detectarAreaBNCC. cbv zeta. rewrite E. reflexivity.
Qed.

(** X21.  White space around the subject name does not change the area
    [detectarAreaBNCC] finds. *)
Theorem detectarAreaBNCC_padding
  (antes depois disciplina : jsstring) (nivelEscolar : option NivelEscolar) :
  forallb Str.isWhite antes = true -> forallb Str.isWhite depois = true ->
  detectarAreaBNCC (antes ++ disciplina ++ depois) nivelEscolar
  = detectarAreaBNCC disciplina nivelEscolar.
Proof.
  intros H1 H2.
  assert (E : Str.trim (Str.toLowerCase (antes ++ disciplina ++ depois))
              = Str.trim (Str.toLowerCase disciplina)).
  { unfold Str.toLowerCase. rewrite !flat_map_app.
    fold (Str.toLowerCase antes) (Str.toLowerCase disciplina)
      (Str.toLowerCase depois).
    rewrite (toLowerCase_white antes), (toLowerCase_white depois)
      by assumption.
    apply trim_padded; assumption. }
  unfold detectarAreaBNCC. cbv zeta. rewrite E. reflexivity.
Qed.

Lemma detectarAreaBNCC_padding_witness :
  detectarAreaBNCC (js "  " ++ js "História" ++ [9; 10]%N) (Some medio)
  = detectarAreaBNCC (js "História") (Some medio).
Proof. apply detectarAreaBNCC_padding; reflexivity. Defined.

(** ** The request handler *)

Lemma verificar_casos campo :
  match verificar campo with
  | Vazio => emBranco campo = true /\ preenchido campo = false
             /\ naoTexto campo = false
  | Lanca => naoTexto campo = true /\ emBranco campo = false
             /\ preenchido campo = false
  | Preenchido s => campo = Texto s /\ preenchido campo = true
                    /\ emBranco campo = false /\ naoTexto campo = false
  end.
Proof.
  destruct campo as [|s|]; cbn [verificar emBranco preenchido naoTexto];
    [auto | | auto].
  destruct (forallb Str.isWhite s) eqn:E.
  - apply trim_nil in E. rewrite E. auto.
  - destruct (Str.trim s) eqn:Et; [|auto].
    apply trim_nil in Et. congruence.
Qed.

(** X22.  The handler reads the theme, the subject and the grade label in
    this order.  It answers 400 exactly when the first of them that is not
    a string with content is absent or blank, with the message of that
    field; the engine and the language model have no part in it. *)
Theorem gerarContextoController_400 {C : Type}
  (body : option Corpo) (engine : outcome Engine)
  (gerarContextoPedagogico :
     jsstring -> jsstring -> jsstring -> list Habilidade -> outcome C) :
  match gerarContextoController body engine gerarContextoPedagogico with
  | Erro400 e =>
      exists b,
        body = Some b
        /\ (emBranco (campo_tema b) = true /\ e = js "Tema é obrigatório"
            \/ preenchido (campo_tema b) = true
               /\ emBranco (campo_disciplina b) = true
               /\ e = js "Disciplina é obrigatória"
            \/ preenchido (campo_tema b) = true
               /\ preenchido (campo_disciplina b) = true
               /\ emBranco (campo_serie b) = true
               /\ e = js "Série é obrigatória")
  | _ =>
      forall b,
        body = Some b ->
        emBranco (campo_tema b) = false
        /\ (preenchido (campo_tema b) = true ->
            emBranco (campo_disciplina b) = false
            /\ (preenchido (campo_disciplina b) = true ->
                emBranco (campo_serie b) = false))
  end.
Proof.
  unfold gerarContextoController.
  destruct body as [b|]; [|intros b [=]].
  pose proof (verificar_casos (campo_tema b)) as Ht.
  pose proof (verificar_casos (campo_disciplina b)) as Hd.
  pose proof (verificar_casos (campo_serie b)) as Hs.
  destruct (verificar (campo_tema b)) as [| |t].
  { destruct Ht as (Ht & _). exists b. split; [reflexivity|]. left. auto. }
  { destruct Ht as (_ & Ht & Hp). intros b' [= <-]. split; [exact Ht|].
    intros Hp'. congruence. }
  destruct Ht as (_ & Pt & Bt & _).
  destruct (verificar (campo_disciplina b)) as [| |d].
  { destruct Hd as (Hd & _). exists b. split; [reflexivity|].
    right. left. auto. }
  { destruct Hd as (_ & Hd & Hp). intros b' [= <-]. split; [exact Bt|].
    intros _. split; [exact Hd|]. intros Hp'. congruence. }
  destruct Hd as (_ & Pd & Bd & _).
  destruct (verificar (campo_serie b)) as [| |s].
  { destruct Hs as (Hs & _). exists b. split; [reflexivity|].
    right. right. auto. }
  { destruct Hs as (_ & Hs & _). intros b' [= <-]. auto. }
  destruct Hs as (_ & _ & Bs & _).
  cbv zeta.
  destruct (consultarBNCC _ _ _ _ _);
    [destruct (gerarContextoPedagogico _ _ _ _)|];
    intros b' [= <-]; auto.
Qed.

(** X23.  When the handler answers 200, the three fields are strings with
    content, the retrieval returned, the language model was given exactly
    the skills the retrieval returned and its answer is passed on; the
    sources are at most ten pages, pairwise distinct and all resolved.  It
    answers 500 only when the body is missing, when the first field that
    is not a string with content is a value of another type, when the
    engine could not be initialised or when the language model call
    failed: failing queries never cause it. *)
Theorem gerarContextoController_outcome {C : Type}
  (body : option Corpo) (engine : outcome Engine)
  (gerarContextoPedagogico :
     jsstring -> jsstring -> jsstring -> list Habilidade -> outcome C) :
  match gerarContextoController body engine gerarContextoPedagogico with
  | Erro400 _ => True
  | Erro500 =>
      body = None
      \/ (exists b,
            body = Some b
            /\ (naoTexto (campo_tema b) = true
                \/ preenchido (campo_tema b) = true
                   /\ naoTexto (campo_disciplina b) = true
                \/ preenchido (campo_tema b) = true
                   /\ preenchido (campo_disciplina b) = true
                   /\ naoTexto (campo_serie b) = true))
      \/ (exists b,
            body = Some b
            /\ preenchido (campo_tema b) = true
            /\ preenchido (campo_disciplina b) = true
            /\ preenchido (campo_serie b) = true
            /\ (engine = Thrown
                \/ exists hs,
                     gerarContextoPedagogico (textoDe (campo_tema b))
                       (textoDe (campo_disciplina b))
                       (textoDe (campo_serie b)) hs = Thrown))
  | Ok200 contexto bnccReferencia fontes =>
      (exists b r,
         body = Some b
         /\ preenchido (campo_tema b) = true
         /\ preenchido (campo_disciplina b) = true
         /\ preenchido (campo_serie b) = true
         /\ consultarBNCC engine (textoDe (campo_tema b))
              (textoDe (campo_disciplina b)) (textoDe (campo_serie b))
              (obterDescricaoNivelEscolar (textoDe (campo_serie b)))
            = Returned r
         /\ gerarContextoPedagogico (textoDe (campo_tema b))
              (textoDe (campo_disciplina b)) (textoDe (campo_serie b))
              (habilidades r) = Returned contexto
         /\ bnccReferencia = response r
         /\ fontes = paginas (sourceNodes r))
      /\ (length fontes <= 10)%nat
      /\ NoDup fontes
      /\ Forall (fun p => exists page, p = Some page /\ page <> 0) fontes
  end.
Proof.
  unfold gerarContextoController.
  destruct body as [b|]; [|left; reflexivity].
  pose proof (verificar_casos (campo_tema b)) as Ht.
  pose proof (verificar_casos (campo_disciplina b)) as Hd.
  pose proof (verificar_casos (campo_serie b)) as Hs.
  destruct (verificar (campo_tema b)) as [| |t]; [exact I | |].
  { destruct Ht as (Ht & _). right. left. exists b. auto. }
  destruct Ht as (Et & Pt & _).
  destruct (verificar (campo_disciplina b)) as [| |d]; [exact I | |].
  { destruct Hd as (Hd & _). right. left. exists b. auto. }
  destruct Hd as (Ed & Pd & _).
  destruct (verificar (campo_serie b)) as [| |s]; [exact I | |].
  { destruct Hs as (Hs & _). right. left. exists b. auto 6. }
  destruct Hs as (Es & Ps & _).
  rewrite Et, Ed, Es in *. cbn [textoDe]. cbv zeta.
  destruct engine as [e|].
  2:{ right. right. exists b. rewrite Et, Ed, Es. cbn [textoDe]. auto 10. }
  destruct (consultarBNCC (Returned e) t d s (obterDescricaoNivelEscolar s))
    as [r|] eqn:Er; [|discriminate Er].
  assert (Hh : habilidadesValidas (habilidades r) (detectarNivelEscolar s)
               = habilidades r).
  { cbn [consultarBNCC] in Er. injection Er as <-. cbn [habilidades].
    apply filter_Forall_id, extrair_nivel_valido. }
  rewrite Hh.
  destruct (gerarContextoPedagogico t d s (habilidades r)) as [c|] eqn:Eg.
  2:{ right. right. exists b. rewrite Et, Ed, Es. cbn [textoDe].
      repeat split; try assumption. right. exists (habilidades r). exact Eg. }
  split.
  { exists b, r. rewrite Et, Ed, Es. cbn [textoDe]. repeat split; assumption. }
  cbn [consultarBNCC] in Er. injection Er as <-. cbn [sourceNodes].
  match goal with
  | |- context [removerNodesDuplicados ?l 10] => set (filtrados := l)
  end.
  destruct (fold_visitar_ok 10 filtrados
              {| uniqueNodes := []; seenPages := ∅ |}) as (Hnd & Hall & Hlen).
  { repeat split; simpl; [constructor | constructor | lia]. }
  fold (removerNodesDuplicados filtrados 10) in Hnd, Hall, Hlen.
  fold (paginas (removerNodesDuplicados filtrados 10)).
  split; [unfold paginas; rewrite length_map; lia|].
  split; [exact Hnd|].
  unfold paginas. apply Forall_map.
  eapply Forall_impl; [exact Hall|]. intros n [Hr _]. cbn beta.
  unfold paginaResolvida in Hr.
  destruct (nodePage (raw n)) as [page|]; [|discriminate].
  exists page. split; [reflexivity|].
  apply negb_true_iff, Z.eqb_neq in Hr. exact Hr.
Qed.

Local Open Scope Z_scope.

(** ** Grade labels *)

Lemma match1_reAnoSerie (c : N) (o sp w resto : jsstring) :
  Str.isDigit c = true ->
  In o sinaisOrdinais -> In sp [[]; [32%N]] -> In w palavrasDeAno ->
  exists m,
    Re.match1 reAnoSerie (c :: o ++ sp ++ w ++ resto) = Some m
    /\ grp 1 m = [c].
Proof.
  intros Hc Ho Hsp Hw.
  unfold sinaisOrdinais, palavrasDeAno in *. cbn [List.map] in Hw.
  repeat match goal with
         | H : In _ _ |- _ => cbn [In] in H
         end.
  unfold reAnoSerie. js_eval.
  repeat match type of Hw with
         | context [js ?s] =>
             let v := eval vm_compute in (js s) in change (js s) with v in Hw
         end.
  destruct Ho as [<-|[<-|[<-|[<-|[]]]]];
    destruct Hsp as [<-|[<-|[]]];
    destruct Hw as [<-|[<-|[<-|[<-|[<-|[<-|[<-|[<-|[<-|[]]]]]]]]]];
    cbn; rewrite Hc; cbn; eexists; (split; [reflexivity|]);
    cbn; rewrite ?take_0; reflexivity.
Qed.

(** X24.  On a grade label that starts with one digit followed by an
    optional ordinal sign, an optional space and a grade word,
    [extrairNumeroAno] returns that digit, whatever follows. *)
Theorem extrairNumeroAno_label (d : N) (o sp w resto : jsstring) :
  (d < 10)%N ->
  In o sinaisOrdinais -> In sp [[]; [32%N]] -> In w palavrasDeAno ->
  extrairNumeroAno ([48 + d]%N ++ o ++ sp ++ w ++ resto) = Some (Z.of_N d).
Proof.
  intros Hd Ho Hsp Hw.
  destruct (match1_reAnoSerie (48 + d) o sp w resto
              (isDigit_digit d Hd) Ho Hsp Hw) as (m & Hm & Hg).
  unfold extrairNumeroAno. cbn [app]. rewrite Hm, Hg.
  apply parseInt_digit, Hd.
Qed.

Lemma extrairNumeroAno_label_witness :
  extrairNumeroAno ([48 + 9]%N ++ [186%N] ++ [32%N] ++ js "ANO" ++ js " B")
  = Some (Z.of_N 9).
Proof.
  apply extrairNumeroAno_label;
    [lia | right; left; reflexivity | right; left; reflexivity
    | do 6 right; left; reflexivity].
Defined.

Lemma toUpperUnit_low c : (c < 97)%N -> Str.toUpperUnit c = [c].
Proof.
  intros Hc. unfold Str.toUpperUnit.
  repeat match goal with
         | |- context [(?a <=? ?b)%N] =>
             destruct (N.leb_spec a b); cbn [andb negb]
         | |- context [(?a =? ?b)%N] =>
             destruct (N.eqb_spec a b); cbn [andb negb]
         end; try reflexivity; lia.
Qed.

Lemma toUpperCase_low s :
  Forall (fun c => (c < 97)%N) s -> Str.toUpperCase s = s.
Proof.
  unfold Str.toUpperCase. induction 1 as [|c s Hc _ IH]; cbn [flat_map];
    [reflexivity|].
  rewrite toUpperUnit_low, IH by exact Hc. reflexivity.
Qed.

Lemma isDigit_low c : Str.isDigit c = true -> (c < 97)%N.
Proof.
  unfold Str.isDigit. intros H. apply andb_true_iff in H as [_ H].
  apply N.leb_le in H. lia.
Qed.

Lemma range_low c : Re.range 65 90 c = true -> (c < 97)%N.
Proof.
  unfold Re.range. intros H. apply andb_true_iff in H as [_ H].
  apply N.leb_le in H. lia.
Qed.

(** Upper-casing leaves a code alone. *)
Lemma codigoHabilidade_upper codigo :
  codigoHabilidade codigo = true -> Str.toUpperCase codigo = codigo.
Proof.
  intros Hc. apply toUpperCase_low.
  destruct (codigoHabilidade_cases codigo Hc)
    as [(d1 & d2 & l1 & l2 & m1 & m2 & -> & HD & HL)
       |[(d1 & d2 & l1 & l2 & l3 & m1 & m2 & -> & HD & HL)
        |(d1 & d2 & l1 & l2 & l3 & m1 & m2 & m3 & -> & HD & HL)]];
    repeat match goal with
           | H : Forall _ (_ :: _) |- _ => apply Forall_cons in H as [? H]
           end;
    repeat constructor;
    first [ reflexivity
          | apply isDigit_low; assumption
          | apply range_low; assumption ].
Qed.

(** X25.  The code prefix of the planned queries is consistent with the
    validators: for a grade from 0 to 9 and an area of the fundamental
    level, every complete code that starts with EF, the padded grade and the
    area passes the level, area and grade tests of the extractor and the
    code checks of the scoring loop. *)
Theorem planner_codes_accepted
  (g : Z) (area : jsstring) (n1 n2 : N) (descricao : jsstring) :
  0 <= g <= 9 -> In area areasFundamental ->
  Str.isDigit n1 = true -> Str.isDigit n2 = true ->
  codigoHabilidade
    (js "EF" ++ Str.padStart (Str.toString g) 2 48 ++ area ++ [n1; n2]) = true
  /\ habilidadeValida fundamental (Some area) (Some g)
       (js "EF" ++ Str.padStart (Str.toString g) 2 48 ++ area ++ [n1; n2],
        descricao) = true
  /\ codigoAceito fundamental (Some g) (Some area)
       (js "EF" ++ Str.padStart (Str.toString g) 2 48 ++ area ++ [n1; n2])
     = true.
Proof.
  intros Hg Harea H1 H2. rewrite (padStart_digit g Hg).
  set (codigo := js "EF" ++ [48; 48 + Z.to_N g]%N ++ area ++ [n1; n2]).
  assert (Hd : Str.isDigit (48 + Z.to_N g) = true)
    by (apply isDigit_digit; lia).
  assert (Hc : codigoHabilidade codigo = true).
  { subst codigo. unfold areasFundamental in Harea. cbn [List.map In] in Harea.
    unfold codigoHabilidade, formaCodigo. js_eval.
    repeat match type of Harea with
           | context [js ?s] =>
               let v := eval vm_compute in (js s) in
               change (js s) with v in Harea
           end.
    repeat (destruct Harea as [<-|Harea];
            [cbn [app Str.startsWith take drop length forallb Nat.add Nat.eqb
                  N.eqb Pos.eqb andb orb];
             rewrite ?Hd, ?H1, ?H2; vm_compute; reflexivity|]).
    contradiction. }
  assert (Hn : validarHabilidadeNivel codigo fundamental = true)
    by (subst codigo; unfold validarHabilidadeNivel; apply startsWith_app).
  assert (Ha : validarHabilidadeArea codigo (Some area) = true).
  { destruct (reCodigoArea_complete codigo Hc) as (m & Hm & Hl).
    assert (Hlen : length area = 2%nat).
    { unfold areasFundamental in Harea. cbn [List.map In] in Harea.
      repeat (destruct Harea as [<-|Harea]; [reflexivity|]). contradiction. }
    unfold validarHabilidadeArea.
    destruct area as [|a area']; [discriminate|].
    rewrite Hm, Hl, Hlen. cbn [Nat.eqb]. apply bool_decide_eq_true.
    subst codigo. unfold letrasDoCodigo. js_eval.
    cbn [app Str.startsWith N.eqb Pos.eqb andb drop].
    destruct area' as [|b [|? ?]]; try discriminate. reflexivity. }
  assert (Hy : validarHabilidadeAno codigo (Some g) = true).
  { subst codigo. change 48%N with (48 + 0)%N at 1.
    rewrite validarHabilidadeAno_EF by lia. cbn [N.eqb].
    apply Z.leb_le. lia. }
  split; [exact Hc|]. split.
  - unfold habilidadeValida. cbn [fst]. rewrite Hn, Ha, Hy.
    rewrite !orb_true_r. reflexivity.
  - pose proof (codigoHabilidade_upper codigo Hc) as Hu.
    unfold codigoAceito. cbv zeta. rewrite Hu, Hn, Ha, Hy.
    rewrite !orb_true_r. reflexivity.
Qed.

Lemma planner_codes_accepted_witness :
  codigoHabilidade
    (js "EF" ++ Str.padStart (Str.toString 9) 2 48 ++ js "HI" ++ [50; 56]%N)
  = true
  /\ habilidadeValida fundamental (Some (js "HI")) (Some 9)
       (js "EF" ++ Str.padStart (Str.toString 9) 2 48 ++ js "HI" ++ [50; 56]%N,
        js "Guerra Fria") = true
  /\ codigoAceito fundamental (Some 9) (Some (js "HI"))
       (js "EF" ++ Str.padStart (Str.toString 9) 2 48 ++ js "HI" ++ [50; 56]%N)
     = true.
Proof.
  apply planner_codes_accepted;
    [lia | left; reflexivity | reflexivity | reflexivity].
Defined.

Local Open Scope Z_scope.

(** ** The order of the extracted skills *)

Local Open Scope nat_scope.

Lemma mapHas_inList (h : mapa) k : mapHas h k = inList (List.map fst h) k.
Proof.
  unfold mapHas, inList. induction h as [|[k' v] h IH]; [reflexivity|].
  cbn [mapGet List.map existsb fst].
  destruct (bool_decide (k' = k)); [reflexivity | exact IH].
Qed.

Lemma registrar_keys (h : mapa) cd :
  List.map fst (registrar h cd)
  = if 10 <? length cd.2 then
      if inList (List.map fst h) cd.1 then List.map fst h
      else List.map fst h ++ [cd.1]
    else List.map fst h.
Proof.
  destruct cd as [k d]. unfold registrar. cbn [fst snd].
  destruct (10 <? length d); [|reflexivity].
  rewrite <- mapHas_inList.
  destruct (negb (mapHas h k) || _) eqn:E.
  - rewrite !map_fmap, mapSet_keys. reflexivity.
  - apply orb_false_iff in E as [E _]. apply negb_false_iff in E.
    rewrite E. reflexivity.
Qed.

Lemma fold_registrar_keys cs : forall h : mapa,
  List.map fst (fold_left registrar cs h)
  = fold_left (fun acc k => if inList acc k then acc else acc ++ [k])
      (List.map fst (List.filter (fun cd => 10 <? length cd.2) cs))
      (List.map fst h).
Proof.
  induction cs as [|cd cs IH]; intros h; [reflexivity|].
  cbn [fold_left List.filter]. rewrite IH, registrar_keys.
  destruct (10 <? length cd.2); reflexivity.
Qed.

Lemma map_fst_filter {A B} (f : A -> bool) (l : list (A * B)) :
  List.map fst (List.filter (fun e => f e.1) l)
  = List.filter f (List.map fst l).
Proof.
  induction l as [|[a b] l IH]; [reflexivity|].
  cbn [List.filter List.map fst]. destruct (f a); cbn [List.map fst];
    rewrite IH; reflexivity.
Qed.

(** X26.  The codes [extrairHabilidadesBNCC] returns are the first 15 of
    the distinct codes that were captured with a description of more than
    10 characters and pass the tests of the call, in the order in which
    these codes first occur in the passages as given. *)
Theorem extrair_codes_in_order
  (nodes : list EnrichedNode) (nivel : NivelEscolar)
  (area : option jsstring) (ano : option Z) :
  List.map codigo (extrairHabilidadesBNCC nodes nivel area ano)
  = take 15
      (List.filter (fun k => habilidadeValida nivel area ano (k, []))
         (distintos (codigosDescritos nodes))).
Proof.
  unfold extrairHabilidadesBNCC, distintos, codigosDescritos.
  rewrite map_map. cbn [codigo].
  change (List.map (fun x : jsstring * jsstring => x.1)) with
    (@List.map (jsstring * jsstring) _ fst).
  rewrite !map_fmap, fmap_take, <- !map_fmap.
  f_equal.
  rewrite (List.filter_ext (habilidadeValida nivel area ano)
             (fun e => habilidadeValida nivel area ano (e.1, [])))
    by (intros e; reflexivity).
  rewrite (map_fst_filter (fun k => habilidadeValida nivel area ano (k, []))).
  f_equal. rewrite coletar_capturas.
  apply (fold_registrar_keys (todasCapturas nodes) []).
Qed.
